(** * The staged buffering and delivery pipeline of lightfile6-insights-gateway

    A shallow embedding of [internal/cache] (the cache manager), of
    [internal/s3/aggregator.go] and of [internal/s3/client.go], with the
    operating system, the clock and the object store as an explicit world
    that the functions thread.

    Conventions.
    - A Go [string] is a [string]; a Go [[]byte] is a [list byte].
    - A file path is kept in the form [filepath.Clean] gives it, as the list
      of its elements below the root; [filepath.Join] cleans what it joins.
    - A Go function that returns an [error] is a computation in the monad
      [M]: it takes the world and gives the world back with a value or an
      error.  Logging has no effect on the world and is left out; the mutex
      of the cache manager guards against other goroutines, of which this
      sequential model has none. *)

From Stdlib Require Import ZArith Ascii String List Bool Lia.
From Stdlib.Strings Require Import Byte.
From Stdlib Require Import DecimalString Permutation.
From stdpp Require Import gmap strings list sorting.

Open Scope Z_scope.

(** ** Strings *)

Abbreviation bytes := (list byte).

(** [strings.Split(s, sep)] for a separator of one byte. *)
Fixpoint strings_Split (s : string) (sep : ascii) : list string :=
  match s with
  | EmptyString => [EmptyString]
  | String c rest =>
      if Ascii.eqb c sep then EmptyString :: strings_Split rest sep
      else match strings_Split rest sep with
           | x :: xs => String c x :: xs
           | [] => [String c EmptyString]
           end
  end.

(** [%d] of [fmt.Sprintf]. *)
Definition itoa (z : Z) : string := NilZero.string_of_int (Z.to_int z).

(** ** Paths *)

Abbreviation path := (list string).

Definition dot : string := ".".
Definition dotdot : string := "..".

(** One element of a path under [filepath.Clean]: an empty element and [.]
    are dropped, [..] removes the element before it (and stays at the root),
    anything else is appended. *)
Definition clean_step (p : path) (elem : string) : path :=
  if String.eqb elem EmptyString then p
  else if String.eqb elem dot then p
  else if String.eqb elem dotdot then removelast p
  else p ++ [elem].

(** [filepath.Join(dir, elems...)]: the elements are joined with [/] and the
    result is cleaned. *)
Definition filepath_Join (dir : path) (elems : list string) : path :=
  fold_left clean_step (concat (map (fun e => strings_Split e "/"%char) elems)) dir.

(** [filepath.Base]: the last element; the base of the root is [/]. *)
Definition filepath_Base (p : path) : string := List.last p "/"%string.

(** [filepath.Dir]. *)
Definition filepath_Dir (p : path) : path := removelast p.

(** The path as the string the program holds. *)
Fixpoint path_string (p : path) : string :=
  match p with
  | [] => EmptyString
  | e :: rest => String "/"%char (e +:+ path_string rest)
  end.

(** ** Errors *)

Inductive errno := ENOENT | EISDIR | ENOTDIR | ENOTEMPTY.

Inductive error : Type :=
| PathError (op : string) (p : path) (e : errno)   (* *os.PathError, *os.LinkError *)
| EscapeError (s : string)                         (* url.EscapeError *)
| ParseError (value : string)                      (* *time.ParseError *)
| PutError                                         (* the error of PutObject *)
| ErrorNew (msg : string)                          (* fmt.Errorf without %w *)
| Errorf (msg : string) (cause : error).           (* fmt.Errorf(msg + ": %w", cause) *)

Inductive result (A : Type) : Type :=
| Ok (a : A)
| Err (e : error).
Arguments Ok {A} a.
Arguments Err {A} e.

(** ** Time *)

(** A [time.Time] in UTC, by its calendar fields. *)
Record Time := mkTime {
  year : Z; month : Z; day : Z;
  hour : Z; minute : Z; second : Z;
  nanosecond : Z
}.

(** ** The world *)

Inductive node :=
| File (data : bytes)
| Dir.

(** What [PutObject] is given. *)
Record PutObjectInput := mkPut {
  Bucket : string;
  Key : string;
  Body : bytes;
  ContentType : string;
  Metadata : list (string * string)
}.

Record World := mkWorld {
  fs : gmap path node;                   (* every file and directory *)
  ticks : nat;                           (* readings of the clock so far *)
  puts : list (PutObjectInput * bool)    (* every PutObject so far, oldest first, with its outcome *)
}.

Definition with_fs (f : gmap path node) (w : World) : World :=
  mkWorld f (ticks w) (puts w).

(** [config.Config], the part on the object store. *)
Record S3Config := mkS3Config {
  UsageBucket : string; UsagePrefix : string;
  ErrorBucket : string; ErrorPrefix : string;
  SpecimenBucket : string; SpecimenPrefix : string
}.

(** What the program reads from its surroundings. *)
Record Env := mkEnv {
  BaseDir : path;                 (* Manager.BaseDir *)
  config_S3 : S3Config;           (* Client.config.S3 *)
  clock : nat -> Time;            (* the n-th reading of time.Now().UTC() *)
  put_ok : nat -> bool;           (* whether the n-th PutObject succeeds *)
  os_Getpid : Z;
  os_Hostname : option string;    (* None: os.Hostname fails *)
  gzip : bytes -> bytes           (* what a gzip.Writer leaves in its file once closed *)
}.

(** ** The monad of the program *)

Definition M (A : Type) : Type := World -> World * result A.

Definition ret {A} (a : A) : M A := fun w => (w, Ok a).

Definition fail {A} (e : error) : M A := fun w => (w, Err e).

Definition bind {A B} (m : M A) (k : A -> M B) : M B :=
  fun w => match m w with
           | (w', Ok a) => k a w'
           | (w', Err e) => (w', Err e)
           end.

Notation "'let!' x ':=' m 'in' k" := (bind m (fun x => k))
  (at level 10, x name, m at level 100, k at level 200).

(** [if err != nil { return fmt.Errorf(msg + ": %w", err) }] *)
Definition wrap {A} (msg : string) (m : M A) : M A :=
  fun w => match m w with
           | (w', Ok a) => (w', Ok a)
           | (w', Err e) => (w', Err (Errorf msg e))
           end.

(** [if err != nil { log...; continue }]: the error is looked at, not returned. *)
Definition try {A} (m : M A) : M (result A) :=
  fun w => match m w with
           | (w', r) => (w', Ok r)
           end.

(** [defer d]: [d] runs when the body returns, whatever it returns. *)
Definition defer {A B} (d : M B) (body : M A) : M A :=
  fun w => match body w with
           | (w', r) => (fst (d w'), r)
           end.

(** ** The operating system *)

Definition is_dir (n : option node) : bool :=
  match n with Some Dir => true | _ => false end.

(** [os.Create]: the file is created or truncated. *)
Definition os_Create (p : path) : M unit := fun w =>
  if is_dir (fs w !! p) then (w, Err (PathError "open" p EISDIR))
  else if is_dir (fs w !! filepath_Dir p)
       then (with_fs (<[p := File []]> (fs w)) w, Ok tt)
       else (w, Err (PathError "open" p ENOENT)).

(** [file.Write] followed by [file.Close], on a file opened by [os.Create]. *)
Definition os_WriteFile (p : path) (data : bytes) : M unit := fun w =>
  (with_fs (<[p := File data]> (fs w)) w, Ok tt).

(** [os.ReadFile], and [os.Open] followed by reading to the end. *)
Definition os_ReadFile (p : path) : M bytes := fun w =>
  match fs w !! p with
  | Some (File data) => (w, Ok data)
  | Some Dir => (w, Err (PathError "read" p EISDIR))
  | None => (w, Err (PathError "open" p ENOENT))
  end.

(** [os.Rename] of a regular file; a file at the new path is replaced.  The
    program renames no directory. *)
Definition os_Rename (oldpath newpath : path) : M unit := fun w =>
  match fs w !! oldpath with
  | Some (File data) =>
      if is_dir (fs w !! newpath) then (w, Err (PathError "rename" oldpath EISDIR))
      else if is_dir (fs w !! filepath_Dir newpath)
           then (with_fs (<[newpath := File data]> (delete oldpath (fs w))) w, Ok tt)
           else (w, Err (PathError "rename" oldpath ENOENT))
  | _ => (w, Err (PathError "rename" oldpath ENOENT))
  end.

(** A name that an entry of a directory can bear: not empty, neither [.] nor
    [..], and without separator. *)
Fixpoint no_slash (s : string) : bool :=
  match s with
  | EmptyString => true
  | String c rest => negb (Ascii.eqb c "/") && no_slash rest
  end.

Definition valid_name (s : string) : bool :=
  negb (String.eqb s EmptyString) && negb (String.eqb s dot)
  && negb (String.eqb s dotdot) && no_slash s.

Definition is_entry (dir : path) (qn : path * node) : Prop :=
  fst qn <> [] /\ filepath_Dir (fst qn) = dir /\ valid_name (filepath_Base (fst qn)) = true.

#[local] Instance is_entry_dec dir qn : Decision (is_entry dir qn) :=
  ltac:(unfold is_entry; apply _).

(** The entries of a directory. *)
Definition children (dir : path) (f : gmap path node) : list (path * node) :=
  filter (is_entry dir) (map_to_list f).

(** [os.Remove]: a file, or a directory that is empty. *)
Definition os_Remove (p : path) : M unit := fun w =>
  match fs w !! p with
  | Some (File _) => (with_fs (delete p (fs w)) w, Ok tt)
  | Some Dir =>
      match children p (fs w) with
      | [] => (with_fs (delete p (fs w)) w, Ok tt)
      | _ => (w, Err (PathError "remove" p ENOTEMPTY))
      end
  | None => (w, Err (PathError "remove" p ENOENT))
  end.

Definition name_le (a b : string * bool) : Prop := String.leb (fst a) (fst b) = true.

#[local] Instance name_le_dec a b : Decision (name_le a b) :=
  ltac:(unfold name_le; apply _).

(** [os.ReadDir]: the entries of the directory, sorted by file name.  An
    entry is its name and whether it is a directory. *)
Definition os_ReadDir (dir : path) : M (list (string * bool)) := fun w =>
  match fs w !! dir with
  | Some Dir =>
      (w, Ok (merge_sort name_le
                (map (fun '(q, n) => (filepath_Base q, is_dir (Some n)))
                     (children dir (fs w)))))
  | Some (File _) => (w, Err (PathError "open" dir ENOTDIR))
  | None => (w, Err (PathError "open" dir ENOENT))
  end.

(** [os.MkdirAll]. *)
Fixpoint os_MkdirAll_from (done rest : path) : M unit :=
  match rest with
  | [] => ret tt
  | e :: rest' => fun w =>
      let d := done ++ [e] in
      match fs w !! d with
      | Some (File _) => (w, Err (PathError "mkdir" d ENOTDIR))
      | Some Dir => os_MkdirAll_from d rest' w
      | None => os_MkdirAll_from d rest' (with_fs (<[d := Dir]> (fs w)) w)
      end
  end.

Definition os_MkdirAll (p : path) : M unit := fun w =>
  os_MkdirAll_from [] p (with_fs (<[[] := Dir]> (fs w)) w).

(** [time.Now().UTC()] *)
Definition time_Now (E : Env) : M Time := fun w =>
  (mkWorld (fs w) (S (ticks w)) (puts w), Ok (clock E (ticks w))).

(** [client.PutObject] *)
Definition PutObject (E : Env) (input : PutObjectInput) : M unit := fun w =>
  let ok := put_ok E (length (puts w)) in
  (mkWorld (fs w) (ticks w) (puts w ++ [(input, ok)]),
   if ok then Ok tt else Err PutError).

(** ** Numbers and text *)

Definition string_take (n : nat) (s : string) : string := String.substring 0 n s.

Definition string_drop (n : nat) (s : string) : string :=
  String.substring n (String.length s - n) s.

Definition is_digit (c : ascii) : bool :=
  (48 <=? Z.of_N (N_of_ascii c)) && (Z.of_N (N_of_ascii c) <=? 57).

Definition digit_char (d : Z) : ascii := ascii_of_N (Z.to_N (48 + d)).

Definition digit_val (c : ascii) : Z := Z.of_N (N_of_ascii c) - 48.

(** The decimal digits of [u], written from the last one backwards into a
    buffer of [width] bytes. *)
Fixpoint digits (width : nat) (u : Z) (acc : string) : string :=
  match width with
  | O => acc
  | S width' => digits width' (u / 10) (String (digit_char (u mod 10)) acc)
  end.

Fixpoint zeros (n : nat) : string :=
  match n with
  | O => EmptyString
  | S n' => String "0"%char (zeros n')
  end.

(** [appendInt] of package time: the number in decimal, padded with zeros on
    the left up to [width]. *)
Definition appendInt (x : Z) (width : nat) : string :=
  let u := Z.abs x in
  let ds := itoa u in
  (if x <? 0 then "-" else EmptyString)
    +:+ zeros (width - String.length ds) +:+ ds.

(** A run of decimal digits as a number; [None] when a byte is no digit or
    the text is empty. *)
Fixpoint atoi_from (acc : Z) (s : string) : option Z :=
  match s with
  | EmptyString => Some acc
  | String c rest =>
      if is_digit c then atoi_from (acc * 10 + digit_val c) rest else None
  end.

Definition atoi (s : string) : option Z :=
  match s with
  | EmptyString => None
  | _ => atoi_from 0 s
  end.

(** ** [net/url]: [QueryEscape] and [QueryUnescape] *)

Definition is_alnum (c : ascii) : bool :=
  let n := Z.of_N (N_of_ascii c) in
  ((97 <=? n) && (n <=? 122)) || ((65 <=? n) && (n <=? 90)) || ((48 <=? n) && (n <=? 57)).

(** [shouldEscape(c, encodeQueryComponent)]: everything but the unreserved
    bytes. *)
Definition shouldEscape (c : ascii) : bool :=
  if is_alnum c then false
  else if Ascii.eqb c "-" || Ascii.eqb c "_" || Ascii.eqb c "." || Ascii.eqb c "~"
       then false
       else true.

Definition upperhex (n : N) : ascii :=
  if (n <? 10)%N then ascii_of_N (48 + n) else ascii_of_N (55 + n).

Fixpoint QueryEscape (s : string) : string :=
  match s with
  | EmptyString => EmptyString
  | String c rest =>
      if shouldEscape c then
        if Ascii.eqb c " " then String "+" (QueryEscape rest)
        else String "%" (String (upperhex (N.shiftr (N_of_ascii c) 4))
                        (String (upperhex (N.land (N_of_ascii c) 15))
                           (QueryEscape rest)))
      else String c (QueryEscape rest)
  end.

Definition ishex (c : ascii) : bool :=
  let n := Z.of_N (N_of_ascii c) in
  ((48 <=? n) && (n <=? 57)) || ((97 <=? n) && (n <=? 102)) || ((65 <=? n) && (n <=? 70)).

Definition unhex (c : ascii) : N :=
  let n := N_of_ascii c in
  if (48 <=? n)%N && (n <=? 57)%N then (n - 48)%N
  else if (97 <=? n)%N && (n <=? 102)%N then (n - 97 + 10)%N
  else if (65 <=? n)%N && (n <=? 70)%N then (n - 65 + 10)%N
  else 0%N.

(** [unescape(s, encodeQueryComponent)].  The first malformed escape is the
    error; it carries at most three bytes of the text from the [%] on. *)
Fixpoint QueryUnescape (s : string) : result string :=
  match s with
  | EmptyString => Ok EmptyString
  | String c rest =>
      if Ascii.eqb c "%" then
        match rest with
        | String a (String b rest') =>
            if ishex a && ishex b then
              match QueryUnescape rest' with
              | Ok t => Ok (String (ascii_of_N (N.lor (N.shiftl (unhex a) 4) (unhex b))) t)
              | Err e => Err e
              end
            else Err (EscapeError (string_take 3 s))
        | _ => Err (EscapeError (string_take 3 s))
        end
      else
        match QueryUnescape rest with
        | Ok t => Ok (String (if Ascii.eqb c "+" then " "%char else c) t)
        | Err e => Err e
        end
  end.

(** ** Package [time] *)

Definition isLeap (y : Z) : bool :=
  (y mod 4 =? 0) && (negb (y mod 100 =? 0) || (y mod 400 =? 0)).

Definition daysIn (m y : Z) : Z :=
  if m =? 2 then (if isLeap y then 29 else 28)
  else if (m =? 4) || (m =? 6) || (m =? 9) || (m =? 11) then 30
  else 31.

(** Days from 1970-01-01 to the given day of the proleptic Gregorian
    calendar. *)
Definition days_from_civil (y m d : Z) : Z :=
  let y' := if m <=? 2 then y - 1 else y in
  let era := y' / 400 in
  let yoe := y' - era * 400 in
  let doy := (153 * ((m + 9) mod 12) + 2) / 5 + d - 1 in
  let doe := yoe * 365 + yoe / 4 - yoe / 100 + doy in
  era * 146097 + doe - 719468.

(** [t.UnixNano()] *)
Definition UnixNano (t : Time) : Z :=
  (((days_from_civil (year t) (month t) (day t) * 24 + hour t) * 60 + minute t) * 60
   + second t) * 1000000000 + nanosecond t.

Fixpoint trim_zeros (s : string) : string :=
  match s with
  | EmptyString => EmptyString
  | String c rest =>
      match trim_zeros rest with
      | EmptyString => if Ascii.eqb c "0" then EmptyString else String c EmptyString
      | t => String c t
      end
  end.

(** The fraction of a second under [.999999]: the first six of the nine
    digits of the nanoseconds, without the zeros at the end, and nothing at
    all (no point either) when no digit is left. *)
Definition formatNano6 (nanosec : Z) : string :=
  match trim_zeros (string_take 6 (digits 9 nanosec EmptyString)) with
  | EmptyString => EmptyString
  | ds => String "." ds
  end.

(** [t.Format("20060102150405.999999")] *)
Definition Format_specimen (t : Time) : string :=
  appendInt (year t) 4 +:+ appendInt (month t) 2 +:+ appendInt (day t) 2
  +:+ appendInt (hour t) 2 +:+ appendInt (minute t) 2 +:+ appendInt (second t) 2
  +:+ formatNano6 (nanosecond t).

(** [getnum] of package time: one or two digits, two when [fixed]. *)
Definition getnum (s : string) (fixed : bool) : option (Z * string) :=
  match s with
  | String a rest =>
      if is_digit a then
        match rest with
        | String b rest' =>
            if is_digit b then Some (digit_val a * 10 + digit_val b, rest')
            else if fixed then None else Some (digit_val a, rest)
        | EmptyString => if fixed then None else Some (digit_val a, rest)
        end
      else None
  | EmptyString => None
  end.

Fixpoint leading_digits (s : string) : string :=
  match s with
  | String c rest => if is_digit c then String c (leading_digits rest) else EmptyString
  | EmptyString => EmptyString
  end.

Definition commaOrPeriod (c : ascii) : bool := Ascii.eqb c "." || Ascii.eqb c ",".

(** The fraction of a second when parsing [.999999]: left out when no
    separator with a digit follows; otherwise every digit that follows is
    taken, nine of them count. *)
Definition parse_fraction (v : string) : option (Z * string) :=
  match v with
  | String c (String d _ as ds) =>
      if commaOrPeriod c && is_digit d then
        let run := leading_digits ds in
        let used := string_take 9 run in
        match atoi used with
        | Some ns => Some (ns * 10 ^ Z.of_nat (9 - String.length used),
                           string_drop (String.length run) ds)
        | None => None
        end
      else Some (0, v)
  | _ => Some (0, v)
  end.

(** [time.Parse("20060102150405.999999", value)] *)
Definition Parse_specimen (value : string) : result Time :=
  let bad := Err (ParseError value) in
  if (String.length value <? 4)%nat then bad else
  match atoi (string_take 4 value) with
  | None => bad
  | Some y =>
  match getnum (string_drop 4 value) true with
  | None => bad
  | Some (mo, v) =>
  if (mo <=? 0) || (12 <? mo) then bad else
  match getnum v true with
  | None => bad
  | Some (d, v) =>
  match getnum v false with
  | None => bad
  | Some (h, v) =>
  if 24 <=? h then bad else
  match getnum v true with
  | None => bad
  | Some (mi, v) =>
  if 60 <=? mi then bad else
  match getnum v true with
  | None => bad
  | Some (s, v) =>
  if 60 <=? s then bad else
  match parse_fraction v with
  | None => bad
  | Some (ns, v) =>
  match v with
  | String _ _ => bad
  | EmptyString =>
      if (d <? 1) || (daysIn mo y <? d) then bad
      else Ok (mkTime y mo d h mi s ns)
  end end end end end end end end.

(** ** [internal/cache]: the cache manager *)

Section Cache.
Context (E : Env).

(** [Manager.Init] *)
Definition Init : M unit :=
  let dirs := [ filepath_Join (BaseDir E) ["usage"];
                filepath_Join (BaseDir E) ["usage"; "aggregation"];
                filepath_Join (BaseDir E) ["usage"; "uploading"];
                filepath_Join (BaseDir E) ["error"];
                filepath_Join (BaseDir E) ["error"; "aggregation"];
                filepath_Join (BaseDir E) ["error"; "uploading"];
                filepath_Join (BaseDir E) ["specimen"];
                filepath_Join (BaseDir E) ["specimen"; "uploading"] ] in
  fold_right (fun dir rest =>
                let! _ := wrap "failed to create directory" (os_MkdirAll dir) in rest)
             (ret tt) dirs.

(** [Manager.generateFilename] *)
Definition generateFilename (user : string) : M string :=
  let! now := time_Now E in
  let timestamp := UnixNano now in
  let pid := os_Getpid E in
  ret (itoa timestamp +:+ "." +:+ itoa pid +:+ "." +:+ user).

(** [Manager.generateSpecimenFilename] *)
Definition generateSpecimenFilename (uri : string) : M string :=
  let! now := time_Now E in
  let timestamp := Format_specimen now in
  let encodedURI := QueryEscape uri in
  ret (timestamp +:+ "." +:+ itoa (os_Getpid E) +:+ "." +:+ encodedURI).

(** [Manager.saveFile] *)
Definition saveFile (p : path) (data : bytes) : M unit :=
  let! _ := wrap "failed to create file" (os_Create p) in
  let! _ := wrap "failed to write file" (os_WriteFile p data) in
  ret tt.

(** [Manager.SaveUsage] *)
Definition SaveUsage (user : string) (data : bytes) : M unit :=
  let! filename := generateFilename user in
  let p := filepath_Join (BaseDir E) ["usage"; filename] in
  saveFile p data.

(** [Manager.SaveError] *)
Definition SaveError (user : string) (data : bytes) : M unit :=
  let! filename := generateFilename user in
  let p := filepath_Join (BaseDir E) ["error"; filename] in
  saveFile p data.

(** [Manager.SaveSpecimen] *)
Definition SaveSpecimen (uri : string) (data : bytes) : M unit :=
  let! filename := generateSpecimenFilename uri in
  let p := filepath_Join (BaseDir E) ["specimen"; filename] in
  saveFile p data.

(** [Manager.getFiles]: the entries of [dir] that are no directories. *)
Definition getFiles (dir : path) : M (list path) :=
  let! entries := wrap "failed to read directory" (os_ReadDir dir) in
  ret (map (fun entry => filepath_Join dir [fst entry])
           (filter (fun entry => snd entry = false) entries)).

Definition GetUsageFiles : M (list path) :=
  getFiles (filepath_Join (BaseDir E) ["usage"]).

Definition GetErrorFiles : M (list path) :=
  getFiles (filepath_Join (BaseDir E) ["error"]).

Definition GetSpecimenFiles : M (list path) :=
  getFiles (filepath_Join (BaseDir E) ["specimen"]).

(** The loop of [Manager.MoveToAggregation]: the first rename that fails
    returns its error. *)
Fixpoint MoveToAggregation_loop (aggregationDir : path) (files : list path) : M unit :=
  match files with
  | [] => ret tt
  | file :: rest =>
      let filename := filepath_Base file in
      let dest := filepath_Join aggregationDir [filename] in
      let! _ := wrap "failed to move file" (os_Rename file dest) in
      MoveToAggregation_loop aggregationDir rest
  end.

(** [Manager.MoveToAggregation] *)
Definition MoveToAggregation (files : list path) (dataType : string) : M unit :=
  let aggregationDir := filepath_Join (BaseDir E) [dataType; "aggregation"] in
  MoveToAggregation_loop aggregationDir files.

(** [Manager.MoveToUploading] *)
Definition MoveToUploading (file : path) (dataType : string) : M path :=
  let uploadingDir := filepath_Join (BaseDir E) [dataType; "uploading"] in
  let filename := filepath_Base file in
  let dest := filepath_Join uploadingDir [filename] in
  let! _ := wrap "failed to move file" (os_Rename file dest) in
  ret dest.

(** [Manager.RemoveFile] *)
Definition RemoveFile (p : path) : M unit := os_Remove p.

Definition GetAggregationFiles (dataType : string) : M (list path) :=
  getFiles (filepath_Join (BaseDir E) [dataType; "aggregation"]).

Definition GetUploadingFiles (dataType : string) : M (list path) :=
  getFiles (filepath_Join (BaseDir E) [dataType; "uploading"]).

(** [Manager.ReadFile] and [Manager.OpenFile] with the read that follows. *)
Definition ReadFile (p : path) : M bytes := os_ReadFile p.

(** The loop of [Manager.GetSpecimenInfo] over the bytes of the name: the
    offsets of its first three dots. *)
Fixpoint find_dots (base : string) (i : nat) (dots : list nat) : list nat :=
  match base with
  | EmptyString => dots
  | String ch rest =>
      if Ascii.eqb ch "." then
        let dots' := dots ++ [i] in
        if (length dots' =? 3)%nat then dots'
        else find_dots rest (S i) dots'
      else find_dots rest (S i) dots
  end.

(** [Manager.GetSpecimenInfo] *)
Definition GetSpecimenInfo (filename : path) : result (string * Time) :=
  let base := filepath_Base filename in
  let dots := find_dots base 0 [] in
  match dots with
  | [_; d1; d2] =>
      let timestampStr := string_take d1 base in
      let encodedURI := string_drop (d2 + 1) base in
      if (String.length timestampStr =? 0)%nat || (String.length encodedURI =? 0)%nat
      then Err (ErrorNew "invalid specimen filename format")
      else
        match Parse_specimen timestampStr with
        | Err e => Err (Errorf "failed to parse timestamp" e)
        | Ok timestamp =>
            match QueryUnescape encodedURI with
            | Err e => Err (Errorf "failed to decode URI" e)
            | Ok uri => Ok (uri, timestamp)
            end
        end
  | _ => Err (ErrorNew "invalid specimen filename format")
  end.

End Cache.

(** ** [internal/s3/client.go] *)

Definition newline : byte := x0a.

Fixpoint map_string (f : ascii -> ascii) (s : string) : string :=
  match s with
  | EmptyString => EmptyString
  | String c rest => String (f c) (map_string f rest)
  end.

(** [strings.ToLower], on the letters of ASCII. *)
Definition to_lower (c : ascii) : ascii :=
  let n := N_of_ascii c in
  if (65 <=? n)%N && (n <=? 90)%N then ascii_of_N (n + 32) else c.

Definition strings_ToLower (s : string) : string := map_string to_lower s.

Definition strings_Contains (s substr : string) : bool :=
  match String.index 0 substr s with
  | Some _ => true
  | None => false
  end.

(** [filepath.Ext] of a name without separator: the suffix from its last dot
    on, empty when it has none. *)
Fixpoint filepath_Ext (name : string) : string :=
  match name with
  | EmptyString => EmptyString
  | String c rest =>
      match filepath_Ext rest with
      | EmptyString => if Ascii.eqb c "." then name else EmptyString
      | ext => ext
      end
  end.

(** [strings.TrimSuffix(s, suffix)] for a suffix that [filepath.Ext] gave. *)
Definition strings_TrimSuffix (s suffix : string) : string :=
  string_take (String.length s - String.length suffix) s.

(** [extractExtension] *)
Definition extractExtension (uri : string) : string :=
  let parts := strings_Split uri "/" in
  let filename := List.last parts EmptyString in
  let ext := filepath_Ext filename in
  if String.eqb ext EmptyString
  then (if strings_Contains (strings_ToLower uri) "screenshot" then ".png" else ext)
  else ext.

(** The replacer of [cleanURIForFilename]. *)
Definition replace_problematic (c : ascii) : ascii :=
  if Ascii.eqb c " " || Ascii.eqb c ":" || Ascii.eqb c "?" || Ascii.eqb c "&"
     || Ascii.eqb c "=" || Ascii.eqb c "%" || Ascii.eqb c "#"
  then "_"%char else c.

(** [cleanURIForFilename] *)
Definition cleanURIForFilename (uri : string) : string :=
  let parts := strings_Split uri "/" in
  let filename := List.last parts EmptyString in
  let ext := filepath_Ext filename in
  let filename := if String.eqb ext EmptyString then filename
                  else strings_TrimSuffix filename ext in
  map_string replace_problematic filename.

(** [detectContentType] *)
Definition detectContentType (ext : string) : string :=
  let e := strings_ToLower ext in
  if String.eqb e ".png" then "image/png"
  else if String.eqb e ".jpg" || String.eqb e ".jpeg" then "image/jpeg"
  else if String.eqb e ".gif" then "image/gif"
  else if String.eqb e ".json" then "application/json"
  else if String.eqb e ".log" || String.eqb e ".txt" then "text/plain"
  else if String.eqb e ".html" then "text/html"
  else if String.eqb e ".xml" then "application/xml"
  else "application/octet-stream".

Section Client.
Context (E : Env).

(** [getHostname] *)
Definition getHostname : string :=
  match os_Hostname E with
  | None => "unknown"
  | Some hostname =>
      map_string (fun c => if Ascii.eqb c "." then "-"%char else c) hostname
  end.

(** [Client.uploadSpecimenFile] *)
Definition uploadSpecimenFile (filePath : path) (user uri : string) : M unit :=
  let! data := wrap "failed to open file" (ReadFile filePath) in
  let ext := extractExtension uri in
  match GetSpecimenInfo filePath with
  | Err e => fail (Errorf "failed to get specimen info" e)
  | Ok (_, timestamp) =>
      let cleanURI := cleanURIForFilename uri in
      let key := SpecimenPrefix (config_S3 E) +:+ user +:+ "/"
                 +:+ appendInt (year timestamp) 4 +:+ "/"
                 +:+ appendInt (month timestamp) 2 +:+ "/"
                 +:+ appendInt (day timestamp) 2 +:+ "/"
                 +:+ cleanURI +:+ "." +:+ itoa (UnixNano timestamp) +:+ ext in
      wrap "failed to upload specimen to S3"
        (PutObject E (mkPut (SpecimenBucket (config_S3 E)) key data
                            (detectContentType ext) [("uri"%string, uri)]))
  end.

(** The loop of [Client.UploadSpecimen]: the first file whose name decodes
    to the URI; a name that does not decode is passed over. *)
Fixpoint find_targetFile (uri : string) (files : list path) : option path :=
  match files with
  | [] => None
  | file :: rest =>
      match GetSpecimenInfo file with
      | Err _ => find_targetFile uri rest
      | Ok (fileURI, _) =>
          if String.eqb fileURI uri then Some file else find_targetFile uri rest
      end
  end.

(** [Client.UploadSpecimen], with the cache manager set as
    [worker.NewManager] sets it. *)
Definition UploadSpecimen (user uri : string) : M unit :=
  let! files := wrap "failed to get specimen files" (GetSpecimenFiles E) in
  match find_targetFile uri files with
  | None => fail (ErrorNew "specimen file not found for URI")
  | Some targetFile =>
      let! uploadingPath :=
        wrap "failed to move file to uploading" (MoveToUploading E targetFile "specimen") in
      let! _ := uploadSpecimenFile uploadingPath user uri in
      let! _ := try (RemoveFile uploadingPath) in
      ret tt
  end.

(** [Client.UploadAggregatedFile] *)
Definition UploadAggregatedFile (filePath : path) (dataType : string) : M unit :=
  let! data := wrap "failed to read file" (ReadFile filePath) in
  let! bp :=
    (if String.eqb dataType "usage"
     then ret (UsageBucket (config_S3 E), UsagePrefix (config_S3 E))
     else if String.eqb dataType "error"
     then ret (ErrorBucket (config_S3 E), ErrorPrefix (config_S3 E))
     else fail (ErrorNew "unknown data type")) in
  let! now := time_Now E in
  let hostname := getHostname in
  let key := snd bp +:+ appendInt (year now) 4 +:+ "/" +:+ appendInt (month now) 2 +:+ "/"
             +:+ appendInt (day now) 2 +:+ "/" +:+ appendInt (hour now) 2 +:+ "/"
             +:+ appendInt (year now) 4 +:+ appendInt (month now) 2
             +:+ appendInt (day now) 2 +:+ appendInt (hour now) 2
             +:+ "." +:+ hostname +:+ ".jsonl.gz" in
  wrap "failed to upload to S3"
    (PutObject E (mkPut (fst bp) key data "application/gzip" [])).

End Client.

(** ** [internal/s3/aggregator.go] *)

Definition path_le (p q : path) : Prop :=
  String.leb (path_string p) (path_string q) = true.

#[local] Instance path_le_dec p q : Decision (path_le p q) :=
  ltac:(unfold path_le; apply _).

(** [sort.Strings] on paths. *)
Definition sort_Strings (l : list path) : list path := merge_sort path_le l.

Section Aggregator.
Context (E : Env).

(** [Aggregator.getFilesToAggregate] *)
Definition getFilesToAggregate (dataType : string) : M (list path) :=
  if String.eqb dataType "usage" then GetUsageFiles E
  else if String.eqb dataType "error" then GetErrorFiles E
  else fail (ErrorNew "unknown data type").

(** [Aggregator.createTempFile] *)
Definition createTempFile (dataType : string) : M path :=
  let tempDir := filepath_Join (BaseDir E) [dataType; "aggregation"] in
  let! now := time_Now E in
  let tempFile := filepath_Join tempDir ["aggregate_" +:+ itoa (UnixNano now) +:+ ".gz"] in
  let! _ := os_Create tempFile in
  ret tempFile.

(** [Aggregator.appendFile]: [gz] is what the gzip writer was given so far. *)
Definition appendFile (gz : bytes) (filePath : path) : M bytes :=
  let! content := os_ReadFile filePath in
  ret (gz ++ content ++ [newline]).

(** The loop of [Aggregator.aggregateFiles]; what the writer was given comes
    back on an error too, for the writer is closed then all the same. *)
Fixpoint aggregateFiles_loop (files : list path) (gz : bytes) : M (bytes * result unit) :=
  match files with
  | [] => ret (gz, Ok tt)
  | filePath :: rest =>
      let! r := try (appendFile gz filePath) in
      match r with
      | Ok gz' => aggregateFiles_loop rest gz'
      | Err e => ret (gz, Err (Errorf "failed to append file" e))
      end
  end.

(** [Aggregator.aggregateFiles]; the deferred [Close] of the writer and of
    the file leave the compressed stream in the file. *)
Definition aggregateFiles (files : list path) (outputPath : path) : M unit :=
  let! _ := wrap "failed to create output file" (os_Create outputPath) in
  let! gr := aggregateFiles_loop files [] in
  let! _ := os_WriteFile outputPath (gzip E (fst gr)) in
  match snd gr with
  | Ok _ => ret tt
  | Err e => fail e
  end.

(** The loop over the aggregated files at the end of [AggregateAndUpload]. *)
Fixpoint remove_aggregated (files : list path) : M unit :=
  match files with
  | [] => ret tt
  | file :: rest =>
      let! _ := try (RemoveFile file) in
      remove_aggregated rest
  end.

(** What [AggregateAndUpload] does once the temporary file is there, under
    the deferred [os.Remove] of that file. *)
Definition aggregate_into (dataType : string) (aggregationFiles : list path)
    (tempFile : path) : M unit :=
  let! _ := wrap "failed to aggregate files" (aggregateFiles aggregationFiles tempFile) in
  let! uploadingPath :=
    wrap "failed to move to uploading" (MoveToUploading E tempFile dataType) in
  let! _ := wrap "failed to upload to S3" (UploadAggregatedFile E uploadingPath dataType) in
  let! _ := try (RemoveFile uploadingPath) in
  let! _ := remove_aggregated aggregationFiles in
  ret tt.

(** [Aggregator.AggregateAndUpload] *)
Definition AggregateAndUpload (dataType : string) : M unit :=
  let! files := wrap "failed to get files" (getFilesToAggregate dataType) in
  if (length files =? 0)%nat then ret tt
  else
    let! _ := wrap "failed to move files to aggregation" (MoveToAggregation E files dataType) in
    let! aggregationFiles :=
      wrap "failed to get aggregation files" (GetAggregationFiles E dataType) in
    let aggregationFiles := sort_Strings aggregationFiles in
    let! tempFile := wrap "failed to create temp file" (createTempFile dataType) in
    defer (os_Remove tempFile) (aggregate_into dataType aggregationFiles tempFile).

(** The loop of [ProcessRemaining] over the files in the uploading
    directory. *)
Fixpoint upload_remaining (uploadingFiles : list path) (dataType : string) : M unit :=
  match uploadingFiles with
  | [] => ret tt
  | file :: rest =>
      let! r := try (UploadAggregatedFile E file dataType) in
      match r with
      | Err _ => upload_remaining rest dataType
      | Ok _ =>
          let! _ := try (RemoveFile file) in
          upload_remaining rest dataType
      end
  end.

(** One turn of the loop of [ProcessRemaining] over the data types. *)
Definition process_dataType (dataType : string) : M unit :=
  let! r := try (GetUploadingFiles E dataType) in
  match r with
  | Err _ => ret tt
  | Ok uploadingFiles =>
      let! _ := upload_remaining uploadingFiles dataType in
      let! _ := try (AggregateAndUpload dataType) in
      ret tt
  end.

(** The loop of [ProcessRemaining] over the specimen files. *)
Fixpoint upload_specimens (specimenFiles : list path) : M unit :=
  match specimenFiles with
  | [] => ret tt
  | file :: rest =>
      match GetSpecimenInfo file with
      | Err _ => upload_specimens rest
      | Ok (uri, _) =>
          let! _ := try (UploadSpecimen E "unknown" uri) in
          upload_specimens rest
      end
  end.

(** [Aggregator.ProcessRemaining] *)
Definition ProcessRemaining : M unit :=
  let! _ := process_dataType "usage" in
  let! _ := process_dataType "error" in
  let! specimenFiles := GetSpecimenFiles E in
  let! _ := upload_specimens specimenFiles in
  ret tt.

End Aggregator.

(** ** Worlds to run the program on *)

Module Example.

Definition cfg : S3Config :=
  mkS3Config "usage-bucket" "u/" "error-bucket" "e/" "specimen-bucket" "s/".

(** 2024-01-01 12:30:45 UTC, on the second. *)
Definition noon : Time := mkTime 2024 1 1 12 30 45 0.

(** The same second, 123456 microseconds later. *)
Definition after_noon : Time := mkTime 2024 1 1 12 30 45 123456000.

Definition env (now : nat -> Time) (ok : nat -> bool) (gz : bytes -> bytes) : Env :=
  mkEnv ["var"; "cache"] cfg now ok 12345 (Some "gw.example") gz.

Definition succeed : nat -> bool := fun _ => true.
Definition refuse : nat -> bool := fun _ => false.

(** An environment whose clock stands still and whose object store takes
    every object. *)
Definition calm : Env := env (fun _ => noon) succeed (fun b => b).

(** The cache directory as [Init] makes it. *)
Definition fresh : World := fst (Init calm (mkWorld ∅ 0 [])).

Definition dquote : string := String (ascii_of_nat 34) EmptyString.

(** The payload of the startup event: an object with the one field
    [event], whose value is [startup]. *)
Definition startup : bytes :=
  list_byte_of_string
    ("{" +:+ dquote +:+ "event" +:+ dquote +:+ ":" +:+ dquote +:+ "startup" +:+ dquote +:+ "}").

Definition usage_dir : path := ["var"; "cache"; "usage"].
Definition aggregation_dir : path := ["var"; "cache"; "usage"; "aggregation"].
Definition uploading_dir : path := ["var"; "cache"; "usage"; "uploading"].
Definition specimen_dir : path := ["var"; "cache"; "specimen"].

(** The name [generateFilename] gives at [noon]. *)
Definition name_of (user : string) : string :=
  "1704112245000000000.12345." +:+ user.

Definition alice : path := usage_dir ++ [name_of "alice"].
Definition bob : path := usage_dir ++ [name_of "bob"].
Definition carol : path := usage_dir ++ [name_of "carol"].

(** Two records admitted, of alice and of carol; none of bob. *)
Definition two_records : World :=
  fst (SaveUsage calm "carol" [x63] (fst (SaveUsage calm "alice" [x61] fresh))).

(** One record of alice. *)
Definition one_record (data : bytes) : World :=
  fst (SaveUsage calm "alice" data fresh).

End Example.

(** ** Admission, as the routes of the API server call it *)

Inductive Kind := Usage | ErrorReport | Specimen.

Definition kind_dir (k : Kind) : string :=
  match k with
  | Usage => "usage"
  | ErrorReport => "error"
  | Specimen => "specimen"
  end.

(** The name generated for a record: from the owner for usage and error
    reports, from the URI for a specimen. *)
Definition generate (E : Env) (k : Kind) (owner_or_uri : string) : M string :=
  match k with
  | Specimen => generateSpecimenFilename E owner_or_uri
  | _ => generateFilename E owner_or_uri
  end.

(** [handleUsage], [handleError] and [handleSpecimen] call [SaveUsage],
    [SaveError] and [SaveSpecimen]. *)
Definition Admit (E : Env) (k : Kind) (owner_or_uri : string) (data : bytes) : M unit :=
  match k with
  | Usage => SaveUsage E owner_or_uri data
  | ErrorReport => SaveError E owner_or_uri data
  | Specimen => SaveSpecimen E owner_or_uri data
  end.

(** The batched kinds. *)
Definition batched (dataType : string) : Prop :=
  dataType = "usage"%string \/ dataType = "error"%string.

(** The name [createTempFile] gives the artifact of a cycle that starts in
    the world [w]: the cycle reads the clock there for the first time. *)
Definition temp_name (E : Env) (w : World) : string :=
  "aggregate_" +:+ itoa (UnixNano (clock E (ticks w))) +:+ ".gz".

(** The bytes of the regular file at a path; none when there is no such
    file. *)
Definition content (w : World) (f : path) : bytes :=
  match fs w !! f with
  | Some (File data) => data
  | _ => []
  end.

(** What the gzip writer is given for a list of file contents, as
    [appendFile] writes it: each content, then a newline. *)
Definition lines (contents : list bytes) : bytes :=
  concat (map (fun c => c ++ [newline]) contents).

Module Scenario.
Import Example.

(** A record of alice whose payload ends in a newline. *)
Definition with_newline : bytes := startup ++ [newline].

Definition temp : path := aggregation_dir ++ ["aggregate_1.gz"].

(** A cycle interrupted after the promotion: the record of alice is in the
    aggregation directory, every other directory is empty. *)
Definition interrupted : World :=
  fst (MoveToAggregation calm [alice] "usage" (one_record startup)).

Definition promoted_alice : path := aggregation_dir ++ [name_of "alice"].

(** An object store that refuses the first object and takes the others; a
    clock that is 123456 microseconds after [noon]. *)
Definition flaky : Env :=
  env (fun _ => after_noon) (fun n => negb (Nat.eqb n 0)) (fun b => b).

Definition test_png : string := "http://example.com/test.png".

(** The name [generateSpecimenFilename] gives [test_png] at [after_noon]. *)
Definition stuck_name : string :=
  "20240101123045.123456.12345.http%3A%2F%2Fexample.com%2Ftest.png".

(** The fast path of a specimen whose upload is refused: the specimen is
    admitted, [UploadSpecimen] moves it to the uploading directory and
    fails. *)
Definition after_failed_fast_path : World :=
  fst (UploadSpecimen flaky "alice" test_png
         (fst (SaveSpecimen flaky test_png [x61] fresh))).

End Scenario.

(** The error [AggregateAndUpload] returns when [PutObject] fails. *)
Definition upload_failed : error :=
  Errorf "failed to upload to S3" (Errorf "failed to upload to S3" PutError).

(** The world a cycle aggregates: the one the promotion of the incoming
    files leaves. *)
Definition promoted (E : Env) (dataType : string) (w : World) : World :=
  match getFilesToAggregate E dataType w with
  | (w0, Ok files) => fst (MoveToAggregation E files dataType w0)
  | (w0, Err _) => w0
  end.

(** The world in which [ProcessRemaining] starts its turn for a data type:
    the turn of usage comes first, the turn of error after it. *)
Definition before_turn (E : Env) (dataType : string) (w : World) : World :=
  if String.eqb dataType "usage" then w
  else fst (process_dataType E "usage" w).

(** A path below [d] leaves the rest of the store alone. *)
Definition outside (d : path) (w w' : World) : Prop :=
  forall p, ~ d `prefix_of` p -> fs w' !! p = fs w !! p.

(** A file of a directory below [d], with a name an entry can bear. *)
Definition entry_under (d : path) (f : path) : Prop :=
  exists dir n, f = dir ++ [n] /\ valid_name n = true /\ d `prefix_of` dir.

(** A computation keeps the relation [R] between the world it gets and the
    world it leaves, and its value, when it has one, satisfies [Q]. *)
Definition spec {A} (R : World -> World -> Prop) (Q : A -> Prop) (m : M A) : Prop :=
  forall w, R w (fst (m w)) /\ forall a, snd (m w) = Ok a -> Q a.

(** The log of the object store only grows. *)
Definition grows (w w' : World) : Prop := puts w `prefix_of` puts w'.

(** ** Times that [time.Now] can give *)

Definition valid_time (t : Time) : Prop :=
  0 <= year t <= 9999 /\ 1 <= month t <= 12 /\ 1 <= day t <= daysIn (month t) (year t)
  /\ 0 <= hour t < 24 /\ 0 <= minute t < 60 /\ 0 <= second t < 60
  /\ 0 <= nanosecond t < 1000000000.

(** The time to the microsecond. *)
Definition truncate_micro (t : Time) : Time :=
  mkTime (year t) (month t) (day t) (hour t) (minute t) (second t)
         (nanosecond t / 1000 * 1000).

Definition two_digits (x : Z) : string :=
  String (digit_char (x / 10)) (String (digit_char (x mod 10)) EmptyString).

Definition four_digits (x : Z) : string :=
  String (digit_char (x / 1000))
    (String (digit_char (x / 100 mod 10)) (two_digits (x mod 100))).

Fixpoint all_digits (s : string) : bool :=
  match s with
  | EmptyString => true
  | String c rest => is_digit c && all_digits rest
  end.

(** The number a run of digits stands for. *)
Fixpoint dval (s : string) : Z :=
  match s with
  | EmptyString => 0
  | String c rest => digit_val c * 10 ^ Z.of_nat (String.length rest) + dval rest
  end.

Fixpoint no_dot (s : string) : bool :=
  match s with
  | EmptyString => true
  | String c rest => negb (Ascii.eqb c ".") && no_dot rest
  end.

(** * The rest of the program

    The configuration ([internal/config]), the routes of the API server
    ([internal/api]), the shutdown manager ([internal/shutdown]) and the
    aggregation worker ([internal/worker]), over the same world. *)

From Stdlib Require DecimalZ DecimalPos.

(** ** [internal/config] *)

Record AWSConfig := mkAWSConfig {
  Region : string;
  AccessKeyID : string;
  SecretAccessKey : string;
  Endpoint : string
}.

(** A [time.Duration] is a number of nanoseconds. *)
Record AggregationConfig := mkAggregationConfig {
  UsageInterval : Z;
  ErrorInterval : Z
}.

Record Config := mkConfig {
  CacheDir : string;
  AWS : AWSConfig;
  S3 : S3Config;
  Aggregation : AggregationConfig
}.

Definition time_Minute : Z := 60 * 1000000000.

(** [Config.SetDefaults]: the four assignments, one after the other. *)
Definition SetDefaults (c : Config) : Config :=
  let c := if String.eqb (CacheDir c) EmptyString
           then mkConfig "/var/lib/lightfile6-insights-gateway" (AWS c) (S3 c) (Aggregation c)
           else c in
  let c := if String.eqb (Region (AWS c)) EmptyString
           then mkConfig (CacheDir c)
                  (mkAWSConfig "ap-northeast-1" (AccessKeyID (AWS c))
                     (SecretAccessKey (AWS c)) (Endpoint (AWS c)))
                  (S3 c) (Aggregation c)
           else c in
  let c := if UsageInterval (Aggregation c) =? 0
           then mkConfig (CacheDir c) (AWS c) (S3 c)
                  (mkAggregationConfig (10 * time_Minute) (ErrorInterval (Aggregation c)))
           else c in
  let c := if ErrorInterval (Aggregation c) =? 0
           then mkConfig (CacheDir c) (AWS c) (S3 c)
                  (mkAggregationConfig (UsageInterval (Aggregation c)) (10 * time_Minute))
           else c in
  c.

Definition ErrUsageBucketRequired : error := ErrorNew "usage bucket is required".
Definition ErrErrorBucketRequired : error := ErrorNew "error bucket is required".
Definition ErrSpecimenBucketRequired : error := ErrorNew "specimen bucket is required".

(** [Config.Validate] *)
Definition Validate (c : Config) : result unit :=
  if String.eqb (UsageBucket (S3 c)) EmptyString then Err ErrUsageBucketRequired
  else if String.eqb (ErrorBucket (S3 c)) EmptyString then Err ErrErrorBucketRequired
  else if String.eqb (SpecimenBucket (S3 c)) EmptyString then Err ErrSpecimenBucketRequired
  else Ok tt.

(** ** [internal/shutdown] *)

(** The fields of [GracefulShutdown] but the mutex; of the channel, whether
    it is closed. *)
Record GracefulShutdown := mkGracefulShutdown {
  gs_done : bool;
  doneCh_closed : bool
}.

Definition NewGracefulShutdown : GracefulShutdown := mkGracefulShutdown false false.

(** [GracefulShutdown.Shutdown]; [cleanup] is [None] for a nil function.
    The error of the cleanup is logged.  To close a channel that is closed
    panics: the result is [None] then. *)
Definition Shutdown (cleanup : option (M unit)) (gs : GracefulShutdown) (w : World)
    : option (GracefulShutdown * World) :=
  if gs_done gs then Some (gs, w)
  else
    let gs := mkGracefulShutdown true (doneCh_closed gs) in
    let w := match cleanup with
             | Some f => fst (f w)
             | None => w
             end in
    if doneCh_closed gs then None
    else Some (mkGracefulShutdown (gs_done gs) true, w).

(** Calls of [Shutdown] one after the other, each with its cleanup. *)
Fixpoint Shutdown_calls (cleanups : list (option (M unit))) (gs : GracefulShutdown)
    (w : World) : option (GracefulShutdown * World) :=
  match cleanups with
  | [] => Some (gs, w)
  | cleanup :: rest =>
      match Shutdown cleanup gs w with
      | Some (gs', w') => Shutdown_calls rest gs' w'
      | None => None
      end
  end.

(** ** [internal/api] *)

(** Of a request, what the handlers read. *)
Record Request := mkRequest {
  USER_TOKEN : string;          (* Header.Get("USER_TOKEN"): empty when the header is absent *)
  QueryParam_uri : string;      (* QueryParam("uri"): empty when the parameter is absent *)
  Request_Body : result bytes   (* what io.ReadAll gives for the body *)
}.

(** An [echo.Context]: the request, and the value stored under the key
    [user], if any. *)
Record Context := mkContext {
  ctx_Request : Request;
  ctx_user : option string
}.

(** What a handler answers: a response without body, a JSON response, an
    [echo.HTTPError], or a panic (of a type assertion). *)
Inductive Response :=
| NoContent (code : Z)
| JSON (code : Z) (body : list (string * string))
| HTTPError (code : Z) (message : string)
| Panic.

Definition StatusOK : Z := 200.
Definition StatusNoContent : Z := 204.
Definition StatusBadRequest : Z := 400.
Definition StatusUnauthorized : Z := 401.
Definition StatusInternalServerError : Z := 500.

(** A handler leaves its response and the goroutines it has started, each
    an upload of a specimen for a user and a URI. *)
Record Outcome := mkOutcome {
  response : Response;
  started : list (string * string)
}.

Definition HandlerFunc : Type := Context -> World -> World * Outcome.

(** [readRequestBody] *)
Definition readRequestBody (c : Context) : result bytes := Request_Body (ctx_Request c).

(** [AuthMiddleware] *)
Definition AuthMiddleware (next : HandlerFunc) : HandlerFunc := fun c w =>
  let token := USER_TOKEN (ctx_Request c) in
  if String.eqb token EmptyString
  then (w, mkOutcome (HTTPError StatusUnauthorized "USER_TOKEN header is required") [])
  else next (mkContext (ctx_Request c) (Some token)) w.

Section Server.
Context (E : Env).

(** [Server.handleHealth] *)
Definition handleHealth : HandlerFunc := fun c w =>
  (w, mkOutcome (JSON StatusOK [("status"%string, "healthy"%string)]) []).

(** [Server.handleUsage] *)
Definition handleUsage : HandlerFunc := fun c w =>
  match ctx_user c with
  | None => (w, mkOutcome Panic [])
  | Some user =>
      match readRequestBody c with
      | Err _ => (w, mkOutcome (HTTPError StatusBadRequest "Invalid request body") [])
      | Ok data =>
          match SaveUsage E user data w with
          | (w', Err _) =>
              (w', mkOutcome (HTTPError StatusInternalServerError "Failed to save data") [])
          | (w', Ok _) => (w', mkOutcome (NoContent StatusNoContent) [])
          end
      end
  end.

(** [Server.handleError] *)
Definition handleError : HandlerFunc := fun c w =>
  match ctx_user c with
  | None => (w, mkOutcome Panic [])
  | Some user =>
      match readRequestBody c with
      | Err _ => (w, mkOutcome (HTTPError StatusBadRequest "Invalid request body") [])
      | Ok data =>
          match SaveError E user data w with
          | (w', Err _) =>
              (w', mkOutcome (HTTPError StatusInternalServerError "Failed to save data") [])
          | (w', Ok _) => (w', mkOutcome (NoContent StatusNoContent) [])
          end
      end
  end.

(** [Server.handleSpecimen] *)
Definition handleSpecimen : HandlerFunc := fun c w =>
  match ctx_user c with
  | None => (w, mkOutcome Panic [])
  | Some user =>
      let uri := QueryParam_uri (ctx_Request c) in
      if String.eqb uri EmptyString
      then (w, mkOutcome (HTTPError StatusBadRequest "uri parameter is required") [])
      else
        match readRequestBody c with
        | Err _ => (w, mkOutcome (HTTPError StatusBadRequest "Invalid request body") [])
        | Ok data =>
            match SaveSpecimen E uri data w with
            | (w', Err _) =>
                (w', mkOutcome (HTTPError StatusInternalServerError "Failed to save data") [])
            | (w', Ok _) => (w', mkOutcome (NoContent StatusNoContent) [(user, uri)])
            end
        end
  end.

(** [Server.uploadSpecimen], the body of the goroutine; [s3Client] says
    whether the server has a client. *)
Definition uploadSpecimen (s3Client : bool) (user uri : string) (w : World) : World :=
  if negb s3Client then w
  else fst (UploadSpecimen E user uri w).

(** The routes of [Server.setupRoutes] that take records, each behind
    [AuthMiddleware]. *)
Definition PUT (k : Kind) : HandlerFunc :=
  AuthMiddleware match k with
                 | Usage => handleUsage
                 | ErrorReport => handleError
                 | Specimen => handleSpecimen
                 end.

End Server.

(** What names the record of a request: the token for a report, the URI
    for a specimen. *)
Definition owner_or_uri (k : Kind) (req : Request) : string :=
  match k with
  | Specimen => QueryParam_uri req
  | _ => USER_TOKEN req
  end.

(** ** [internal/worker] *)

(** What wakes the [select] of the worker: the context is done, or the
    ticker has fired. *)
Inductive Wakeup := ctx_Done | ticker_C.

(** [Manager.runAggregationWorker], over the wake-ups it has seen: the
    world it has left by then.  The error of a cycle is logged. *)
Fixpoint runAggregationWorker (E : Env) (dataType : string) (wakeups : list Wakeup)
    (w : World) : World :=
  match wakeups with
  | [] => w
  | ctx_Done :: _ => w
  | ticker_C :: rest =>
      runAggregationWorker E dataType rest (fst (AggregateAndUpload E dataType w))
  end.

(** ** Names *)

(** The dots of a name. *)
Fixpoint count_dots (s : string) : nat :=
  match s with
  | EmptyString => O
  | String c rest => ((if Ascii.eqb c "." then 1 else 0) + count_dots rest)%nat
  end.

(** Every byte of a text satisfies [P]. *)
Fixpoint all_chars (P : ascii -> bool) (s : string) : bool :=
  match s with
  | EmptyString => true
  | String c rest => P c && all_chars P rest
  end.

(** The bytes the replacer of [cleanURIForFilename] replaces. *)
Definition is_problematic (c : ascii) : bool :=
  Ascii.eqb c " " || Ascii.eqb c ":" || Ascii.eqb c "?" || Ascii.eqb c "&"
  || Ascii.eqb c "=" || Ascii.eqb c "%" || Ascii.eqb c "#".

(** The last element of a URI, as [extractExtension] and
    [cleanURIForFilename] take it. *)
Definition last_element (uri : string) : string :=
  List.last (strings_Split uri "/") EmptyString.

(** The bucket of a batched kind. *)
Definition bucket_of (E : Env) (dataType : string) : string :=
  if String.eqb dataType "usage" then UsageBucket (config_S3 E)
  else ErrorBucket (config_S3 E).

(** ** The directories of the cache *)

(** The directories [Manager.Init] makes, in its order. *)
Definition stage_dirs (E : Env) : list path :=
  [ BaseDir E ++ ["usage"%string];
    BaseDir E ++ ["usage"%string; "aggregation"%string];
    BaseDir E ++ ["usage"%string; "uploading"%string];
    BaseDir E ++ ["error"%string];
    BaseDir E ++ ["error"%string; "aggregation"%string];
    BaseDir E ++ ["error"%string; "uploading"%string];
    BaseDir E ++ ["specimen"%string];
    BaseDir E ++ ["specimen"%string; "uploading"%string] ].

(** The loop of [Manager.Init] over a list of directories. *)
Definition mkdirs (dirs : list path) : M unit :=
  fold_right (fun dir rest =>
                let! _ := wrap "failed to create directory" (os_MkdirAll dir) in rest)
             (ret tt) dirs.

(** A world keeps what another holds: the log and the clock are the same,
    every entry below the root is still there, and what is new is a
    directory. *)
Definition keeps (w w' : World) : Prop :=
  puts w' = puts w /\ ticks w' = ticks w
  /\ (forall p n, p <> [] -> fs w !! p = Some n -> fs w' !! p = Some n)
  /\ (forall p, fs w' !! p = fs w !! p \/ fs w' !! p = Some Dir).

(** * Properties *)

(** ** The monad *)

Lemma bind_Ok {A B} (m : M A) (k : A -> M B) w w' a :
  m w = (w', Ok a) -> bind m k w = k a w'.
Proof. intros H. unfold bind. rewrite H. reflexivity. Qed.

Lemma bind_Err {A B} (m : M A) (k : A -> M B) w w' e :
  m w = (w', Err e) -> bind m k w = (w', Err e).
Proof. intros H. unfold bind. rewrite H. reflexivity. Qed.

Lemma wrap_Ok {A} msg (m : M A) w w' a :
  m w = (w', Ok a) -> wrap msg m w = (w', Ok a).
Proof. intros H. unfold wrap. rewrite H. reflexivity. Qed.

Lemma wrap_Err {A} msg (m : M A) w w' e :
  m w = (w', Err e) -> wrap msg m w = (w', Err (Errorf msg e)).
Proof. intros H. unfold wrap. rewrite H. reflexivity. Qed.

Lemma run_pair {A} (m : M A) (w : World) (r : result A) :
  snd (m w) = r -> m w = (fst (m w), r).
Proof. destruct (m w) as [w' r']. simpl. intros ->. reflexivity. Qed.

(** ** The operating system *)

Lemma os_Rename_Err oldpath newpath w w' e :
  os_Rename oldpath newpath w = (w', Err e) -> w' = w.
Proof.
  unfold os_Rename. intros H.
  destruct (fs w !! oldpath) as [[data|]|].
  - destruct (is_dir (fs w !! newpath)).
    + apply (f_equal fst) in H. symmetry. exact H.
    + destruct (is_dir (fs w !! filepath_Dir newpath)).
      * apply (f_equal snd) in H. discriminate H.
      * apply (f_equal fst) in H. symmetry. exact H.
  - apply (f_equal fst) in H. symmetry. exact H.
  - apply (f_equal fst) in H. symmetry. exact H.
Qed.

Lemma os_Remove_file p data w :
  fs w !! p = Some (File data) ->
  os_Remove p w = (with_fs (delete p (fs w)) w, Ok tt).
Proof. intros H. unfold os_Remove. rewrite H. reflexivity. Qed.

Lemma os_Remove_absent p w :
  fs w !! p = None ->
  os_Remove p w = (w, Err (PathError "remove" p ENOENT)).
Proof. intros H. unfold os_Remove. rewrite H. reflexivity. Qed.

Lemma os_ReadDir_world dir w : fst (os_ReadDir dir w) = w.
Proof. unfold os_ReadDir. destruct (fs w !! dir) as [[data|]|]; reflexivity. Qed.

(** Listing a directory leaves the world as it is. *)
Lemma getFiles_world dir w : fst (getFiles dir w) = w.
Proof.
  unfold getFiles, bind, wrap. pose proof (os_ReadDir_world dir w) as H.
  destruct (os_ReadDir dir w) as [w' [entries|e]]; exact H.
Qed.

Lemma getFiles_run dir w r : snd (getFiles dir w) = r -> getFiles dir w = (w, r).
Proof.
  intros H. rewrite (run_pair _ _ _ H). rewrite getFiles_world. reflexivity.
Qed.

(** ** Finalize: [RemoveFile] twice *)

(** C3, as the code has it: [RemoveFile] hands back what [os.Remove]
    returns.  On the handle of a regular file the first call deletes the file
    and returns no error; the second call returns the error of a file that
    does not exist and leaves the store as it is. *)
Theorem RemoveFile_twice (w : World) (p : path) (data : bytes) :
  fs w !! p = Some (File data) ->
  let w1 := with_fs (delete p (fs w)) w in
  RemoveFile p w = (w1, Ok tt) /\
  RemoveFile p w1 = (w1, Err (PathError "remove" p ENOENT)).
Proof.
  intros H w1. split.
  - apply (os_Remove_file _ _ _ H).
  - apply os_Remove_absent. subst w1. simpl. apply lookup_delete_eq.
Qed.

Lemma RemoveFile_twice_witness :
  fs (Example.one_record [x61]) !! Example.alice = Some (File [x61]) /\
  RemoveFile Example.alice
    (with_fs (delete Example.alice (fs (Example.one_record [x61]))) (Example.one_record [x61]))
  = (with_fs (delete Example.alice (fs (Example.one_record [x61]))) (Example.one_record [x61]),
     Err (PathError "remove" Example.alice ENOENT)).
Proof.
  split.
  - vm_compute. reflexivity.
  - apply (RemoveFile_twice (Example.one_record [x61]) Example.alice [x61]).
    vm_compute. reflexivity.
Defined.

(** C3, as the specification has it, fails: the second [RemoveFile] of the
    record of alice returns an error. *)
Lemma RemoveFile_twice_counterexample :
  snd (RemoveFile Example.alice (Example.one_record [x61])) = Ok tt /\
  snd (RemoveFile Example.alice (fst (RemoveFile Example.alice (Example.one_record [x61]))))
  = Err (PathError "remove" Example.alice ENOENT).
Proof. split; vm_compute; reflexivity. Qed.

(** ** Promotion: [MoveToAggregation] *)

Lemma MoveToAggregation_loop_app dir pre rest w w1 :
  MoveToAggregation_loop dir pre w = (w1, Ok tt) ->
  MoveToAggregation_loop dir (pre ++ rest) w = MoveToAggregation_loop dir rest w1.
Proof.
  revert w. induction pre as [|f pre IH]; intros w H; simpl in *.
  - unfold ret in H. congruence.
  - unfold bind, wrap in *.
    destruct (os_Rename f _ w) as [w0 [[]|e]]; [|discriminate].
    apply IH. exact H.
Qed.

(** C2, as the code has it: [MoveToAggregation] renames the handles in
    their order and returns at the first rename that fails.  The handles
    before it are moved, the error of the failing rename is returned for the
    whole batch, and the handles after it are not looked at: the world is
    the one the moves before the failure left. *)
Theorem MoveToAggregation_stops_at_first_failure
    (E : Env) (pre post : list path) (f : path) (dataType : string)
    (w w1 : World) (e : error) :
  MoveToAggregation E pre dataType w = (w1, Ok tt) ->
  snd (os_Rename f
         (filepath_Join (filepath_Join (BaseDir E) [dataType; "aggregation"])
                        [filepath_Base f]) w1) = Err e ->
  MoveToAggregation E (pre ++ f :: post) dataType w
  = (w1, Err (Errorf "failed to move file" e)).
Proof.
  unfold MoveToAggregation. intros Hpre Hf.
  rewrite (MoveToAggregation_loop_app _ _ _ _ _ Hpre). simpl.
  unfold bind, wrap.
  destruct (os_Rename f _ w1) as [w2 r] eqn:Hr. simpl in Hf. subst r.
  rewrite (os_Rename_Err _ _ _ _ _ Hr). reflexivity.
Qed.

Lemma MoveToAggregation_stops_at_first_failure_witness :
  snd (MoveToAggregation Example.calm [Example.alice] "usage" Example.two_records) = Ok tt /\
  MoveToAggregation Example.calm ([Example.alice] ++ Example.bob :: [Example.carol])
    "usage" Example.two_records
  = (fst (MoveToAggregation Example.calm [Example.alice] "usage" Example.two_records),
     Err (Errorf "failed to move file" (PathError "rename" Example.bob ENOENT))).
Proof.
  assert (H : snd (MoveToAggregation Example.calm [Example.alice] "usage"
                     Example.two_records) = Ok tt) by (vm_compute; reflexivity).
  split; [exact H|].
  apply (MoveToAggregation_stops_at_first_failure Example.calm
           [Example.alice] [Example.carol] Example.bob "usage" Example.two_records).
  - apply run_pair. exact H.
  - vm_compute. reflexivity.
Defined.

(** C2, as the specification has it, fails: of the handles of alice, bob
    and carol, with no record of bob in the cache, the rename of bob fails
    and the record of carol is not moved. *)
Lemma MoveToAggregation_counterexample :
  let r := MoveToAggregation Example.calm [Example.alice; Example.bob; Example.carol]
             "usage" Example.two_records in
  fs Example.two_records !! Example.carol = Some (File [x63]) /\
  snd r = Err (Errorf "failed to move file" (PathError "rename" Example.bob ENOENT)) /\
  fs (fst r) !! (Example.aggregation_dir ++ [Example.name_of "alice"]) = Some (File [x61]) /\
  fs (fst r) !! Example.carol = Some (File [x63]) /\
  fs (fst r) !! (Example.aggregation_dir ++ [Example.name_of "carol"]) = None.
Proof. vm_compute. repeat split; reflexivity. Qed.

(** ** Admission: [saveFile] *)

Lemma with_fs_with_fs f g w : with_fs f (with_fs g w) = with_fs f w.
Proof. reflexivity. Qed.

Lemma saveFile_Ok p data w w' :
  saveFile p data w = (w', Ok tt) ->
  is_dir (fs w !! p) = false /\ is_dir (fs w !! filepath_Dir p) = true /\
  w' = with_fs (<[p := File data]> (fs w)) w.
Proof.
  unfold saveFile, bind, wrap, os_Create, os_WriteFile, ret.
  destruct (is_dir (fs w !! p)); [discriminate|].
  destruct (is_dir (fs w !! filepath_Dir p)); [|discriminate].
  intros H. inversion H. repeat split.
  unfold with_fs. simpl. f_equal. apply insert_insert_eq.
Qed.

Lemma saveFile_run p data w :
  is_dir (fs w !! p) = false -> is_dir (fs w !! filepath_Dir p) = true ->
  saveFile p data w = (with_fs (<[p := File data]> (fs w)) w, Ok tt).
Proof.
  intros H1 H2. unfold saveFile, bind, wrap, os_Create, os_WriteFile, ret.
  rewrite H1, H2. unfold with_fs. simpl. do 2 f_equal. apply insert_insert_eq.
Qed.

Lemma generate_run E k owner w :
  exists name,
    generate E k owner w = (mkWorld (fs w) (S (ticks w)) (puts w), Ok name).
Proof.
  destruct k; eexists;
    unfold generate, generateFilename, generateSpecimenFilename, bind, time_Now, ret;
    reflexivity.
Qed.

Lemma Admit_unfold E k owner data :
  Admit E k owner data
  = bind (generate E k owner)
         (fun filename => saveFile (filepath_Join (BaseDir E) [kind_dir k; filename]) data).
Proof. destruct k; reflexivity. Qed.

(** C10: the payload is stored as it is.  When [SaveUsage], [SaveError] or
    [SaveSpecimen] returns no error, [ReadFile] of the path it wrote (the
    directory of the kind, the generated name) returns the bytes that were
    admitted, and nothing else. *)
Theorem admitted_payload_verbatim
    (E : Env) (k : Kind) (owner : string) (data : bytes) (w w1 : World) :
  Admit E k owner data w = (w1, Ok tt) ->
  exists filename,
    snd (generate E k owner w) = Ok filename /\
    ReadFile (filepath_Join (BaseDir E) [kind_dir k; filename]) w1 = (w1, Ok data).
Proof.
  rewrite Admit_unfold. intros H.
  destruct (generate_run E k owner w) as [name Hg].
  rewrite (bind_Ok _ _ _ _ _ Hg) in H.
  apply saveFile_Ok in H. destruct H as (_ & _ & ->).
  exists name. split; [rewrite Hg; reflexivity|].
  unfold ReadFile, os_ReadFile. simpl. rewrite lookup_insert_eq. reflexivity.
Qed.

Lemma admitted_payload_verbatim_witness :
  snd (Admit Example.calm Usage "alice" Example.startup Example.fresh) = Ok tt /\
  exists filename,
    snd (generate Example.calm Usage "alice" Example.fresh) = Ok filename /\
    ReadFile (filepath_Join (BaseDir Example.calm) [kind_dir Usage; filename])
      (fst (Admit Example.calm Usage "alice" Example.startup Example.fresh))
    = (fst (Admit Example.calm Usage "alice" Example.startup Example.fresh),
       Ok Example.startup).
Proof.
  assert (H : snd (Admit Example.calm Usage "alice" Example.startup Example.fresh) = Ok tt)
    by (vm_compute; reflexivity).
  split; [exact H|].
  exact (admitted_payload_verbatim Example.calm Usage "alice" Example.startup
           Example.fresh _ (run_pair _ _ _ H)).
Defined.

(** C9: a second admission under the same generated name overwrites the
    first.  When an admission has succeeded and the next one of the same
    kind generates the same name, the next one succeeds too; the file of
    that name held the first payload and now holds the second, and no other
    entry of the store has changed: the first payload is gone, and no error
    says so. *)
Theorem admission_collision_overwrites
    (E : Env) (k : Kind) (owner : string) (d1 d2 : bytes) (w w1 : World)
    (name : string) :
  Admit E k owner d1 w = (w1, Ok tt) ->
  snd (generate E k owner w) = Ok name ->
  snd (generate E k owner w1) = Ok name ->
  let p := filepath_Join (BaseDir E) [kind_dir k; name] in
  exists w2,
    Admit E k owner d2 w1 = (w2, Ok tt) /\
    fs w1 !! p = Some (File d1) /\
    fs w2 = <[p := File d2]> (fs w1) /\
    fs w2 !! p = Some (File d2).
Proof.
  rewrite !Admit_unfold. intros H Hn Hn1 p.
  destruct (generate_run E k owner w) as [n Hg].
  destruct (generate_run E k owner w1) as [n1 Hg1].
  rewrite Hg in Hn. rewrite Hg1 in Hn1. simpl in Hn, Hn1.
  injection Hn as ->. injection Hn1 as ->.
  rewrite (bind_Ok _ _ _ _ _ Hg) in H. fold p in H.
  apply saveFile_Ok in H. simpl in H. destruct H as (Hp & Hd & ->).
  assert (Hne : filepath_Dir p <> p).
  { intros Heq. rewrite Heq in Hd. congruence. }
  eexists. split; [|split; [|split]].
  - rewrite (bind_Ok _ _ _ _ _ Hg1). fold p. apply saveFile_run; simpl.
    + rewrite lookup_insert_eq. reflexivity.
    + rewrite lookup_insert_ne by congruence. exact Hd.
  - simpl. apply lookup_insert_eq.
  - reflexivity.
  - simpl. apply lookup_insert_eq.
Qed.

Lemma admission_collision_overwrites_witness :
  let w1 := fst (Admit Example.calm Usage "alice" [x61] Example.fresh) in
  let p := filepath_Join (BaseDir Example.calm) [kind_dir Usage; Example.name_of "alice"] in
  snd (Admit Example.calm Usage "alice" [x61] Example.fresh) = Ok tt /\
  snd (generate Example.calm Usage "alice" Example.fresh) = Ok (Example.name_of "alice") /\
  snd (generate Example.calm Usage "alice" w1) = Ok (Example.name_of "alice") /\
  exists w2,
    Admit Example.calm Usage "alice" [x62] w1 = (w2, Ok tt) /\
    fs w1 !! p = Some (File [x61]) /\
    fs w2 = <[p := File [x62]]> (fs w1) /\
    fs w2 !! p = Some (File [x62]).
Proof.
  intros w1 p.
  assert (H : snd (Admit Example.calm Usage "alice" [x61] Example.fresh) = Ok tt)
    by (vm_compute; reflexivity).
  assert (H1 : snd (generate Example.calm Usage "alice" Example.fresh)
               = Ok (Example.name_of "alice")) by (vm_compute; reflexivity).
  assert (H2 : snd (generate Example.calm Usage "alice" w1)
               = Ok (Example.name_of "alice")) by (vm_compute; reflexivity).
  split; [exact H|]. split; [exact H1|]. split; [exact H2|].
  exact (admission_collision_overwrites Example.calm Usage "alice" [x61] [x62]
           Example.fresh w1 (Example.name_of "alice") (run_pair _ _ _ H) H1 H2).
Defined.

(** ** Aggregation: [appendFile] and [aggregateFiles] *)

Lemma os_ReadFile_file p data w :
  fs w !! p = Some (File data) -> os_ReadFile p w = (w, Ok data).
Proof. intros H. unfold os_ReadFile. rewrite H. reflexivity. Qed.

Lemma content_file w f data : fs w !! f = Some (File data) -> content w f = data.
Proof. intros H. unfold content. rewrite H. reflexivity. Qed.

Lemma aggregateFiles_loop_run files gz w :
  (forall f, f ∈ files -> exists data, fs w !! f = Some (File data)) ->
  aggregateFiles_loop files gz w
  = (w, Ok (gz ++ lines (map (content w) files), Ok tt)).
Proof.
  revert gz. induction files as [|f files IH]; intros gz H; simpl.
  - unfold ret, lines. simpl. rewrite app_nil_r. reflexivity.
  - destruct (H f) as [data Hf]; [left|].
    unfold bind, try, appendFile, bind, ret. rewrite (os_ReadFile_file _ _ _ Hf).
    rewrite IH by (intros g Hg; apply H; right; exact Hg).
    rewrite (content_file _ _ _ Hf). unfold lines. simpl.
    rewrite <- !app_assoc. reflexivity.
Qed.

Lemma content_insert_ne w out n f :
  f <> out -> content (with_fs (<[out := n]> (fs w)) w) f = content w f.
Proof. intros H. unfold content. simpl. rewrite lookup_insert_ne by congruence. reflexivity. Qed.

Lemma aggregateFiles_run E files out w :
  is_dir (fs w !! out) = false ->
  is_dir (fs w !! filepath_Dir out) = true ->
  (forall f, f ∈ files -> f <> out /\ exists data, fs w !! f = Some (File data)) ->
  aggregateFiles E files out w
  = (with_fs (<[out := File (gzip E (lines (map (content w) files)))]> (fs w)) w, Ok tt).
Proof.
  intros H1 H2 H. unfold aggregateFiles, bind, wrap, os_Create. rewrite H1, H2.
  set (w0 := with_fs (<[out := File []]> (fs w)) w).
  assert (Hc : map (content w0) files = map (content w) files).
  { apply map_ext_in. intros f Hf. apply (content_insert_ne w out (File []) f).
    apply list_elem_of_In in Hf. apply H. exact Hf. }
  rewrite aggregateFiles_loop_run.
  - rewrite Hc. simpl. unfold os_WriteFile, ret, with_fs. simpl.
    rewrite insert_insert_eq. reflexivity.
  - intros f Hf. destruct (H f Hf) as [Hne [data Hd]]. exists data.
    simpl. rewrite lookup_insert_ne by congruence. exact Hd.
Qed.

(** C5, as the code has it: [appendFile] writes a newline after every file,
    whatever its last byte.  For files that are there, the stream
    [aggregateFiles] compresses into its output is each content followed by
    one newline (so a payload that ends in a newline is followed by an empty
    line). *)
Theorem aggregateFiles_newline_after_every_record
    (E : Env) (files : list path) (out : path) (w : World) :
  is_dir (fs w !! out) = false ->
  is_dir (fs w !! filepath_Dir out) = true ->
  (forall f, f ∈ files -> f <> out /\ exists data, fs w !! f = Some (File data)) ->
  exists w',
    aggregateFiles E files out w = (w', Ok tt) /\
    fs w' !! out
    = Some (File (gzip E (concat (map (fun f => content w f ++ [newline]) files)))).
Proof.
  intros H1 H2 H. eexists. split.
  - apply aggregateFiles_run; assumption.
  - simpl. rewrite lookup_insert_eq. unfold lines. rewrite map_map. reflexivity.
Qed.

Lemma aggregateFiles_newline_after_every_record_witness :
  fs (Example.one_record Scenario.with_newline) !! Example.alice
  = Some (File Scenario.with_newline) /\
  exists w',
    aggregateFiles Example.calm [Example.alice] Scenario.temp
      (Example.one_record Scenario.with_newline) = (w', Ok tt) /\
    fs w' !! Scenario.temp
    = Some (File (gzip Example.calm
                    (concat (map (fun f => content (Example.one_record Scenario.with_newline) f
                                           ++ [newline]) [Example.alice])))).
Proof.
  assert (H : fs (Example.one_record Scenario.with_newline) !! Example.alice
              = Some (File Scenario.with_newline)) by (vm_compute; reflexivity).
  split; [exact H|].
  apply (aggregateFiles_newline_after_every_record Example.calm [Example.alice]
           Scenario.temp (Example.one_record Scenario.with_newline)).
  - vm_compute. reflexivity.
  - vm_compute. reflexivity.
  - intros f Hf. apply list_elem_of_singleton in Hf. subst f. split.
    + discriminate.
    + eexists. exact H.
Defined.

(** Scenario A: one usage record with the startup payload, one cycle; one
    object is put, and what was compressed into it is the payload and a
    newline. *)
Lemma scenario_A_startup (gz : bytes -> bytes) :
  map (fun p => (Bucket (fst p), Body (fst p), snd p))
      (puts (fst (AggregateAndUpload (Example.env (fun _ => Example.noon) Example.succeed gz)
                    "usage" (Example.one_record Example.startup))))
  = [("usage-bucket"%string, gz (Example.startup ++ [newline]), true)].
Proof. vm_compute. reflexivity. Qed.

(** The same cycle on a payload that ends in a newline: the decompressed
    object ends in two newlines, an empty line after the record. *)
Lemma newline_payload_gets_empty_line (gz : bytes -> bytes) :
  map (fun p => (Bucket (fst p), Body (fst p), snd p))
      (puts (fst (AggregateAndUpload (Example.env (fun _ => Example.noon) Example.succeed gz)
                    "usage" (Example.one_record (Example.startup ++ [newline])))))
  = [("usage-bucket"%string, gz (Example.startup ++ [newline; newline]), true)].
Proof. vm_compute. reflexivity. Qed.

(** ** Reconciliation: [ProcessRemaining] *)

Lemma AggregateAndUpload_nothing_incoming E dataType w w' :
  getFilesToAggregate E dataType w = (w', Ok []) ->
  AggregateAndUpload E dataType w = (w', Ok tt).
Proof.
  intros H. unfold AggregateAndUpload.
  rewrite (bind_Ok _ _ _ _ _ (wrap_Ok _ _ _ _ _ H)). reflexivity.
Qed.

Lemma process_dataType_nothing E dataType w :
  GetUploadingFiles E dataType w = (w, Ok []) ->
  getFilesToAggregate E dataType w = (w, Ok []) ->
  process_dataType E dataType w = (w, Ok tt).
Proof.
  intros H1 H2. unfold process_dataType, bind, try. rewrite H1. simpl.
  unfold ret. rewrite (AggregateAndUpload_nothing_incoming _ _ _ _ H2). reflexivity.
Qed.

(** C1 fails on the code: [AggregateAndUpload] returns at once when the
    incoming directory is empty, so [ProcessRemaining] does not look at the
    aggregation directories then.  When the incoming and the uploading
    directories of both batched kinds and the specimen directory have no
    file, [ProcessRemaining] changes nothing and puts nothing, whatever the
    aggregation directories hold. *)
Theorem ProcessRemaining_skips_aggregation_directory (E : Env) (w : World) :
  GetUploadingFiles E "usage" w = (w, Ok []) ->
  GetUsageFiles E w = (w, Ok []) ->
  GetUploadingFiles E "error" w = (w, Ok []) ->
  GetErrorFiles E w = (w, Ok []) ->
  GetSpecimenFiles E w = (w, Ok []) ->
  ProcessRemaining E w = (w, Ok tt).
Proof.
  intros H1 H2 H3 H4 H5.
  pose proof (process_dataType_nothing E "usage" w H1 H2) as Hu.
  pose proof (process_dataType_nothing E "error" w H3 H4) as He.
  unfold ProcessRemaining.
  rewrite (bind_Ok _ _ _ _ _ Hu), (bind_Ok _ _ _ _ _ He), (bind_Ok _ _ _ _ _ H5).
  reflexivity.
Qed.

Lemma ProcessRemaining_skips_aggregation_directory_witness :
  fs Scenario.interrupted !! Scenario.promoted_alice = Some (File Example.startup) /\
  puts Scenario.interrupted = [] /\
  ProcessRemaining Example.calm Scenario.interrupted = (Scenario.interrupted, Ok tt).
Proof.
  split; [vm_compute; reflexivity|]. split; [vm_compute; reflexivity|].
  apply (ProcessRemaining_skips_aggregation_directory Example.calm Scenario.interrupted);
    apply getFiles_run; vm_compute; reflexivity.
Defined.

(** C7 fails on the code: [ProcessRemaining] lists the specimen directory,
    not its uploading directory.  After a fast path whose upload was refused
    the specimen is in the uploading directory; [ProcessRemaining], with an
    object store that now takes everything, puts nothing more and leaves the
    specimen where it is. *)
Theorem failed_specimen_is_not_retried :
  let stuck := Example.specimen_dir ++ ["uploading"%string; Scenario.stuck_name] in
  let w := Scenario.after_failed_fast_path in
  fs w !! stuck = Some (File [x61]) /\
  map (fun p => (Key (fst p), snd p)) (puts w)
  = [("s/alice/2024/01/01/test.1704112245123456000.png"%string, false)] /\
  snd (ProcessRemaining Scenario.flaky w) = Ok tt /\
  puts (fst (ProcessRemaining Scenario.flaky w)) = puts w /\
  fs (fst (ProcessRemaining Scenario.flaky w)) !! stuck = Some (File [x61]).
Proof. vm_compute. repeat split; reflexivity. Qed.

(** ** The name of a specimen *)

(** C4 fails on the code: the layout [.999999] drops the zeros at the end of
    the microseconds, and the point with them when the admission falls on a
    full second.  The name then has one dot less before the URI;
    [GetSpecimenInfo] takes the dot inside the host name for the third one and
    returns another URI and another time. *)
Theorem specimen_name_on_the_second_decodes_wrongly :
  snd (generateSpecimenFilename Example.calm Scenario.test_png Example.fresh)
  = Ok "20240101123045.12345.http%3A%2F%2Fexample.com%2Ftest.png"%string /\
  GetSpecimenInfo
    (Example.specimen_dir ++ ["20240101123045.12345.http%3A%2F%2Fexample.com%2Ftest.png"%string])
  = Ok ("com/test.png"%string, mkTime 2024 1 1 12 30 45 123450000).
Proof. vm_compute. split; reflexivity. Qed.

(** On the same second a URI without a dot gives a name that
    [GetSpecimenInfo] rejects. *)
Lemma specimen_name_on_the_second_is_rejected :
  snd (generateSpecimenFilename Example.calm "screenshot" Example.fresh)
  = Ok "20240101123045.12345.screenshot"%string /\
  GetSpecimenInfo (Example.specimen_dir ++ ["20240101123045.12345.screenshot"%string])
  = Err (ErrorNew "invalid specimen filename format").
Proof. vm_compute. split; reflexivity. Qed.

(** With microseconds that do not end in zero the name decodes to the URI
    and to the time it was made from. *)
Lemma specimen_name_round_trip_example :
  snd (generateSpecimenFilename Scenario.flaky "http://example.com/test file.png?a=b:c"
         Example.fresh)
  = Ok "20240101123045.123456.12345.http%3A%2F%2Fexample.com%2Ftest+file.png%3Fa%3Db%3Ac"%string /\
  GetSpecimenInfo
    (Example.specimen_dir
       ++ ["20240101123045.123456.12345.http%3A%2F%2Fexample.com%2Ftest+file.png%3Fa%3Db%3Ac"%string])
  = Ok ("http://example.com/test file.png?a=b:c"%string, Example.after_noon).
Proof. vm_compute. split; reflexivity. Qed.

(** ** Names and paths *)

Lemma strings_Split_no_slash s :
  no_slash s = true -> strings_Split s "/" = [s].
Proof.
  induction s as [|c s IH]; simpl; [reflexivity|].
  intros H. apply andb_prop in H. destruct H as [Hc Hs].
  apply negb_true_iff in Hc. rewrite Hc. rewrite (IH Hs). reflexivity.
Qed.

Lemma filepath_Join_valid dir n :
  valid_name n = true -> filepath_Join dir [n] = dir ++ [n].
Proof.
  unfold valid_name. intros H.
  apply andb_prop in H. destruct H as [H Hs].
  apply andb_prop in H. destruct H as [H H3].
  apply andb_prop in H. destruct H as [H1 H2].
  apply negb_true_iff in H1, H2, H3.
  unfold filepath_Join. simpl. rewrite (strings_Split_no_slash _ Hs). simpl.
  unfold clean_step. rewrite H1, H2, H3. reflexivity.
Qed.

Lemma filepath_Base_snoc dir n : filepath_Base (dir ++ [n]) = n.
Proof. unfold filepath_Base. apply last_last. Qed.

Lemma filepath_Dir_snoc dir n : filepath_Dir (dir ++ [n]) = dir.
Proof. unfold filepath_Dir. apply removelast_last. Qed.

Lemma path_snoc_Dir_Base (q : path) :
  q <> [] -> q = filepath_Dir q ++ [filepath_Base q].
Proof. intros H. unfold filepath_Dir, filepath_Base. apply app_removelast_last. exact H. Qed.

Lemma snoc_ne_dir (dir : path) n : dir ++ [n] <> dir.
Proof.
  intros H. apply (f_equal (@length string)) in H.
  rewrite length_app in H. simpl in H. lia.
Qed.

Lemma string_app_cons c a b : String c a +:+ b = String c (a +:+ b).
Proof. reflexivity. Qed.

Lemma string_app_nil_r s : s +:+ EmptyString = s.
Proof.
  induction s as [|c s IH]; [reflexivity|]. rewrite string_app_cons, IH. reflexivity.
Qed.

Lemma string_app_assoc a b c : (a +:+ b) +:+ c = a +:+ (b +:+ c).
Proof.
  induction a as [|x a IH]; [reflexivity|]. rewrite !string_app_cons, IH. reflexivity.
Qed.

Lemma path_string_snoc dir n :
  path_string (dir ++ [n]) = path_string dir +:+ String "/" n.
Proof.
  induction dir as [|e dir IH]; simpl.
  - rewrite string_app_nil_r. reflexivity.
  - rewrite IH, string_app_cons, string_app_assoc. reflexivity.
Qed.

Lemma ascii_compare_refl c : Ascii.compare c c = Eq.
Proof. unfold Ascii.compare. apply N.compare_refl. Qed.

Lemma string_compare_refl s : String.compare s s = Eq.
Proof.
  induction s as [|c s IH]; simpl; [reflexivity|].
  rewrite ascii_compare_refl. exact IH.
Qed.

Lemma string_compare_prefix p a b :
  String.compare (p +:+ a) (p +:+ b) = String.compare a b.
Proof.
  induction p as [|c p IH]; [reflexivity|].
  rewrite !string_app_cons. simpl. rewrite ascii_compare_refl. exact IH.
Qed.

Lemma path_string_compare dir n1 n2 :
  String.compare (path_string (dir ++ [n1])) (path_string (dir ++ [n2]))
  = String.compare n1 n2.
Proof.
  rewrite !path_string_snoc, string_compare_prefix. reflexivity.
Qed.

Lemma string_compare_le_trans a :
  forall b c, String.compare a b <> Gt -> String.compare b c <> Gt ->
              String.compare a c <> Gt.
Proof.
  induction a as [|x a IH]; intros [|y b] [|z c]; simpl; try (intros; discriminate);
    try (intros H1 H2; exfalso; first [apply H1; reflexivity | apply H2; reflexivity]).
  unfold Ascii.compare.
  destruct (N.compare_spec (N_of_ascii x) (N_of_ascii y)) as [Hxy|Hxy|Hxy];
    destruct (N.compare_spec (N_of_ascii y) (N_of_ascii z)) as [Hyz|Hyz|Hyz];
    intros H1 H2; try (exfalso; first [apply H1; reflexivity | apply H2; reflexivity]).
  - rewrite Hxy, Hyz, N.compare_refl. apply (IH b c H1 H2).
  - rewrite Hxy. apply N.compare_lt_iff in Hyz. rewrite Hyz. discriminate.
  - rewrite <- Hyz. apply N.compare_lt_iff in Hxy. rewrite Hxy. discriminate.
  - assert (H : (N_of_ascii x < N_of_ascii z)%N) by lia.
    apply N.compare_lt_iff in H. rewrite H. discriminate.
Qed.

Lemma string_leb_compare a b : String.leb a b = true <-> String.compare a b <> Gt.
Proof.
  unfold String.leb. destruct (String.compare a b); split; intros H;
    first [reflexivity | discriminate | (exfalso; apply H; reflexivity)].
Qed.

#[local] Instance path_le_trans : Transitive path_le.
Proof.
  intros p q r. unfold path_le. rewrite !string_leb_compare.
  apply string_compare_le_trans.
Qed.

#[local] Instance path_le_total : Total path_le.
Proof. intros p q. unfold path_le. apply String.leb_total. Qed.

Lemma sort_Strings_elem_of f l : f ∈ sort_Strings l <-> f ∈ l.
Proof. unfold sort_Strings. rewrite merge_sort_Permutation. reflexivity. Qed.

(** In a sorted list the smaller of two paths stands before the greater. *)
Lemma sort_Strings_split l f1 f2 :
  f1 ∈ l -> f2 ∈ l ->
  String.ltb (path_string f1) (path_string f2) = true ->
  exists l1 l2 l3, sort_Strings l = l1 ++ f1 :: l2 ++ f2 :: l3.
Proof.
  intros H1 H2 Hlt.
  pose proof (StronglySorted_merge_sort path_le l) as Hs. fold (sort_Strings l) in Hs.
  apply (proj2 (sort_Strings_elem_of _ _)) in H1, H2.
  apply list_elem_of_split in H2. destruct H2 as (a & b & Hab).
  rewrite Hab in H1, Hs. rewrite Hab.
  assert (Hcmp : String.compare (path_string f1) (path_string f2) = Lt).
  { unfold String.ltb in Hlt. destruct (String.compare _ _); try discriminate. reflexivity. }
  apply elem_of_app in H1. destruct H1 as [H1|H1].
  - apply list_elem_of_split in H1. destruct H1 as (a1 & a2 & ->).
    exists a1, a2, b. rewrite <- app_assoc. reflexivity.
  - exfalso. apply elem_of_cons in H1. destruct H1 as [->|H1].
    + rewrite string_compare_refl in Hcmp. discriminate.
    + apply StronglySorted_app_1_r in Hs. apply StronglySorted_cons in Hs.
      destruct Hs as [Hall _]. rewrite Forall_forall in Hall.
      specialize (Hall f1 H1). unfold path_le in Hall.
      apply string_leb_compare in Hall.
      rewrite String.compare_antisym, Hcmp in Hall. apply Hall. reflexivity.
Qed.

(** ** Listing a directory *)

Lemma children_elem_of (dir : path) (f : gmap path node) (q : path) (nd : node) :
  (q, nd) ∈ children dir f <->
  f !! q = Some nd /\ exists n, q = dir ++ [n] /\ valid_name n = true.
Proof.
  unfold children. rewrite list_elem_of_filter, elem_of_map_to_list.
  unfold is_entry. simpl. split.
  - intros [(Hne & Hd & Hv) Hq]. split; [exact Hq|].
    exists (filepath_Base q). split; [|exact Hv].
    rewrite <- Hd. apply path_snoc_Dir_Base. exact Hne.
  - intros [Hq (n & -> & Hv)]. split; [|exact Hq]. split; [|split].
    + intros H. apply app_eq_nil in H. destruct H as [_ H]. discriminate H.
    + apply filepath_Dir_snoc.
    + rewrite filepath_Base_snoc. exact Hv.
Qed.

Lemma getFiles_elem_of (dir : path) (w : World) (l : list path) (f : path) :
  getFiles dir w = (w, Ok l) ->
  f ∈ l <->
  exists n data, f = dir ++ [n] /\ valid_name n = true /\ fs w !! f = Some (File data).
Proof.
  unfold getFiles, bind, wrap, os_ReadDir, ret.
  destruct (fs w !! dir) as [[d|]|]; try discriminate.
  intros H. injection H as <-.
  rewrite list_elem_of_In, in_map_iff. split.
  - intros ([name isdir] & Hf & He). simpl in Hf.
    apply list_elem_of_In, list_elem_of_filter in He. destruct He as [Hfile He].
    simpl in Hfile. subst isdir.
    rewrite merge_sort_Permutation in He.
    apply list_elem_of_In, in_map_iff in He. destruct He as ([q nd] & Hg & Hq).
    apply list_elem_of_In, children_elem_of in Hq. destruct Hq as [Hq (n & -> & Hv)].
    injection Hg as Hn Hd. rewrite filepath_Base_snoc in Hn. subst name.
    rewrite (filepath_Join_valid _ _ Hv) in Hf. subst f.
    destruct nd as [data|]; [|discriminate Hd].
    exists n, data. repeat split; assumption.
  - intros (n & data & -> & Hv & Hq). exists (n, false). split.
    + simpl. apply filepath_Join_valid. exact Hv.
    + apply list_elem_of_In, list_elem_of_filter. split; [reflexivity|].
      rewrite merge_sort_Permutation. apply list_elem_of_In, in_map_iff.
      exists (dir ++ [n], File data). split.
      * simpl. rewrite filepath_Base_snoc. reflexivity.
      * apply list_elem_of_In, children_elem_of. split; [exact Hq|].
        exists n. split; [reflexivity|exact Hv].
Qed.

Lemma getFiles_Ok_dir dir w w' l :
  getFiles dir w = (w', Ok l) -> w' = w /\ fs w !! dir = Some Dir.
Proof.
  intros H. pose proof (getFiles_world dir w) as Hw. rewrite H in Hw. simpl in Hw.
  split; [exact Hw|].
  unfold getFiles, bind, wrap, os_ReadDir in H.
  destruct (fs w !! dir) as [[d|]|]; try discriminate. reflexivity.
Qed.

Lemma getFiles_of_dir dir w :
  fs w !! dir = Some Dir -> exists l, getFiles dir w = (w, Ok l).
Proof.
  intros H. unfold getFiles, bind, wrap, os_ReadDir, ret. rewrite H.
  eexists. reflexivity.
Qed.

(** ** The directories of a kind *)

Lemma filepath_Join_stage E dataType stage :
  batched dataType ->
  stage = "aggregation"%string \/ stage = "uploading"%string ->
  filepath_Join (BaseDir E) [dataType; stage] = BaseDir E ++ [dataType; stage].
Proof.
  intros [-> | ->] [-> | ->]; unfold filepath_Join; simpl; unfold clean_step; simpl;
    rewrite <- app_assoc; reflexivity.
Qed.

Lemma no_slash_app a b : no_slash (a +:+ b) = no_slash a && no_slash b.
Proof.
  induction a as [|c a IH]; [reflexivity|].
  rewrite string_app_cons. simpl. rewrite IH. apply andb_assoc.
Qed.

Lemma no_slash_string_of_uint d : no_slash (NilEmpty.string_of_uint d) = true.
Proof. induction d; simpl; auto. Qed.

Lemma no_slash_itoa z : no_slash (itoa z) = true.
Proof.
  unfold itoa, NilZero.string_of_int, NilZero.string_of_uint.
  destruct (Z.to_int z) as [d|d].
  - destruct d; try reflexivity; apply (no_slash_string_of_uint (_ d)).
  - simpl. destruct d; try reflexivity; apply (no_slash_string_of_uint (_ d)).
Qed.

Lemma valid_temp_name E w : valid_name (temp_name E w) = true.
Proof.
  unfold valid_name, temp_name.
  rewrite !no_slash_app, no_slash_itoa. reflexivity.
Qed.

(** ** The steps of a cycle *)

Lemma getFilesToAggregate_Ok E dataType w w' files :
  getFilesToAggregate E dataType w = (w', Ok files) ->
  batched dataType /\ w' = w /\
  getFiles (BaseDir E ++ [dataType]) w = (w, Ok files).
Proof.
  unfold getFilesToAggregate, batched.
  destruct (String.eqb_spec dataType "usage") as [->|_].
  - intros H. destruct (getFiles_Ok_dir _ _ _ _ H) as [-> _].
    split; [left; reflexivity|]. split; [reflexivity|exact H].
  - destruct (String.eqb_spec dataType "error") as [->|_].
    + intros H. destruct (getFiles_Ok_dir _ _ _ _ H) as [-> _].
      split; [right; reflexivity|]. split; [reflexivity|exact H].
    + intros H. discriminate H.
Qed.

Lemma getFilesToAggregate_world E dataType w :
  fst (getFilesToAggregate E dataType w) = w.
Proof.
  unfold getFilesToAggregate.
  destruct (String.eqb dataType "usage"); [apply getFiles_world|].
  destruct (String.eqb dataType "error"); [apply getFiles_world|reflexivity].
Qed.

Lemma os_Rename_puts a b w :
  puts (fst (os_Rename a b w)) = puts w /\ ticks (fst (os_Rename a b w)) = ticks w.
Proof.
  unfold os_Rename. destruct (fs w !! a) as [[data|]|]; try (split; reflexivity).
  destruct (is_dir (fs w !! b)); [split; reflexivity|].
  destruct (is_dir (fs w !! filepath_Dir b)); split; reflexivity.
Qed.

Lemma MoveToAggregation_loop_puts dir files w :
  puts (fst (MoveToAggregation_loop dir files w)) = puts w /\
  ticks (fst (MoveToAggregation_loop dir files w)) = ticks w.
Proof.
  revert w. induction files as [|f files IH]; intros w; simpl; [split; reflexivity|].
  unfold bind, wrap.
  pose proof (os_Rename_puts f (filepath_Join dir [filepath_Base f]) w) as [Hp Ht].
  destruct (os_Rename f _ w) as [w1 [[]|e]]; simpl in *.
  - destruct (IH w1) as [Hp1 Ht1]. rewrite Hp1, Ht1. split; assumption.
  - split; assumption.
Qed.

Lemma os_Remove_puts p w : puts (fst (os_Remove p w)) = puts w.
Proof.
  unfold os_Remove. destruct (fs w !! p) as [[data|]|]; try reflexivity.
  destruct (children p (fs w)); reflexivity.
Qed.

Lemma remove_aggregated_puts files w : puts (fst (remove_aggregated files w)) = puts w.
Proof.
  revert w. induction files as [|f files IH]; intros w; simpl; [reflexivity|].
  unfold bind, try, RemoveFile. pose proof (os_Remove_puts f w) as Hp.
  destruct (os_Remove f w) as [w1 r]. simpl in *. rewrite IH. exact Hp.
Qed.

Lemma remove_aggregated_Ok files w : snd (remove_aggregated files w) = Ok tt.
Proof.
  revert w. induction files as [|f files IH]; intros w; simpl; [reflexivity|].
  unfold bind, try, RemoveFile. destruct (os_Remove f w) as [w1 r]. apply IH.
Qed.

Lemma createTempFile_run E dataType w :
  batched dataType ->
  let dir := BaseDir E ++ [dataType; "aggregation"%string] in
  let temp := dir ++ [temp_name E w] in
  createTempFile E dataType w
  = if is_dir (fs w !! temp)
    then (mkWorld (fs w) (S (ticks w)) (puts w), Err (PathError "open" temp EISDIR))
    else if is_dir (fs w !! dir)
         then (mkWorld (<[temp := File []]> (fs w)) (S (ticks w)) (puts w), Ok temp)
         else (mkWorld (fs w) (S (ticks w)) (puts w), Err (PathError "open" temp ENOENT)).
Proof.
  intros Hb dir temp. unfold createTempFile.
  rewrite filepath_Join_stage by (auto; left; reflexivity).
  unfold bind at 1. unfold time_Now at 1. cbv beta iota.
  fold (temp_name E w).
  rewrite (filepath_Join_valid _ _ (valid_temp_name E w)). fold dir temp.
  unfold bind, os_Create, ret, with_fs. simpl.
  replace (filepath_Dir temp) with dir by (unfold temp; rewrite filepath_Dir_snoc; reflexivity).
  destruct (is_dir (fs w !! temp)); [reflexivity|].
  destruct (is_dir (fs w !! dir)); reflexivity.
Qed.

Lemma aggregateFiles_run_any E files out w :
  is_dir (fs w !! out) = false ->
  is_dir (fs w !! filepath_Dir out) = true ->
  (forall f, f ∈ files -> exists data, fs w !! f = Some (File data)) ->
  let w0 := with_fs (<[out := File []]> (fs w)) w in
  aggregateFiles E files out w
  = (with_fs (<[out := File (gzip E (lines (map (content w0) files)))]> (fs w)) w, Ok tt).
Proof.
  intros H1 H2 H w0. unfold aggregateFiles, bind, wrap, os_Create. rewrite H1, H2.
  fold w0. rewrite aggregateFiles_loop_run.
  - simpl. unfold os_WriteFile, ret, with_fs. simpl.
    rewrite insert_insert_eq. reflexivity.
  - intros f Hf. destruct (H f Hf) as [data Hd]. simpl.
    destruct (decide (out = f)) as [->|Hne].
    + exists []. apply lookup_insert_eq.
    + exists data. rewrite lookup_insert_ne by exact Hne. exact Hd.
Qed.

Lemma MoveToUploading_run E file dataType w data :
  batched dataType ->
  valid_name (filepath_Base file) = true ->
  fs w !! file = Some (File data) ->
  let dir := BaseDir E ++ [dataType; "uploading"%string] in
  let dest := dir ++ [filepath_Base file] in
  MoveToUploading E file dataType w
  = if is_dir (fs w !! dest)
    then (w, Err (Errorf "failed to move file" (PathError "rename" file EISDIR)))
    else if is_dir (fs w !! dir)
         then (with_fs (<[dest := File data]> (delete file (fs w))) w, Ok dest)
         else (w, Err (Errorf "failed to move file" (PathError "rename" file ENOENT))).
Proof.
  intros Hb Hv Hf dir dest. unfold MoveToUploading.
  rewrite filepath_Join_stage by (auto; right; reflexivity).
  rewrite (filepath_Join_valid _ _ Hv). fold dir dest.
  unfold bind, wrap, os_Rename, ret. rewrite Hf.
  replace (filepath_Dir dest) with dir by (unfold dest; rewrite filepath_Dir_snoc; reflexivity).
  destruct (is_dir (fs w !! dest)); [reflexivity|].
  destruct (is_dir (fs w !! dir)); reflexivity.
Qed.

Lemma UploadAggregatedFile_run E p dataType w data :
  batched dataType ->
  fs w !! p = Some (File data) ->
  exists input,
    Body input = data /\
    UploadAggregatedFile E p dataType w
    = (mkWorld (fs w) (S (ticks w)) (puts w ++ [(input, put_ok E (length (puts w)))]),
       if put_ok E (length (puts w)) then Ok tt
       else Err (Errorf "failed to upload to S3" PutError)).
Proof.
  intros Hb Hp. unfold UploadAggregatedFile.
  rewrite (bind_Ok _ _ _ _ _ (wrap_Ok _ _ _ _ _ (os_ReadFile_file _ _ _ Hp))).
  destruct Hb as [-> | ->]; simpl; unfold bind, ret, time_Now, wrap, PutObject; simpl;
    (eexists; split; [|destruct (put_ok E (length (puts w))); reflexivity]; reflexivity).
Qed.

Lemma is_dir_true n : is_dir n = true -> n = Some Dir.
Proof. destruct n as [[data|]|]; simpl; intros H; first [reflexivity | discriminate H]. Qed.

Lemma content_ext w1 w2 f : fs w1 = fs w2 -> content w1 f = content w2 f.
Proof. intros H. unfold content. rewrite H. reflexivity. Qed.

Lemma stage_dirs_differ E dataType n m :
  (BaseDir E ++ [dataType; "aggregation"%string]) ++ [n]
  <> (BaseDir E ++ [dataType; "uploading"%string]) ++ [m].
Proof.
  intros H. apply app_inj_tail in H. destruct H as [H _].
  apply app_inv_head in H. discriminate H.
Qed.

Lemma stage_file_ne_dir E dataType n :
  (BaseDir E ++ [dataType; "aggregation"%string]) ++ [n]
  <> BaseDir E ++ [dataType; "uploading"%string].
Proof.
  rewrite <- app_assoc. intros H. apply app_inv_head in H. discriminate H.
Qed.

Lemma list_ne_app_cons {A} (l k : list A) (x : A) : l ++ x :: k <> l.
Proof.
  intros H. apply (f_equal (@length A)) in H. rewrite length_app in H. simpl in H. lia.
Qed.

(** What a cycle does, step by step.  Either it puts nothing (and its
    result is not the error of a failed upload), or it has promoted the
    incoming files, listed the aggregation directory, written the artifact
    and put it once; when that put fails the artifact is in the uploading
    directory and nothing else has changed since the promotion. *)
Lemma AggregateAndUpload_cases E dataType w w' r :
  AggregateAndUpload E dataType w = (w', r) ->
  (puts w' = puts w /\ r <> Err upload_failed) \/
  exists files w1 listing input,
    batched dataType /\
    getFiles (BaseDir E ++ [dataType]) w = (w, Ok files) /\
    MoveToAggregation E files dataType w = (w1, Ok tt) /\
    getFiles (BaseDir E ++ [dataType; "aggregation"%string]) w1 = (w1, Ok listing) /\
    fs w1 !! (BaseDir E ++ [dataType; "uploading"%string]) = Some Dir /\
    let temp := (BaseDir E ++ [dataType; "aggregation"%string]) ++ [temp_name E w] in
    let upl := (BaseDir E ++ [dataType; "uploading"%string]) ++ [temp_name E w] in
    let w2 := with_fs (<[temp := File []]> (fs w1)) w1 in
    let data := gzip E (lines (map (content w2) (sort_Strings listing))) in
    Body input = data /\
    puts w' = puts w ++ [(input, put_ok E (length (puts w)))] /\
    (put_ok E (length (puts w)) = false ->
     r = Err upload_failed /\ fs w' = <[upl := File data]> (delete temp (fs w1))) /\
    (put_ok E (length (puts w)) = true -> r = Ok tt).
Proof.
  intros H. unfold AggregateAndUpload in H.
  pose proof (getFilesToAggregate_world E dataType w) as Hw0.
  destruct (getFilesToAggregate E dataType w) as [w0 [files|e]] eqn:Hg; simpl in Hw0; subst w0.
  2:{ rewrite (bind_Err _ _ _ _ _ (wrap_Err _ _ _ _ _ Hg)) in H.
      injection H as <- <-. left. split; [reflexivity|discriminate]. }
  destruct (getFilesToAggregate_Ok _ _ _ _ _ Hg) as (Hb & _ & Hfiles).
  rewrite (bind_Ok _ _ _ _ _ (wrap_Ok _ _ _ _ _ Hg)) in H.
  destruct files as [|f0 files0].
  { simpl in H. injection H as <- <-. left. split; [reflexivity|discriminate]. }
  change ((length (f0 :: files0) =? 0)%nat) with false in H. cbv iota in H.
  pose proof (MoveToAggregation_loop_puts
                (filepath_Join (BaseDir E) [dataType; "aggregation"%string])
                (f0 :: files0) w) as [Hp1 Ht1].
  fold (MoveToAggregation E (f0 :: files0) dataType) in Hp1, Ht1.
  destruct (MoveToAggregation E (f0 :: files0) dataType w) as [w1 [[]|e]] eqn:Hm;
    simpl in Hp1, Ht1.
  2:{ rewrite (bind_Err _ _ _ _ _ (wrap_Err _ _ _ _ _ Hm)) in H.
      injection H as <- <-. left. split; [exact Hp1|discriminate]. }
  rewrite (bind_Ok _ _ _ _ _ (wrap_Ok _ _ _ _ _ Hm)) in H.
  unfold GetAggregationFiles in H.
  rewrite filepath_Join_stage in H by (auto; left; reflexivity).
  set (agg := BaseDir E ++ [dataType; "aggregation"%string]) in *.
  pose proof (getFiles_world agg w1) as Hw1.
  destruct (getFiles agg w1) as [w1' [listing|e]] eqn:Hl; simpl in Hw1; subst w1'.
  2:{ rewrite (bind_Err _ _ _ _ _ (wrap_Err _ _ _ _ _ Hl)) in H.
      injection H as <- <-. left. split; [exact Hp1|discriminate]. }
  rewrite (bind_Ok _ _ _ _ _ (wrap_Ok _ _ _ _ _ Hl)) in H.
  destruct (getFiles_Ok_dir _ _ _ _ Hl) as [_ Hagg].
  pose proof (createTempFile_run E dataType w1 Hb) as Hc. cbv zeta in Hc. fold agg in Hc.
  replace (temp_name E w1) with (temp_name E w) in Hc
    by (unfold temp_name; rewrite Ht1; reflexivity).
  set (name := temp_name E w) in *. set (temp := agg ++ [name]) in *.
  rewrite Hagg in Hc. simpl (is_dir (Some Dir)) in Hc.
  destruct (is_dir (fs w1 !! temp)) eqn:Htd.
  { rewrite (bind_Err _ _ _ _ _ (wrap_Err _ _ _ _ _ Hc)) in H.
    injection H as <- <-. left. split; [exact Hp1|discriminate]. }
  rewrite (bind_Ok _ _ _ _ _ (wrap_Ok _ _ _ _ _ Hc)) in H. clear Hc.
  set (w2 := mkWorld (<[temp := File []]> (fs w1)) (S (ticks w1)) (puts w1)) in *.
  assert (Hname : valid_name name = true) by apply valid_temp_name.
  assert (Hagg2 : fs w2 !! agg = Some Dir).
  { simpl. rewrite lookup_insert_ne by apply snoc_ne_dir. exact Hagg. }
  assert (Hall : forall f, f ∈ sort_Strings listing -> exists d, fs w2 !! f = Some (File d)).
  { intros f Hf. apply (proj1 (sort_Strings_elem_of _ _)) in Hf.
    apply (proj1 (getFiles_elem_of _ _ _ _ Hl)) in Hf. destruct Hf as (n & d & _ & _ & Hd).
    simpl. destruct (decide (temp = f)) as [->|Hne].
    - exists []. apply lookup_insert_eq.
    - exists d. rewrite lookup_insert_ne by exact Hne. exact Hd. }
  pose proof (aggregateFiles_run_any E (sort_Strings listing) temp w2) as Ha.
  rewrite (filepath_Dir_snoc agg name : filepath_Dir temp = agg) in Ha.
  rewrite Hagg2 in Ha. simpl (fs w2 !! temp) in Ha. rewrite lookup_insert_eq in Ha.
  specialize (Ha eq_refl eq_refl Hall). cbv zeta in Ha.
  set (data := gzip E (lines (map (content (with_fs (<[temp := File []]> (fs w2)) w2))
                                  (sort_Strings listing)))) in *.
  set (w3 := with_fs (<[temp := File data]> (fs w2)) w2) in *.
  unfold defer in H.
  destruct (aggregate_into E dataType (sort_Strings listing) temp w2) as [w5 r5] eqn:Hbody.
  injection H as <- <-.
  unfold aggregate_into in Hbody.
  rewrite (bind_Ok _ _ _ _ _ (wrap_Ok _ _ _ _ _ Ha)) in Hbody.
  pose proof (MoveToUploading_run E temp dataType w3 data Hb) as Hu.
  rewrite (filepath_Base_snoc agg name : filepath_Base temp = name) in Hu.
  specialize (Hu Hname (lookup_insert_eq _ _ _)). cbv zeta in Hu.
  set (upldir := BaseDir E ++ [dataType; "uploading"%string]) in *.
  set (upl := upldir ++ [name]) in *.
  assert (Hne : temp <> upl) by apply stage_dirs_differ.
  destruct (is_dir (fs w3 !! upl)) eqn:Hud.
  { rewrite (bind_Err _ _ _ _ _ (wrap_Err _ _ _ _ _ Hu)) in Hbody.
    injection Hbody as <- <-. left. split; [|discriminate].
    rewrite os_Remove_puts. exact Hp1. }
  destruct (is_dir (fs w3 !! upldir)) eqn:Hudir.
  2:{ rewrite (bind_Err _ _ _ _ _ (wrap_Err _ _ _ _ _ Hu)) in Hbody.
      injection Hbody as <- <-. left. split; [|discriminate].
      rewrite os_Remove_puts. exact Hp1. }
  rewrite (bind_Ok _ _ _ _ _ (wrap_Ok _ _ _ _ _ Hu)) in Hbody. clear Hu.
  set (w4 := with_fs (<[upl := File data]> (delete temp (fs w3))) w3) in *.
  destruct (UploadAggregatedFile_run E upl dataType w4 data Hb (lookup_insert_eq _ _ _))
    as (input & Hin & Hup).
  change (puts w4) with (puts w1) in Hup. rewrite Hp1 in Hup.
  right. exists (f0 :: files0), w1, listing, input.
  assert (Hdir : fs w1 !! upldir = Some Dir).
  { apply is_dir_true in Hudir. simpl in Hudir.
    rewrite !lookup_insert_ne in Hudir by apply stage_file_ne_dir.
    exact Hudir. }
  assert (Hdata : data = gzip E (lines (map (content (with_fs (<[temp := File []]> (fs w1)) w1))
                                           (sort_Strings listing)))).
  { unfold data. do 2 f_equal. apply map_ext. intros f. apply content_ext.
    simpl. apply insert_insert_eq. }
  split; [exact Hb|]. split; [exact Hfiles|]. split; [exact Hm|].
  split; [exact Hl|]. split; [exact Hdir|]. cbv zeta. fold temp upl.
  rewrite <- Hdata. split; [exact Hin|].
  destruct (put_ok E (length (puts w))) eqn:Hok.
  - rewrite (bind_Ok _ _ _ _ _ (wrap_Ok _ _ _ _ _ Hup)) in Hbody.
    unfold bind, try, RemoveFile, ret in Hbody.
    match type of Hbody with
    | context [os_Remove upl ?w] =>
        pose proof (os_Remove_puts upl w) as Hr1;
        destruct (os_Remove upl w) as [w6 r6]
    end.
    pose proof (remove_aggregated_puts (sort_Strings listing) w6) as Hr2.
    pose proof (remove_aggregated_Ok (sort_Strings listing) w6) as Hr3.
    destruct (remove_aggregated (sort_Strings listing) w6) as [w7 r7].
    simpl in Hr1, Hr2, Hr3. subst r7. injection Hbody as <- <-.
    split; [rewrite os_Remove_puts, Hr2, Hr1; reflexivity|].
    split; [intros Hf; discriminate Hf|reflexivity].
  - rewrite (bind_Err _ _ _ _ _ (wrap_Err _ _ _ _ _ Hup)) in Hbody.
    injection Hbody as <- <-.
    rewrite os_Remove_absent
      by (simpl; rewrite lookup_insert_ne by (apply not_eq_sym; exact Hne);
          apply lookup_delete_eq).
    simpl. split; [reflexivity|]. split; [|intros Hf; discriminate Hf].
    intros _. split; [reflexivity|].
    rewrite !delete_insert_eq. reflexivity.
Qed.

Lemma promoted_eq E dataType w files w1 :
  batched dataType ->
  getFiles (BaseDir E ++ [dataType]) w = (w, Ok files) ->
  MoveToAggregation E files dataType w = (w1, Ok tt) ->
  promoted E dataType w = w1.
Proof.
  intros Hb Hf Hm. unfold promoted.
  assert (Hg : getFilesToAggregate E dataType w = (w, Ok files)).
  { destruct Hb as [-> | ->]; exact Hf. }
  rewrite Hg, Hm. reflexivity.
Qed.

Lemma lines_app a b : lines (a ++ b) = lines a ++ lines b.
Proof. unfold lines. rewrite map_app, concat_app. reflexivity. Qed.

Lemma lines_cons c l : lines (c :: l) = (c ++ [newline]) ++ lines l.
Proof. reflexivity. Qed.

(** ** Order in the artifact *)

(** C8: the records of an artifact stand in the order of their names.  When
    a cycle has put an object, the object is the compressed form of a stream
    in which, for any two files of the aggregation directory (as the
    promotion of that cycle left it) of which the first has the smaller
    name, the content of the first with its newline stands before the
    content of the second with its newline.  (The name of the artifact
    itself is set apart: it is not the name of a record.) *)
Theorem aggregate_order_preserved
    (E : Env) (dataType : string) (w w' : World) (r : result unit)
    (input : PutObjectInput) (ok : bool) (n1 n2 : string) (c1 c2 : bytes) :
  AggregateAndUpload E dataType w = (w', r) ->
  puts w' = puts w ++ [(input, ok)] ->
  valid_name n1 = true -> valid_name n2 = true ->
  n1 <> temp_name E w -> n2 <> temp_name E w ->
  fs (promoted E dataType w) !! ((BaseDir E ++ [dataType; "aggregation"%string]) ++ [n1])
  = Some (File c1) ->
  fs (promoted E dataType w) !! ((BaseDir E ++ [dataType; "aggregation"%string]) ++ [n2])
  = Some (File c2) ->
  String.ltb n1 n2 = true ->
  exists pre mid post,
    Body input = gzip E (pre ++ (c1 ++ [newline]) ++ mid ++ (c2 ++ [newline]) ++ post).
Proof.
  intros H Hput Hv1 Hv2 Ht1 Ht2 Hc1 Hc2 Hlt.
  destruct (AggregateAndUpload_cases _ _ _ _ _ H) as [[Hq _]|Hcase].
  { exfalso. rewrite Hq in Hput. symmetry in Hput. exact (list_ne_app_cons _ _ _ Hput). }
  destruct Hcase as (files & w1 & listing & input' & Hb & Hf & Hm & Hl & _ & Hrest).
  cbv zeta in Hrest. destruct Hrest as (Hbody & Hput' & _).
  rewrite Hput in Hput'. apply app_inv_head in Hput'. injection Hput' as <- _.
  rewrite (promoted_eq _ _ _ _ _ Hb Hf Hm) in Hc1, Hc2.
  set (agg := BaseDir E ++ [dataType; "aggregation"%string]) in *.
  set (temp := agg ++ [temp_name E w]) in *.
  assert (Hin1 : agg ++ [n1] ∈ listing).
  { apply (getFiles_elem_of _ _ _ _ Hl). exists n1, c1. auto. }
  assert (Hin2 : agg ++ [n2] ∈ listing).
  { apply (getFiles_elem_of _ _ _ _ Hl). exists n2, c2. auto. }
  assert (Hlt' : String.ltb (path_string (agg ++ [n1])) (path_string (agg ++ [n2])) = true).
  { unfold String.ltb in *. rewrite path_string_compare. exact Hlt. }
  destruct (sort_Strings_split _ _ _ Hin1 Hin2 Hlt') as (l1 & l2 & l3 & Hs).
  rewrite Hs in Hbody.
  set (w2 := with_fs (<[temp := File []]> (fs w1)) w1) in *.
  assert (Hr1 : content w2 (agg ++ [n1]) = c1).
  { apply content_file. simpl. rewrite lookup_insert_ne; [exact Hc1|].
    unfold temp. intros Heq. apply app_inj_tail in Heq. destruct Heq as [_ Heq].
    apply Ht1. symmetry. exact Heq. }
  assert (Hr2 : content w2 (agg ++ [n2]) = c2).
  { apply content_file. simpl. rewrite lookup_insert_ne; [exact Hc2|].
    unfold temp. intros Heq. apply app_inj_tail in Heq. destruct Heq as [_ Heq].
    apply Ht2. symmetry. exact Heq. }
  exists (lines (map (content w2) l1)), (lines (map (content w2) l2)),
         (lines (map (content w2) l3)).
  rewrite Hbody. f_equal.
  rewrite map_app, lines_app. simpl map. rewrite lines_cons.
  rewrite map_app, lines_app. simpl map. rewrite lines_cons.
  rewrite Hr1, Hr2. rewrite <- !app_assoc. reflexivity.
Qed.

Lemma aggregate_order_preserved_witness :
  let E := Example.calm in
  let w := Example.two_records in
  let input := mkPut "usage-bucket" "u/2024/01/01/12/2024010112.gw-example.jsonl.gz"
                     [x61; newline; x63; newline] "application/gzip" [] in
  let agg := BaseDir E ++ ["usage"%string; "aggregation"%string] in
  puts (fst (AggregateAndUpload E "usage" w)) = puts w ++ [(input, true)] /\
  fs (promoted E "usage" w) !! (agg ++ [Example.name_of "alice"]) = Some (File [x61]) /\
  fs (promoted E "usage" w) !! (agg ++ [Example.name_of "carol"]) = Some (File [x63]) /\
  String.ltb (Example.name_of "alice") (Example.name_of "carol") = true /\
  exists pre mid post,
    Body input = gzip E (pre ++ ([x61] ++ [newline]) ++ mid ++ ([x63] ++ [newline]) ++ post).
Proof.
  intros E w input agg.
  assert (H1 : puts (fst (AggregateAndUpload E "usage" w)) = puts w ++ [(input, true)])
    by (vm_compute; reflexivity).
  assert (H2 : fs (promoted E "usage" w) !! (agg ++ [Example.name_of "alice"])
               = Some (File [x61])) by (vm_compute; reflexivity).
  assert (H3 : fs (promoted E "usage" w) !! (agg ++ [Example.name_of "carol"])
               = Some (File [x63])) by (vm_compute; reflexivity).
  assert (H4 : String.ltb (Example.name_of "alice") (Example.name_of "carol") = true)
    by (vm_compute; reflexivity).
  split; [exact H1|]. split; [exact H2|]. split; [exact H3|]. split; [exact H4|].
  apply (aggregate_order_preserved E "usage" w (fst (AggregateAndUpload E "usage" w))
           (snd (AggregateAndUpload E "usage" w)) input true
           (Example.name_of "alice") (Example.name_of "carol") [x61] [x63]).
  - apply run_pair. reflexivity.
  - exact H1.
  - vm_compute. reflexivity.
  - vm_compute. reflexivity.
  - vm_compute. discriminate.
  - vm_compute. discriminate.
  - exact H2.
  - exact H3.
  - exact H4.
Defined.

(** ** The retry of what is in the uploading directory *)

Lemma UploadAggregatedFile_puts E p dataType w :
  fs (fst (UploadAggregatedFile E p dataType w)) = fs w /\
  exists post, puts (fst (UploadAggregatedFile E p dataType w)) = puts w ++ post.
Proof.
  assert (Hquiet : forall e,
             fs (fst (w, @Err unit e)) = fs w /\
             exists post, puts (fst (w, @Err unit e)) = puts w ++ post).
  { intros e. split; [reflexivity|]. exists []. simpl. rewrite app_nil_r. reflexivity. }
  unfold UploadAggregatedFile.
  destruct (os_ReadFile p w) as [w0 [data|e]] eqn:Hr.
  - assert (w0 = w) as ->.
    { unfold os_ReadFile in Hr. destruct (fs w !! p) as [[d|]|]; injection Hr as <- _;
        reflexivity. }
    rewrite (bind_Ok _ _ _ _ _ (wrap_Ok _ _ _ _ _ Hr)).
    destruct (String.eqb dataType "usage"); [|destruct (String.eqb dataType "error")];
      unfold bind, ret, fail, time_Now, wrap, PutObject; simpl;
      try (destruct (put_ok E (length (puts w))); simpl;
           (split; [reflexivity|eexists; reflexivity])).
    split; [reflexivity|]. exists []. rewrite app_nil_r. reflexivity.
  - assert (w0 = w) as ->.
    { unfold os_ReadFile in Hr. destruct (fs w !! p) as [[d|]|]; injection Hr as <- _;
        reflexivity. }
    rewrite (bind_Err _ _ _ _ _ (wrap_Err _ _ _ _ _ Hr)). apply Hquiet.
Qed.

Lemma os_Remove_other p q w : q <> p -> fs (fst (os_Remove p w)) !! q = fs w !! q.
Proof.
  intros Hne. unfold os_Remove. destruct (fs w !! p) as [[data|]|]; simpl.
  - apply lookup_delete_ne. apply not_eq_sym. exact Hne.
  - destruct (children p (fs w)); simpl; [|reflexivity].
    apply lookup_delete_ne. apply not_eq_sym. exact Hne.
  - reflexivity.
Qed.

(** One turn of the loop over the uploading files. *)
Lemma upload_remaining_cons E f l dataType w :
  upload_remaining E (f :: l) dataType w
  = upload_remaining E l dataType
      (match snd (UploadAggregatedFile E f dataType w) with
       | Ok _ => fst (os_Remove f (fst (UploadAggregatedFile E f dataType w)))
       | Err _ => fst (UploadAggregatedFile E f dataType w)
       end).
Proof.
  simpl. unfold bind, try, RemoveFile.
  destruct (UploadAggregatedFile E f dataType w) as [w1 [[]|e]]; simpl; [|reflexivity].
  destruct (os_Remove f w1) as [w2 r2]. reflexivity.
Qed.

Lemma upload_remaining_puts E l dataType w :
  exists post, puts (fst (upload_remaining E l dataType w)) = puts w ++ post.
Proof.
  revert w. induction l as [|f l IH]; intros w.
  - exists []. simpl. rewrite app_nil_r. reflexivity.
  - rewrite upload_remaining_cons.
    destruct (UploadAggregatedFile_puts E f dataType w) as [_ [post1 Hp1]].
    destruct (snd (UploadAggregatedFile E f dataType w)).
    + destruct (IH (fst (os_Remove f (fst (UploadAggregatedFile E f dataType w)))))
        as [post2 Hp2].
      rewrite Hp2, os_Remove_puts, Hp1, <- app_assoc. eexists. reflexivity.
    + destruct (IH (fst (UploadAggregatedFile E f dataType w))) as [post2 Hp2].
      rewrite Hp2, Hp1, <- app_assoc. eexists. reflexivity.
Qed.

(** Every file of the list that is there when the loop starts is put, with
    the bytes it holds. *)
Lemma upload_remaining_retries E l dataType w f data :
  batched dataType ->
  f ∈ l -> fs w !! f = Some (File data) ->
  exists input ok pre post,
    puts (fst (upload_remaining E l dataType w)) = puts w ++ pre ++ (input, ok) :: post /\
    Body input = data.
Proof.
  intros Hb. revert w. induction l as [|f0 l IH]; intros w Hin Hf.
  - apply elem_of_nil in Hin. destruct Hin.
  - rewrite upload_remaining_cons.
    destruct (decide (f0 = f)) as [->|Hne].
    + destruct (UploadAggregatedFile_run E f dataType w data Hb Hf) as (input & Hbody & Hup).
      rewrite Hup. simpl fst. simpl snd.
      match goal with
      | |- context [upload_remaining E l dataType ?w1] =>
          destruct (upload_remaining_puts E l dataType w1) as [post Hp]
      end.
      exists input, (put_ok E (length (puts w))), [], post. split; [|exact Hbody].
      rewrite Hp. destruct (put_ok E (length (puts w))); simpl.
      * rewrite os_Remove_puts. simpl. rewrite <- app_assoc. reflexivity.
      * rewrite <- app_assoc. reflexivity.
    + apply elem_of_cons in Hin. destruct Hin as [Heq|Hin]; [congruence|].
      destruct (UploadAggregatedFile_puts E f0 dataType w) as [Hfs [post1 Hp1]].
      destruct (snd (UploadAggregatedFile E f0 dataType w)).
      * destruct (IH (fst (os_Remove f0 (fst (UploadAggregatedFile E f0 dataType w)))) Hin)
          as (input & ok & pre & post & Hp & Hbody).
        { rewrite os_Remove_other by (apply not_eq_sym; exact Hne). rewrite Hfs. exact Hf. }
        exists input, ok, (post1 ++ pre), post. split; [|exact Hbody].
        rewrite Hp, os_Remove_puts, Hp1, <- !app_assoc. reflexivity.
      * destruct (IH (fst (UploadAggregatedFile E f0 dataType w)) Hin)
          as (input & ok & pre & post & Hp & Hbody).
        { rewrite Hfs. exact Hf. }
        exists input, ok, (post1 ++ pre), post. split; [|exact Hbody].
        rewrite Hp, Hp1, <- !app_assoc. reflexivity.
Qed.

(** ** What a computation leaves alone *)

Section Spec.
Context (R : World -> World -> Prop) (R_refl : forall w, R w w)
        (R_trans : forall a b c, R a b -> R b c -> R a c).

Lemma spec_ret {A} (Q : A -> Prop) a : Q a -> spec R Q (ret a).
Proof. intros H w. split; [apply R_refl|]. simpl. intros b Hb. injection Hb as <-. exact H. Qed.

Lemma spec_fail {A} (Q : A -> Prop) e : spec R Q (fail e).
Proof. intros w. split; [apply R_refl|]. simpl. intros b Hb. discriminate Hb. Qed.

Lemma spec_bind {A B} (Q : A -> Prop) (Q' : B -> Prop) (m : M A) (k : A -> M B) :
  spec R Q m -> (forall a, Q a -> spec R Q' (k a)) -> spec R Q' (bind m k).
Proof.
  intros Hm Hk w. unfold bind. destruct (Hm w) as [H1 H2].
  destruct (m w) as [w1 [a|e]]; simpl in *.
  - destruct (Hk a (H2 a eq_refl) w1) as [H3 H4]. split; [|exact H4].
    apply (R_trans _ _ _ H1 H3).
  - split; [exact H1|]. intros b Hb. discriminate Hb.
Qed.

Lemma spec_wrap {A} (Q : A -> Prop) msg (m : M A) : spec R Q m -> spec R Q (wrap msg m).
Proof.
  intros Hm w. unfold wrap. destruct (Hm w) as [H1 H2].
  destruct (m w) as [w1 [a|e]]; simpl in *; split; try exact H1; try exact H2.
  intros b Hb. discriminate Hb.
Qed.

Lemma spec_try {A} (Q : A -> Prop) (m : M A) :
  spec R Q m -> spec R (fun r => forall a, r = Ok a -> Q a) (try m).
Proof.
  intros Hm w. unfold try. destruct (Hm w) as [H1 H2].
  destruct (m w) as [w1 r]; simpl in *. split; [exact H1|].
  intros r' Hr. injection Hr as <-. exact H2.
Qed.

Lemma spec_defer {A B} (Q : A -> Prop) (Q' : B -> Prop) (d : M B) (m : M A) :
  spec R Q m -> spec R Q' d -> spec R Q (defer d m).
Proof.
  intros Hm Hd w. unfold defer. destruct (Hm w) as [H1 H2].
  destruct (m w) as [w1 r]; simpl in *. split; [|exact H2].
  apply (R_trans _ _ _ H1). apply Hd.
Qed.

Lemma spec_post {A} (Q Q' : A -> Prop) (m : M A) :
  (forall a, Q a -> Q' a) -> spec R Q m -> spec R Q' m.
Proof.
  intros HQ Hm w. destruct (Hm w) as [H1 H2]. split; [exact H1|].
  intros a Ha. apply HQ, H2, Ha.
Qed.

End Spec.

Lemma outside_refl d w : outside d w w.
Proof. intros p _. reflexivity. Qed.

Lemma outside_trans d a b c : outside d a b -> outside d b c -> outside d a c.
Proof. intros H1 H2 p Hp. rewrite (H2 p Hp). apply H1. exact Hp. Qed.

Lemma outside_same_fs d w w' : fs w' = fs w -> outside d w w'.
Proof. intros H p _. rewrite H. reflexivity. Qed.

Lemma entry_under_prefix d f : entry_under d f -> d `prefix_of` f.
Proof. intros (dir & n & -> & _ & H). apply prefix_app_r. exact H. Qed.

Lemma ne_of_prefix (d p q : path) : d `prefix_of` q -> ~ d `prefix_of` p -> q <> p.
Proof. intros Hq Hp Heq. subst q. apply Hp. exact Hq. Qed.

Lemma os_Rename_outside d a b w :
  d `prefix_of` a -> d `prefix_of` b -> outside d w (fst (os_Rename a b w)).
Proof.
  intros Ha Hb p Hp. unfold os_Rename.
  destruct (fs w !! a) as [[data|]|]; try reflexivity.
  destruct (is_dir (fs w !! b)); [reflexivity|].
  destruct (is_dir (fs w !! filepath_Dir b)); [|reflexivity].
  simpl. rewrite lookup_insert_ne by (apply (ne_of_prefix d); assumption).
  apply lookup_delete_ne. apply (ne_of_prefix d); assumption.
Qed.

Lemma os_Remove_outside d q w :
  d `prefix_of` q -> outside d w (fst (os_Remove q w)).
Proof.
  intros Hq p Hp. apply os_Remove_other. apply not_eq_sym. apply (ne_of_prefix d); assumption.
Qed.

Lemma os_Create_outside d q w :
  d `prefix_of` q -> outside d w (fst (os_Create q w)).
Proof.
  intros Hq p Hp. unfold os_Create. destruct (is_dir (fs w !! q)); [reflexivity|].
  destruct (is_dir (fs w !! filepath_Dir q)); [|reflexivity].
  simpl. apply lookup_insert_ne. apply (ne_of_prefix d); assumption.
Qed.

Lemma spec_os_Remove d q (Q : unit -> Prop) :
  (forall u, Q u) -> d `prefix_of` q -> spec (outside d) Q (os_Remove q).
Proof. intros HQ Hq w. split; [apply os_Remove_outside; exact Hq|]. intros a _. apply HQ. Qed.

Lemma spec_getFiles d dir :
  d `prefix_of` dir -> spec (outside d) (Forall (entry_under d)) (getFiles dir).
Proof.
  intros Hd w. split.
  - rewrite getFiles_world. apply outside_refl.
  - intros l Hl. apply getFiles_run in Hl. apply Forall_forall. intros f Hf.
    apply (getFiles_elem_of _ _ _ _ Hl) in Hf. destruct Hf as (n & data & -> & Hv & _).
    exists dir, n. repeat split; assumption.
Qed.

Lemma spec_MoveToAggregation_loop d agg files :
  d `prefix_of` agg -> Forall (entry_under d) files ->
  spec (outside d) (fun _ => True) (MoveToAggregation_loop agg files).
Proof.
  intros Hagg Hfiles. induction Hfiles as [|f files Hf _ IH]; simpl.
  - apply spec_ret; [apply outside_refl|exact I].
  - apply (spec_bind _ (outside_trans d) (fun _ => True)); [|intros _ _; exact IH].
    apply spec_wrap. intros w. split; [|intros; exact I].
    apply os_Rename_outside; [apply entry_under_prefix; exact Hf|].
    destruct Hf as (dir & n & -> & Hv & _).
    rewrite filepath_Base_snoc, (filepath_Join_valid _ _ Hv).
    apply prefix_app_r. exact Hagg.
Qed.

Lemma aggregateFiles_loop_world files gz w : fst (aggregateFiles_loop files gz w) = w.
Proof.
  revert gz. induction files as [|f files IH]; intros gz; simpl; [reflexivity|].
  unfold bind, try, appendFile, bind, os_ReadFile, ret.
  destruct (fs w !! f) as [[data|]|]; simpl; try reflexivity. apply IH.
Qed.

Lemma spec_aggregateFiles E d files out :
  d `prefix_of` out -> spec (outside d) (fun _ => True) (aggregateFiles E files out).
Proof.
  intros Hout w. split; [|intros; exact I].
  unfold aggregateFiles, bind, wrap.
  pose proof (os_Create_outside d out w Hout) as Hc.
  destruct (os_Create out w) as [w1 [[]|e]]; simpl in Hc; [|exact Hc].
  pose proof (aggregateFiles_loop_world files [] w1) as Hl.
  destruct (aggregateFiles_loop files [] w1) as [w2 [[gz r]|e]]; simpl in Hl; subst w2;
    [|exact Hc].
  unfold os_WriteFile. simpl.
  assert (Ho : outside d w (with_fs (<[out := File (gzip E gz)]> (fs w1)) w1)).
  { intros p Hp. simpl. rewrite lookup_insert_ne by (apply (ne_of_prefix d); assumption).
    apply Hc. exact Hp. }
  destruct r; exact Ho.
Qed.

Lemma spec_MoveToUploading E d dataType file :
  d = BaseDir E ++ [dataType] -> batched dataType -> entry_under d file ->
  spec (outside d) (entry_under d) (MoveToUploading E file dataType).
Proof.
  intros -> Hb Hf. unfold MoveToUploading.
  rewrite filepath_Join_stage by (auto; right; reflexivity).
  pose proof (entry_under_prefix _ _ Hf) as Hpre.
  destruct Hf as (dir & n & -> & Hv & Hdir).
  rewrite filepath_Base_snoc, (filepath_Join_valid _ _ Hv).
  assert (Hup : BaseDir E ++ [dataType]
                `prefix_of` BaseDir E ++ [dataType; "uploading"%string]).
  { exists ["uploading"%string]. rewrite <- app_assoc. reflexivity. }
  apply (spec_bind _ (outside_trans _) (fun _ => True)).
  - apply spec_wrap. intros w. split; [|intros; exact I].
    apply os_Rename_outside; [exact Hpre|]. apply prefix_app_r. exact Hup.
  - intros _ _. apply spec_ret; [apply outside_refl|].
    eexists _, n. repeat split; [exact Hv|exact Hup].
Qed.

Lemma spec_UploadAggregatedFile E d p dataType :
  spec (outside d) (fun _ => True) (UploadAggregatedFile E p dataType).
Proof.
  intros w. split; [|intros; exact I].
  apply outside_same_fs. apply UploadAggregatedFile_puts.
Qed.

Lemma spec_remove_aggregated d files :
  Forall (entry_under d) files -> spec (outside d) (fun _ => True) (remove_aggregated files).
Proof.
  intros Hfiles. induction Hfiles as [|f files Hf _ IH]; simpl.
  - apply spec_ret; [apply outside_refl|exact I].
  - apply (spec_bind _ (outside_trans d) (fun _ => True)); [|intros _ _; exact IH].
    apply (spec_post _ (fun r => forall a, r = Ok a -> True)); [intros; exact I|].
    apply spec_try. apply spec_os_Remove; [intros; exact I|].
    apply entry_under_prefix. exact Hf.
Qed.

Lemma spec_createTempFile E d dataType :
  d = BaseDir E ++ [dataType] -> batched dataType ->
  spec (outside d) (entry_under d) (createTempFile E dataType).
Proof.
  intros -> Hb w. rewrite (createTempFile_run E dataType w Hb). cbv zeta.
  set (agg := BaseDir E ++ [dataType; "aggregation"%string]).
  assert (Hagg : BaseDir E ++ [dataType] `prefix_of` agg).
  { exists ["aggregation"%string]. unfold agg. rewrite <- app_assoc. reflexivity. }
  assert (He : entry_under (BaseDir E ++ [dataType]) (agg ++ [temp_name E w])).
  { exists agg, (temp_name E w). repeat split; [apply valid_temp_name|exact Hagg]. }
  destruct (is_dir (fs w !! (agg ++ [temp_name E w]))); simpl.
  - split; [apply outside_same_fs; reflexivity|]. intros a Ha. discriminate Ha.
  - destruct (is_dir (fs w !! agg)); simpl.
    + split.
      * intros p Hp. simpl. apply lookup_insert_ne.
        apply (ne_of_prefix (BaseDir E ++ [dataType])); [|exact Hp].
        apply entry_under_prefix. exact He.
      * intros a Ha. injection Ha as <-. exact He.
    + split; [apply outside_same_fs; reflexivity|]. intros a Ha. discriminate Ha.
Qed.

Lemma Forall_sort_Strings (P : path -> Prop) l : Forall P l -> Forall P (sort_Strings l).
Proof.
  rewrite !Forall_forall. intros H f Hf. apply H.
  apply (proj1 (sort_Strings_elem_of _ _)). exact Hf.
Qed.

Lemma spec_aggregate_into E d dataType files temp :
  d = BaseDir E ++ [dataType] -> batched dataType ->
  Forall (entry_under d) files -> entry_under d temp ->
  spec (outside d) (fun _ => True) (aggregate_into E dataType files temp).
Proof.
  intros Hd Hb Hfiles Htemp. unfold aggregate_into.
  apply (spec_bind _ (outside_trans d) (fun _ => True)).
  { apply spec_wrap. apply spec_aggregateFiles. apply entry_under_prefix. exact Htemp. }
  intros _ _. apply (spec_bind _ (outside_trans d) (entry_under d)).
  { apply spec_wrap. apply spec_MoveToUploading; assumption. }
  intros uploadingPath Hup. apply (spec_bind _ (outside_trans d) (fun _ => True)).
  { apply spec_wrap. apply spec_UploadAggregatedFile. }
  intros _ _. apply (spec_bind _ (outside_trans d) (fun _ => True)).
  { apply (spec_post _ (fun r => forall a, r = Ok a -> True)); [intros; exact I|].
    apply spec_try. apply spec_os_Remove; [intros; exact I|].
    apply entry_under_prefix. exact Hup. }
  intros _ _. apply (spec_bind _ (outside_trans d) (fun _ => True)).
  { apply spec_remove_aggregated. exact Hfiles. }
  intros _ _. apply spec_ret; [apply outside_refl|exact I].
Qed.

(** A cycle of a batched kind changes nothing outside the directory of that
    kind. *)
Lemma spec_AggregateAndUpload E dataType :
  batched dataType ->
  spec (outside (BaseDir E ++ [dataType])) (fun _ => True) (AggregateAndUpload E dataType).
Proof.
  intros Hb. set (d := BaseDir E ++ [dataType]).
  assert (Hagg : d `prefix_of` BaseDir E ++ [dataType; "aggregation"%string]).
  { exists ["aggregation"%string]. unfold d. rewrite <- app_assoc. reflexivity. }
  unfold AggregateAndUpload.
  apply (spec_bind _ (outside_trans d) (Forall (entry_under d))).
  { apply spec_wrap. unfold getFilesToAggregate.
    destruct Hb as [-> | ->]; simpl; apply spec_getFiles; reflexivity. }
  intros files Hfiles. destruct (length files =? 0)%nat.
  { apply spec_ret; [apply outside_refl|exact I]. }
  apply (spec_bind _ (outside_trans d) (fun _ => True)).
  { apply spec_wrap. unfold MoveToAggregation.
    rewrite filepath_Join_stage by (auto; left; reflexivity).
    apply spec_MoveToAggregation_loop; assumption. }
  intros _ _. apply (spec_bind _ (outside_trans d) (Forall (entry_under d))).
  { apply spec_wrap. unfold GetAggregationFiles.
    rewrite filepath_Join_stage by (auto; left; reflexivity).
    apply spec_getFiles. exact Hagg. }
  intros listing Hlisting. apply (spec_bind _ (outside_trans d) (entry_under d)).
  { apply spec_wrap. apply spec_createTempFile; [reflexivity|exact Hb]. }
  intros temp Htemp. apply (spec_defer _ (outside_trans d) _ (fun _ : unit => True)).
  - apply spec_aggregate_into; [reflexivity|exact Hb| |exact Htemp].
    apply Forall_sort_Strings. exact Hlisting.
  - apply spec_os_Remove; [intros; exact I|]. apply entry_under_prefix. exact Htemp.
Qed.

Lemma spec_upload_remaining E d files dataType :
  Forall (entry_under d) files ->
  spec (outside d) (fun _ => True) (upload_remaining E files dataType).
Proof.
  intros Hfiles. induction Hfiles as [|f files Hf _ IH]; simpl.
  - apply spec_ret; [apply outside_refl|exact I].
  - apply (spec_bind _ (outside_trans d) (fun _ => True)).
    { apply (spec_post _ (fun r => forall a, r = Ok a -> True)); [intros; exact I|].
      apply spec_try. apply spec_UploadAggregatedFile. }
    intros [[]|e] _; [|exact IH].
    apply (spec_bind _ (outside_trans d) (fun _ => True)); [|intros _ _; exact IH].
    apply (spec_post _ (fun r => forall a, r = Ok a -> True)); [intros; exact I|].
    apply spec_try. apply spec_os_Remove; [intros; exact I|].
    apply entry_under_prefix. exact Hf.
Qed.

(** The turn of [ProcessRemaining] for a batched kind changes nothing
    outside the directory of that kind. *)
Lemma spec_process_dataType E dataType :
  batched dataType ->
  spec (outside (BaseDir E ++ [dataType])) (fun _ => True) (process_dataType E dataType).
Proof.
  intros Hb. set (d := BaseDir E ++ [dataType]).
  unfold process_dataType.
  apply (spec_bind _ (outside_trans d)
           (fun r => forall l, r = Ok l -> Forall (entry_under d) l)).
  { apply spec_try. unfold GetUploadingFiles.
    rewrite filepath_Join_stage by (auto; right; reflexivity).
    apply spec_getFiles. exists ["uploading"%string]. unfold d.
    rewrite <- app_assoc. reflexivity. }
  intros [l|e] Hl; [|apply spec_ret; [apply outside_refl|exact I]].
  apply (spec_bind _ (outside_trans d) (fun _ => True)).
  { apply spec_upload_remaining. apply Hl. reflexivity. }
  intros _ _. apply (spec_bind _ (outside_trans d) (fun _ => True)).
  { apply (spec_post _ (fun r => forall a, r = Ok a -> True)); [intros; exact I|].
    apply spec_try. apply spec_AggregateAndUpload. exact Hb. }
  intros _ _. apply spec_ret; [apply outside_refl|exact I].
Qed.

(** ** The log of the object store *)

Lemma grows_refl w : grows w w.
Proof. unfold grows. reflexivity. Qed.

Lemma grows_trans a b c : grows a b -> grows b c -> grows a c.
Proof. unfold grows. intros H1 H2. etransitivity; eassumption. Qed.

Lemma spec_grows_quiet {A} (m : M A) :
  (forall w, puts (fst (m w)) = puts w) -> spec grows (fun _ => True) m.
Proof. intros H w. split; [|intros; exact I]. unfold grows. rewrite H. reflexivity. Qed.

Lemma spec_grows_of_app {A} (m : M A) :
  (forall w, exists post, puts (fst (m w)) = puts w ++ post) -> spec grows (fun _ => True) m.
Proof.
  intros H w. split; [|intros; exact I]. destruct (H w) as [post Hp].
  exists post. exact Hp.
Qed.

Lemma AggregateAndUpload_grows E dataType :
  spec grows (fun _ => True) (AggregateAndUpload E dataType).
Proof.
  apply spec_grows_of_app. intros w.
  destruct (AggregateAndUpload E dataType w) as [w' r] eqn:H.
  destruct (AggregateAndUpload_cases _ _ _ _ _ H) as [[Hq _]|Hcase]; simpl.
  - exists []. rewrite app_nil_r. exact Hq.
  - destruct Hcase as (files & w1 & listing & input & _ & _ & _ & _ & _ & Hrest).
    cbv zeta in Hrest. destruct Hrest as (_ & Hput & _). eexists. exact Hput.
Qed.

Lemma upload_remaining_Ok E l dataType w : snd (upload_remaining E l dataType w) = Ok tt.
Proof.
  revert w. induction l as [|f l IH]; intros w; [reflexivity|].
  rewrite upload_remaining_cons. apply IH.
Qed.

Lemma process_dataType_Ok E dataType w : snd (process_dataType E dataType w) = Ok tt.
Proof.
  unfold process_dataType, bind, try.
  destruct (GetUploadingFiles E dataType w) as [w1 [l|e]]; [|reflexivity].
  pose proof (upload_remaining_Ok E l dataType w1) as Hu.
  destruct (upload_remaining E l dataType w1) as [w2 r2]. simpl in Hu. subst r2.
  destruct (AggregateAndUpload E dataType w2) as [w3 r]. reflexivity.
Qed.

(** The turn of a kind, once the uploading directory is listed: the loop
    over that list, then one cycle. *)
Lemma process_dataType_run E dataType w l :
  GetUploadingFiles E dataType w = (w, Ok l) ->
  fst (process_dataType E dataType w)
  = fst (AggregateAndUpload E dataType (fst (upload_remaining E l dataType w))).
Proof.
  intros Hl. unfold process_dataType, bind, try. rewrite Hl.
  pose proof (upload_remaining_Ok E l dataType w) as Hu.
  destruct (upload_remaining E l dataType w) as [w2 r2]. simpl in Hu. subst r2. simpl.
  destruct (AggregateAndUpload E dataType w2) as [w3 r]. reflexivity.
Qed.

Lemma process_dataType_grows E dataType :
  spec grows (fun _ => True) (process_dataType E dataType).
Proof.
  unfold process_dataType.
  apply (spec_bind _ grows_trans (fun _ => True)).
  { apply spec_grows_quiet. intros w. unfold try, GetUploadingFiles.
    pose proof (getFiles_world (filepath_Join (BaseDir E) [dataType; "uploading"%string]) w)
      as Hw.
    destruct (getFiles _ w) as [w1 r]. simpl in *. subst w1. reflexivity. }
  intros [l|e] _; [|apply spec_ret; [apply grows_refl|exact I]].
  apply (spec_bind _ grows_trans (fun _ => True)).
  { apply spec_grows_of_app. apply upload_remaining_puts. }
  intros _ _. apply (spec_bind _ grows_trans (fun _ => True)).
  { apply (spec_post _ (fun r => forall a, r = Ok a -> True)); [intros; exact I|].
    apply spec_try. apply AggregateAndUpload_grows. }
  intros _ _. apply spec_ret; [apply grows_refl|exact I].
Qed.

Lemma uploadSpecimenFile_grows E filePath user uri :
  spec grows (fun _ => True) (uploadSpecimenFile E filePath user uri).
Proof.
  unfold uploadSpecimenFile.
  apply (spec_bind _ grows_trans (fun _ => True)).
  { apply spec_wrap. apply spec_grows_quiet. intros w. unfold ReadFile, os_ReadFile.
    destruct (fs w !! filePath) as [[d|]|]; reflexivity. }
  intros data _. destruct (GetSpecimenInfo filePath) as [[u t]|e].
  - apply spec_wrap. apply spec_grows_of_app. intros w. unfold PutObject. simpl.
    eexists. reflexivity.
  - apply spec_fail. apply grows_refl.
Qed.

Lemma UploadSpecimen_grows E user uri : spec grows (fun _ => True) (UploadSpecimen E user uri).
Proof.
  unfold UploadSpecimen.
  apply (spec_bind _ grows_trans (fun _ => True)).
  { apply spec_wrap. apply spec_grows_quiet. intros w. unfold GetSpecimenFiles.
    rewrite getFiles_world. reflexivity. }
  intros files _. destruct (find_targetFile uri files) as [targetFile|].
  2:{ apply spec_fail. apply grows_refl. }
  apply (spec_bind _ grows_trans (fun _ => True)).
  { apply spec_wrap. unfold MoveToUploading.
    apply (spec_bind _ grows_trans (fun _ => True)).
    - apply spec_wrap. apply spec_grows_quiet. intros w. apply os_Rename_puts.
    - intros _ _. apply spec_ret; [apply grows_refl|exact I]. }
  intros uploadingPath _. apply (spec_bind _ grows_trans (fun _ => True)).
  { apply uploadSpecimenFile_grows. }
  intros _ _. apply (spec_bind _ grows_trans (fun _ => True)).
  { apply (spec_post _ (fun r => forall a, r = Ok a -> True)); [intros; exact I|].
    apply spec_try. apply spec_grows_quiet. intros w. apply os_Remove_puts. }
  intros _ _. apply spec_ret; [apply grows_refl|exact I].
Qed.

Lemma upload_specimens_grows E files : spec grows (fun _ => True) (upload_specimens E files).
Proof.
  induction files as [|f files IH]; simpl.
  - apply spec_ret; [apply grows_refl|exact I].
  - destruct (GetSpecimenInfo f) as [[uri t]|e]; [|exact IH].
    apply (spec_bind _ grows_trans (fun _ => True)); [|intros _ _; exact IH].
    apply (spec_post _ (fun r => forall a, r = Ok a -> True)); [intros; exact I|].
    apply spec_try. apply UploadSpecimen_grows.
Qed.

(** [ProcessRemaining] is the turn of usage, the turn of error and the
    specimens; what the turns have put stays in the log. *)
Lemma ProcessRemaining_grows_from E w :
  grows (fst (process_dataType E "error" (fst (process_dataType E "usage" w))))
        (fst (ProcessRemaining E w)).
Proof.
  unfold ProcessRemaining, bind.
  pose proof (process_dataType_Ok E "usage" w) as H1.
  destruct (process_dataType E "usage" w) as [w1 r1]. simpl in H1. subst r1. simpl.
  pose proof (process_dataType_Ok E "error" w1) as H2.
  destruct (process_dataType E "error" w1) as [w2 r2]. simpl in H2. subst r2. simpl.
  assert (Hs : spec grows (fun _ => True)
                 (bind (GetSpecimenFiles E)
                       (fun specimenFiles =>
                          bind (upload_specimens E specimenFiles) (fun _ => ret tt)))).
  { apply (spec_bind _ grows_trans (fun _ => True)).
    - apply spec_grows_quiet. intros w0. unfold GetSpecimenFiles.
      rewrite getFiles_world. reflexivity.
    - intros files _. apply (spec_bind _ grows_trans (fun _ => True)).
      + apply upload_specimens_grows.
      + intros _ _. apply spec_ret; [apply grows_refl|exact I]. }
  apply (Hs w2).
Qed.

Lemma grows_keeps {w a b : World} {pre post : list (PutObjectInput * bool)} {x} :
  puts a = puts w ++ pre ++ x :: post -> grows a b ->
  exists post', puts b = puts w ++ pre ++ x :: post'.
Proof.
  intros Ha [k Hk]. exists (post ++ k). rewrite Hk, Ha, <- !app_assoc. reflexivity.
Qed.

Lemma usage_not_prefix_of_error E (rest : path) :
  ~ (BaseDir E ++ ["usage"%string]) `prefix_of` (BaseDir E ++ "error"%string :: rest).
Proof.
  intros H. apply prefix_app_inv in H. apply prefix_cons_inv_1 in H. discriminate H.
Qed.

(** ** A failed upload *)

(** C6: when the put of the artifact fails, [AggregateAndUpload] deletes
    nothing.  With [w1] the world its promotion left: the artifact, the
    compressed stream of the sorted files of the aggregation directory, is
    in the uploading directory; every other entry of the store is as the
    promotion left it (but for the path of the temporary file, which is
    free again), so every file that was aggregated is still on disk; and the
    next [ProcessRemaining], in its turn for that data type, finds the
    artifact in the listing of the uploading directory and the loop over
    that listing puts the bytes of that file. *)
Theorem upload_failure_retains_artifact
    (E : Env) (dataType : string) (w w' : World) :
  AggregateAndUpload E dataType w = (w', Err upload_failed) ->
  let agg := BaseDir E ++ [dataType; "aggregation"%string] in
  let temp := agg ++ [temp_name E w] in
  let upl := (BaseDir E ++ [dataType; "uploading"%string]) ++ [temp_name E w] in
  let w1 := promoted E dataType w in
  exists listing,
    getFiles agg w1 = (w1, Ok listing) /\
    let artifact :=
      gzip E (lines (map (content (with_fs (<[temp := File []]> (fs w1)) w1))
                         (sort_Strings listing))) in
    fs w' !! upl = Some (File artifact) /\
    (forall p, p <> temp -> p <> upl -> fs w' !! p = fs w1 !! p) /\
    (forall f, f ∈ listing -> f <> temp ->
       exists data, fs w1 !! f = Some (File data) /\ fs w' !! f = Some (File data)) /\
    let w0 := before_turn E dataType w' in
    exists l,
      GetUploadingFiles E dataType w0 = (w0, Ok l) /\
      upl ∈ l /\
      fs w0 !! upl = Some (File artifact) /\
      (exists input ok pre post,
         puts (fst (upload_remaining E l dataType w0))
         = puts w0 ++ pre ++ (input, ok) :: post /\
         Body input = artifact) /\
      (exists input ok pre post,
         puts (fst (ProcessRemaining E w')) = puts w' ++ pre ++ (input, ok) :: post /\
         Body input = artifact).
Proof.
  intros H agg temp upl w1.
  destruct (AggregateAndUpload_cases _ _ _ _ _ H) as [[_ Hne]|Hcase].
  { exfalso. apply Hne. reflexivity. }
  destruct Hcase as (files & w1' & listing & input0 & Hb & Hf & Hm & Hl & Hdir & Hrest).
  cbv zeta in Hrest. destruct Hrest as (_ & _ & Hfail & Hgood).
  assert (Hw1 : w1 = w1') by (apply (promoted_eq _ _ _ _ _ Hb Hf Hm)).
  clearbody w1. subst w1'.
  destruct (put_ok E (length (puts w))) eqn:Hok.
  { specialize (Hgood eq_refl). discriminate Hgood. }
  destruct (Hfail eq_refl) as [_ Hfs]. clear Hfail Hgood.
  fold agg in Hl, Hfs. fold temp upl in Hfs.
  set (artifact := gzip E (lines (map (content (with_fs (<[temp := File []]> (fs w1)) w1))
                                      (sort_Strings listing)))) in *.
  set (upldir := BaseDir E ++ [dataType; "uploading"%string]) in *.
  assert (Hupl : fs w' !! upl = Some (File artifact)).
  { rewrite Hfs. apply lookup_insert_eq. }
  assert (Hother : forall p, p <> temp -> p <> upl -> fs w' !! p = fs w1 !! p).
  { intros p Hp1 Hp2. rewrite Hfs.
    rewrite lookup_insert_ne by (apply not_eq_sym; exact Hp2).
    apply lookup_delete_ne. apply not_eq_sym. exact Hp1. }
  assert (Hupldir : fs w' !! upldir = Some Dir).
  { rewrite Hother; [exact Hdir| |].
    - apply not_eq_sym. apply stage_file_ne_dir.
    - apply not_eq_sym. apply snoc_ne_dir. }
  exists listing. split; [exact Hl|]. cbv zeta.
  split; [exact Hupl|]. split; [exact Hother|]. split.
  { intros f Hin Hft. apply (getFiles_elem_of _ _ _ _ Hl) in Hin.
    destruct Hin as (n & data & -> & _ & Hd). exists data. split; [exact Hd|].
    rewrite Hother; [exact Hd|exact Hft|]. apply stage_dirs_differ. }
  set (w0 := before_turn E dataType w').
  assert (Hw0 : grows w' w0 /\ fs w0 !! upl = Some (File artifact)
                /\ fs w0 !! upldir = Some Dir
                /\ grows (fst (process_dataType E dataType w0)) (fst (ProcessRemaining E w'))).
  { unfold w0, before_turn. destruct Hb as [-> | ->]; simpl.
    - split; [apply grows_refl|]. split; [exact Hupl|]. split; [exact Hupldir|].
      eapply grows_trans; [|apply ProcessRemaining_grows_from].
      apply process_dataType_grows.
    - destruct (spec_process_dataType E "usage" (or_introl eq_refl) w') as [Hout _].
      split; [apply process_dataType_grows|].
      split; [|split; [|apply ProcessRemaining_grows_from]].
      + rewrite Hout; [exact Hupl|]. unfold upl, upldir. rewrite <- app_assoc.
        apply usage_not_prefix_of_error.
      + rewrite Hout; [exact Hupldir|]. apply usage_not_prefix_of_error. }
  destruct Hw0 as (Hg0 & Hupl0 & Hdir0 & Hgp).
  destruct (getFiles_of_dir upldir w0 Hdir0) as [l Hlist].
  assert (Hin : upl ∈ l).
  { apply (getFiles_elem_of _ _ _ _ Hlist). exists (temp_name E w), artifact.
    split; [reflexivity|]. split; [apply valid_temp_name|exact Hupl0]. }
  assert (Hlist' : GetUploadingFiles E dataType w0 = (w0, Ok l)).
  { unfold GetUploadingFiles. rewrite filepath_Join_stage by (auto; right; reflexivity).
    exact Hlist. }
  destruct (upload_remaining_retries E l dataType w0 upl artifact Hb Hin Hupl0)
    as (input & ok & pre & post & Hputs & Hbody).
  exists l. split; [exact Hlist'|]. split; [exact Hin|]. split; [exact Hupl0|].
  split; [exists input, ok, pre, post; split; assumption|].
  destruct Hg0 as [k0 Hk0].
  assert (Hputs' : puts (fst (upload_remaining E l dataType w0))
                   = puts w' ++ (k0 ++ pre) ++ (input, ok) :: post).
  { rewrite Hputs, Hk0, <- !app_assoc. reflexivity. }
  assert (Hturn : grows (fst (upload_remaining E l dataType w0))
                        (fst (process_dataType E dataType w0))).
  { rewrite (process_dataType_run _ _ _ _ Hlist'). apply AggregateAndUpload_grows. }
  destruct (grows_keeps Hputs' (grows_trans _ _ _ Hturn Hgp)) as [post' Hfinal].
  exists input, ok, (k0 ++ pre), post'. split; [exact Hfinal|exact Hbody].
Qed.

Lemma upload_failure_retains_artifact_witness :
  let E := Scenario.flaky in
  let w := Example.two_records in
  let w' := fst (AggregateAndUpload E "usage" w) in
  let upl := Example.uploading_dir ++ [temp_name E w] in
  snd (AggregateAndUpload E "usage" w) = Err upload_failed /\
  (exists listing,
     getFiles Example.aggregation_dir (promoted E "usage" w)
     = (promoted E "usage" w, Ok listing) /\
     fs w' !! upl
     = Some (File (gzip E (lines (map (content
                                         (with_fs (<[Example.aggregation_dir ++ [temp_name E w]
                                                     := File []]> (fs (promoted E "usage" w)))
                                                  (promoted E "usage" w)))
                                      (sort_Strings listing))))) /\
     exists input ok pre post,
       puts (fst (ProcessRemaining E w')) = puts w' ++ pre ++ (input, ok) :: post /\
       Body input
       = gzip E (lines (map (content
                               (with_fs (<[Example.aggregation_dir ++ [temp_name E w]
                                           := File []]> (fs (promoted E "usage" w)))
                                        (promoted E "usage" w)))
                            (sort_Strings listing)))).
Proof.
  intros E w w' upl.
  assert (H : snd (AggregateAndUpload E "usage" w) = Err upload_failed)
    by (vm_compute; reflexivity).
  split; [exact H|].
  destruct (upload_failure_retains_artifact E "usage" w w' (run_pair _ _ _ H))
    as (listing & Hl & Hart & _ & _ & l & _ & _ & _ & _ & Hput).
  exists listing. split; [exact Hl|]. split; [exact Hart|exact Hput].
Defined.

(** ** The URI in the name of a specimen *)

Lemma QueryEscape_cons c s :
  QueryEscape (String c s) = QueryEscape (String c EmptyString) +:+ QueryEscape s.
Proof.
  simpl. destruct (shouldEscape c); [|reflexivity].
  destruct (Ascii.eqb c " "); reflexivity.
Qed.

Lemma QueryUnescape_escaped_byte c rest :
  QueryUnescape (QueryEscape (String c EmptyString) +:+ rest)
  = match QueryUnescape rest with
    | Ok t => Ok (String c t)
    | Err e => Err e
    end.
Proof.
  destruct c as [[] [] [] [] [] [] [] []]; reflexivity.
Qed.

(** What [QueryEscape] made of a text, [QueryUnescape] turns back into the
    text, whatever its bytes. *)
Lemma QueryUnescape_QueryEscape s : QueryUnescape (QueryEscape s) = Ok s.
Proof.
  induction s as [|c s IH]; [reflexivity|].
  rewrite QueryEscape_cons, QueryUnescape_escaped_byte, IH. reflexivity.
Qed.

(** ** The time in the name of a specimen *)

Lemma forall_below (P : Z -> bool) (n : Z) :
  forallb P (map Z.of_nat (seq 0 (Z.to_nat n))) = true ->
  forall x, 0 <= x < n -> P x = true.
Proof.
  intros H x Hx. rewrite forallb_forall in H. apply H.
  apply in_map_iff. exists (Z.to_nat x). split; [lia|].
  apply in_seq. lia.
Qed.

Lemma appendInt_two_digits x : 0 <= x < 100 -> appendInt x 2 = two_digits x.
Proof.
  intros Hx. apply String.eqb_eq.
  apply (forall_below (fun x => String.eqb (appendInt x 2) (two_digits x)) 100);
    [vm_compute; reflexivity|exact Hx].
Qed.

Lemma appendInt_four_digits x : 0 <= x < 10000 -> appendInt x 4 = four_digits x.
Proof.
  intros Hx. apply String.eqb_eq.
  apply (forall_below (fun x => String.eqb (appendInt x 4) (four_digits x)) 10000);
    [vm_compute; reflexivity|exact Hx].
Qed.

Lemma digit_cases d : 0 <= d <= 9 ->
  d = 0 \/ d = 1 \/ d = 2 \/ d = 3 \/ d = 4 \/ d = 5 \/ d = 6 \/ d = 7 \/ d = 8 \/ d = 9.
Proof. lia. Qed.

Lemma is_digit_digit_char d : 0 <= d <= 9 -> is_digit (digit_char d) = true.
Proof.
  intros H. destruct (digit_cases d H) as [->|[->|[->|[->|[->|[->|[->|[->|[->| ->]]]]]]]]];
    reflexivity.
Qed.

Lemma digit_val_digit_char d : 0 <= d <= 9 -> digit_val (digit_char d) = d.
Proof.
  intros H. destruct (digit_cases d H) as [->|[->|[->|[->|[->|[->|[->|[->|[->| ->]]]]]]]]];
    reflexivity.
Qed.

Lemma is_digit_no_dot c : is_digit c = true -> Ascii.eqb c "." = false.
Proof.
  destruct (Ascii.eqb_spec c ".") as [->|]; [|reflexivity]. intros H. discriminate H.
Qed.

Lemma all_digits_no_dot s : all_digits s = true -> no_dot s = true.
Proof.
  induction s as [|c s IH]; simpl; [reflexivity|].
  intros H. apply andb_prop in H. destruct H as [Hc Hs].
  rewrite (is_digit_no_dot _ Hc), (IH Hs). reflexivity.
Qed.

Lemma getnum_two_digits x rest fixed :
  0 <= x < 100 -> getnum (two_digits x +:+ rest) fixed = Some (x, rest).
Proof.
  intros Hx. unfold two_digits. rewrite !string_app_cons. unfold getnum.
  assert (H1 : 0 <= x / 10 <= 9) by (split; [apply Z.div_pos|apply Z.lt_succ_r, Z.div_lt_upper_bound]; lia).
  assert (H2 : 0 <= x mod 10 <= 9) by (pose proof (Z.mod_pos_bound x 10); lia).
  rewrite (is_digit_digit_char _ H1), (is_digit_digit_char _ H2).
  rewrite (digit_val_digit_char _ H1), (digit_val_digit_char _ H2).
  do 2 f_equal. pose proof (Z.div_mod x 10). lia.
Qed.

Lemma string_length_app a b : String.length (a +:+ b) = (String.length a + String.length b)%nat.
Proof.
  induction a as [|c a IH]; [reflexivity|]. rewrite string_app_cons. simpl.
  rewrite IH. reflexivity.
Qed.

Lemma substring_all s : String.substring 0 (String.length s) s = s.
Proof. induction s as [|c s IH]; simpl; [reflexivity|]. rewrite IH. reflexivity. Qed.

Lemma string_take_app a b : string_take (String.length a) (a +:+ b) = a.
Proof.
  unfold string_take. induction a as [|c a IH].
  - simpl. destruct b; reflexivity.
  - rewrite string_app_cons. simpl. rewrite IH. reflexivity.
Qed.

Lemma string_take_app_len n a b : String.length a = n -> string_take n (a +:+ b) = a.
Proof. intros <-. apply string_take_app. Qed.

Lemma string_take_all n s : (String.length s <= n)%nat -> string_take n s = s.
Proof.
  unfold string_take. revert n. induction s as [|c s IH]; intros n Hn.
  - destruct n; reflexivity.
  - destruct n as [|n]; simpl in *; [lia|]. rewrite IH by lia. reflexivity.
Qed.

Lemma substring_skip a b m :
  String.substring (String.length a) m (a +:+ b) = String.substring 0 m b.
Proof.
  induction a as [|c a IH]; [reflexivity|]. rewrite string_app_cons. simpl. exact IH.
Qed.

Lemma string_drop_app a b : string_drop (String.length a) (a +:+ b) = b.
Proof.
  unfold string_drop. rewrite substring_skip, string_length_app.
  replace (String.length a + String.length b - String.length a)%nat
    with (String.length b) by lia.
  apply substring_all.
Qed.

Lemma atoi_from_digits s : forall acc,
  all_digits s = true ->
  atoi_from acc s = Some (acc * 10 ^ Z.of_nat (String.length s) + dval s).
Proof.
  induction s as [|c s IH]; intros acc H; simpl.
  - f_equal. lia.
  - apply andb_prop in H. destruct H as [Hc Hs]. rewrite Hc, (IH _ Hs). f_equal.
    rewrite Nat2Z.inj_succ, Z.pow_succ_r by lia. ring.
Qed.

Lemma dval_nonneg s : all_digits s = true -> 0 <= dval s.
Proof.
  induction s as [|c s IH]; simpl; [lia|].
  intros H. apply andb_prop in H. destruct H as [Hc Hs].
  assert (0 <= digit_val c).
  { unfold is_digit in Hc. unfold digit_val. lia. }
  specialize (IH Hs). assert (0 <= 10 ^ Z.of_nat (String.length s)) by (apply Z.pow_nonneg; lia).
  nia.
Qed.

(** [digits] writes the digits in front of what is there. *)
Lemma digits_acc width : forall u acc,
  digits width u acc = digits width u EmptyString +:+ acc.
Proof.
  induction width as [|width IH]; intros u acc; simpl; [reflexivity|].
  rewrite (IH (u / 10) (String _ acc)), (IH (u / 10) (String _ EmptyString)).
  rewrite string_app_assoc. reflexivity.
Qed.

Lemma digits_spec width : forall u,
  0 <= u ->
  all_digits (digits width u EmptyString) = true /\
  String.length (digits width u EmptyString) = width /\
  dval (digits width u EmptyString) = u mod 10 ^ Z.of_nat width.
Proof.
  induction width as [|width IH]; intros u Hu.
  - simpl. repeat split. rewrite Z.mod_1_r. reflexivity.
  - simpl digits. rewrite digits_acc.
    destruct (IH (u / 10)) as (Ha & Hl & Hv); [apply Z.div_pos; lia|].
    assert (Hd : 0 <= u mod 10 <= 9) by (pose proof (Z.mod_pos_bound u 10); lia).
    assert (Happ : forall a b, all_digits (a +:+ b) = all_digits a && all_digits b).
    { intros a b. induction a as [|c a IHa]; [reflexivity|].
      rewrite string_app_cons. simpl. rewrite IHa. apply andb_assoc. }
    assert (Hdv : forall a c, dval (a +:+ String c EmptyString) = dval a * 10 + digit_val c).
    { intros a c. induction a as [|x a IHa]; [simpl; lia|].
      rewrite string_app_cons. simpl dval. rewrite IHa, string_length_app. simpl String.length.
      rewrite Nat.add_1_r, Nat2Z.inj_succ, Z.pow_succ_r by lia. ring. }
    split; [|split].
    + rewrite Happ, Ha. simpl. rewrite (is_digit_digit_char _ Hd). reflexivity.
    + rewrite string_length_app, Hl. simpl. lia.
    + rewrite Hdv, Hv, (digit_val_digit_char _ Hd).
      rewrite Nat2Z.inj_succ, Z.pow_succ_r by lia.
      rewrite (Z.rem_mul_r u 10 (10 ^ Z.of_nat width)) by (try apply Z.pow_pos_nonneg; lia).
      ring.
Qed.

Lemma trim_zeros_spec s :
  all_digits s = true ->
  all_digits (trim_zeros s) = true /\
  (String.length (trim_zeros s) <= String.length s)%nat /\
  dval s = dval (trim_zeros s)
           * 10 ^ Z.of_nat (String.length s - String.length (trim_zeros s)).
Proof.
  induction s as [|c s IH]; intros H.
  - simpl. repeat split. lia.
  - simpl in H. apply andb_prop in H. destruct H as [Hc Hs].
    destruct (IH Hs) as (Ha & Hl & Hv). simpl trim_zeros.
    destruct (trim_zeros s) as [|x t] eqn:Ht.
    + simpl in Hv. destruct (Ascii.eqb_spec c "0") as [->|Hne].
      * simpl. repeat split; [lia|]. rewrite Hv. reflexivity.
      * simpl. rewrite Hc. repeat split; [lia|].
        rewrite Hv, Nat.sub_0_r. simpl. lia.
    + simpl all_digits. rewrite Hc. simpl andb. split; [exact Ha|].
      split; [simpl in *; lia|].
      simpl dval. rewrite Hv. simpl String.length in *.
      set (k := (String.length s - S (String.length t))%nat) in *.
      replace (S (String.length s) - S (S (String.length t)))%nat with k by lia.
      replace (Z.of_nat (String.length s)) with (Z.of_nat (S (String.length t)) + Z.of_nat k)
        by lia.
      rewrite Z.pow_add_r by lia. cbn [dval]. ring.
Qed.

Lemma leading_digits_all s : all_digits s = true -> leading_digits s = s.
Proof.
  induction s as [|c s IH]; simpl; [reflexivity|].
  intros H. apply andb_prop in H. destruct H as [Hc Hs]. rewrite Hc, (IH Hs). reflexivity.
Qed.

Lemma string_drop_all s : string_drop (String.length s) s = EmptyString.
Proof.
  pose proof (string_drop_app s EmptyString) as H. rewrite string_app_nil_r in H. exact H.
Qed.

(** The fraction that [.999999] writes for a time with microseconds is read
    back as these microseconds. *)
Lemma parse_fraction_formatNano6 ns :
  1000 <= ns < 1000000000 ->
  parse_fraction (formatNano6 ns) = Some (ns / 1000 * 1000, EmptyString).
Proof.
  intros Hns. unfold formatNano6.
  change (digits 9 ns EmptyString)
    with (digits 6 (ns / 10 / 10 / 10)
            (String (digit_char (ns / 10 / 10 mod 10))
               (String (digit_char (ns / 10 mod 10))
                  (String (digit_char (ns mod 10)) EmptyString)))).
  rewrite digits_acc.
  replace (ns / 10 / 10 / 10) with (ns / 1000) by (rewrite !Z.div_div by lia; reflexivity).
  assert (Hm : 1 <= ns / 1000 < 1000000).
  { split; [apply Z.div_le_lower_bound|apply Z.div_lt_upper_bound]; lia. }
  destruct (digits_spec 6 (ns / 1000)) as (Ha & Hl & Hv); [lia|].
  rewrite Z.mod_small in Hv by (change (10 ^ Z.of_nat 6) with 1000000; lia).
  set (s6 := digits 6 (ns / 1000) EmptyString) in *.
  rewrite (string_take_app_len 6 s6 _ Hl).
  destruct (trim_zeros_spec s6 Ha) as (Hta & Htl & Htv).
  destruct (trim_zeros s6) as [|c t] eqn:Ht.
  { exfalso. rewrite Hv in Htv. cbn [dval] in Htv. rewrite Z.mul_0_l in Htv. lia. }
  assert (Hc : is_digit c = true).
  { simpl in Hta. apply andb_prop in Hta. apply Hta. }
  unfold parse_fraction. rewrite Hc. change (commaOrPeriod "." && true) with true.
  cbv iota. set (tz := String c t) in *.
  rewrite (leading_digits_all tz Hta).
  rewrite (string_take_all 9 tz) by lia.
  assert (Hat : atoi tz = Some (dval tz)).
  { unfold atoi, tz. fold tz. rewrite (atoi_from_digits tz 0 Hta). reflexivity. }
  rewrite Hat, string_drop_all. do 2 f_equal.
  rewrite <- Hv, Htv. rewrite Hl.
  replace (Z.of_nat (9 - String.length tz)) with (Z.of_nat (6 - String.length tz) + 3) by lia.
  rewrite Z.pow_add_r by lia. change (10 ^ 3) with 1000. ring.
Qed.

Lemma daysIn_le_31 m y : daysIn m y <= 31.
Proof.
  unfold daysIn. destruct (m =? 2); [destruct (isLeap y); lia|].
  destruct ((m =? 4) || (m =? 6) || (m =? 9) || (m =? 11)); lia.
Qed.

Lemma Format_specimen_digits t :
  valid_time t ->
  Format_specimen t
  = four_digits (year t) +:+ two_digits (month t) +:+ two_digits (day t)
    +:+ two_digits (hour t) +:+ two_digits (minute t) +:+ two_digits (second t)
    +:+ formatNano6 (nanosecond t).
Proof.
  intros (Hy & Hmo & Hd & Hh & Hmi & Hs & Hn). unfold Format_specimen.
  pose proof (daysIn_le_31 (month t) (year t)).
  rewrite appendInt_four_digits by lia.
  rewrite !appendInt_two_digits by lia. reflexivity.
Qed.

Lemma atoi_four_digits y : 0 <= y < 10000 -> atoi (four_digits y) = Some y.
Proof.
  intros Hy. unfold four_digits, two_digits, atoi. cbn [atoi_from].
  assert (H1 : 0 <= y / 1000 <= 9)
    by (split; [apply Z.div_pos|apply Z.lt_succ_r, Z.div_lt_upper_bound]; lia).
  assert (H2 : 0 <= y / 100 mod 10 <= 9) by (pose proof (Z.mod_pos_bound (y / 100) 10); lia).
  assert (H3 : 0 <= y mod 100 / 10 <= 9).
  { pose proof (Z.mod_pos_bound y 100).
    split; [apply Z.div_pos|apply Z.lt_succ_r, Z.div_lt_upper_bound]; lia. }
  assert (H4 : 0 <= y mod 100 mod 10 <= 9)
    by (pose proof (Z.mod_pos_bound (y mod 100) 10); lia).
  rewrite (is_digit_digit_char _ H1), (is_digit_digit_char _ H2),
    (is_digit_digit_char _ H3), (is_digit_digit_char _ H4).
  rewrite (digit_val_digit_char _ H1), (digit_val_digit_char _ H2),
    (digit_val_digit_char _ H3), (digit_val_digit_char _ H4).
  f_equal.
  pose proof (Z.div_mod y 100). pose proof (Z.div_mod (y / 100) 10).
  pose proof (Z.div_mod (y mod 100) 10).
  assert (y / 100 / 10 = y / 1000) by (rewrite Z.div_div by lia; reflexivity).
  lia.
Qed.

(** The time that [Format] wrote with the layout of the specimen names is
    the time that [Parse] reads with it, to the microsecond, for a time whose
    microseconds are not zero. *)
Lemma Parse_specimen_Format_specimen t :
  valid_time t -> 1000 <= nanosecond t ->
  Parse_specimen (Format_specimen t) = Ok (truncate_micro t).
Proof.
  intros Hvalid Hns. rewrite (Format_specimen_digits t Hvalid).
  destruct Hvalid as (Hy & Hmo & Hd & Hh & Hmi & Hs & Hn).
  pose proof (daysIn_le_31 (month t) (year t)) as H31.
  unfold Parse_specimen.
  set (rest := two_digits (month t) +:+ _).
  assert (Hlen : (String.length (four_digits (year t) +:+ rest) <? 4)%nat = false)
    by reflexivity.
  rewrite Hlen.
  rewrite (string_take_app_len 4 (four_digits (year t)) rest eq_refl).
  rewrite atoi_four_digits by lia.
  change 4%nat with (String.length (four_digits (year t))).
  rewrite string_drop_app. unfold rest.
  rewrite getnum_two_digits by lia.
  replace (month t <=? 0) with false by (symmetry; apply Z.leb_gt; lia).
  replace (12 <? month t) with false by (symmetry; apply Z.ltb_ge; lia).
  simpl orb. cbv iota.
  rewrite getnum_two_digits by lia.
  rewrite getnum_two_digits by lia.
  replace (24 <=? hour t) with false by (symmetry; apply Z.leb_gt; lia).
  rewrite getnum_two_digits by lia.
  replace (60 <=? minute t) with false by (symmetry; apply Z.leb_gt; lia).
  rewrite getnum_two_digits by lia.
  replace (60 <=? second t) with false by (symmetry; apply Z.leb_gt; lia).
  rewrite parse_fraction_formatNano6 by lia.
  replace (day t <? 1) with false by (symmetry; apply Z.ltb_ge; lia).
  replace (daysIn (month t) (year t) <? day t) with false
    by (symmetry; apply Z.ltb_ge; lia).
  reflexivity.
Qed.

Lemma formatNano6_shape ns :
  1000 <= ns < 1000000000 ->
  exists tz, formatNano6 ns = String "." tz /\ all_digits tz = true.
Proof.
  intros Hns. pose proof (parse_fraction_formatNano6 ns Hns) as Hp.
  unfold formatNano6 in *.
  destruct (digits_spec 9 ns) as (Ha & _ & _); [lia|].
  assert (Htake : forall n s, all_digits s = true -> all_digits (string_take n s) = true).
  { unfold string_take. intros n s. revert n. induction s as [|c s IH]; intros n H.
    - destruct n; reflexivity.
    - destruct n as [|n]; [reflexivity|]. simpl in *.
      apply andb_prop in H. destruct H as [Hc Hs]. rewrite Hc, (IH n Hs). reflexivity. }
  destruct (trim_zeros_spec _ (Htake 6%nat _ Ha)) as (Hta & _ & _).
  destruct (trim_zeros (string_take 6 (digits 9 ns EmptyString))) as [|c t].
  - exfalso. injection Hp as Hp.
    assert (1 <= ns / 1000) by (apply Z.div_le_lower_bound; lia). lia.
  - exists (String c t). split; [reflexivity|exact Hta].
Qed.

Lemma all_digits_two_digits x : 0 <= x < 100 -> all_digits (two_digits x) = true.
Proof.
  intros Hx. unfold two_digits. simpl.
  rewrite !is_digit_digit_char; [reflexivity| |].
  - pose proof (Z.mod_pos_bound x 10). lia.
  - split; [apply Z.div_pos|apply Z.lt_succ_r, Z.div_lt_upper_bound]; lia.
Qed.

Lemma all_digits_app a b : all_digits (a +:+ b) = all_digits a && all_digits b.
Proof.
  induction a as [|c a IH]; [reflexivity|].
  rewrite string_app_cons. simpl. rewrite IH. apply andb_assoc.
Qed.

Lemma all_digits_four_digits y : 0 <= y < 10000 -> all_digits (four_digits y) = true.
Proof.
  intros Hy. unfold four_digits.
  change (String ?a (String ?b ?r)) with (String a (String b EmptyString) +:+ r).
  rewrite all_digits_app, all_digits_two_digits
    by (pose proof (Z.mod_pos_bound y 100); lia).
  simpl. rewrite !is_digit_digit_char; [reflexivity| |].
  - pose proof (Z.mod_pos_bound (y / 100) 10). lia.
  - split; [apply Z.div_pos|apply Z.lt_succ_r, Z.div_lt_upper_bound]; lia.
Qed.

Lemma no_dot_app a b : no_dot (a +:+ b) = no_dot a && no_dot b.
Proof.
  induction a as [|c a IH]; [reflexivity|].
  rewrite string_app_cons. simpl. rewrite IH. apply andb_assoc.
Qed.

Lemma no_dot_string_of_uint d : no_dot (NilEmpty.string_of_uint d) = true.
Proof. induction d; simpl; auto. Qed.

Lemma no_dot_itoa z : no_dot (itoa z) = true.
Proof.
  unfold itoa, NilZero.string_of_int, NilZero.string_of_uint.
  destruct (Z.to_int z) as [d|d].
  - destruct d; try reflexivity; apply (no_dot_string_of_uint (_ d)).
  - simpl. destruct d; try reflexivity; apply (no_dot_string_of_uint (_ d)).
Qed.

(** The loop over the name passes a run without dot and notes the dot that
    follows. *)
Lemma find_dots_run a rest i dots :
  no_dot a = true ->
  find_dots (a +:+ String "." rest) i dots
  = if (length (dots ++ [(i + String.length a)%nat]) =? 3)%nat
    then dots ++ [(i + String.length a)%nat]
    else find_dots rest (S (i + String.length a)) (dots ++ [(i + String.length a)%nat]).
Proof.
  revert i. induction a as [|c a IH]; intros i H.
  - simpl. rewrite Nat.add_0_r. reflexivity.
  - rewrite string_app_cons. simpl in H. apply andb_prop in H. destruct H as [Hc Ha].
    apply negb_true_iff in Hc. simpl find_dots. rewrite Hc. rewrite (IH (S i) Ha).
    simpl String.length. rewrite <- !Nat.add_succ_comm. reflexivity.
Qed.

Lemma find_dots_three a b c rest :
  no_dot a = true -> no_dot b = true -> no_dot c = true ->
  find_dots (a +:+ String "." (b +:+ String "." (c +:+ String "." rest))) 0 []
  = [String.length a;
     S (String.length a + String.length b);
     S (S (String.length a + String.length b) + String.length c)].
Proof.
  intros Ha Hb Hc.
  rewrite (find_dots_run a _ 0 [] Ha). simpl app. simpl length.
  change (1 =? 3)%nat with false. cbv iota.
  rewrite (find_dots_run b _ _ _ Hb). simpl app. simpl length.
  change (2 =? 3)%nat with false. cbv iota.
  rewrite (find_dots_run c _ _ _ Hc). simpl app. simpl length.
  change (3 =? 3)%nat with true. cbv iota. reflexivity.
Qed.

Lemma string_drop_app_len n a b : String.length a = n -> string_drop n (a +:+ b) = b.
Proof. intros <-. apply string_drop_app. Qed.

Lemma no_slash_QueryEscape s : no_slash (QueryEscape s) = true.
Proof.
  induction s as [|c s IH]; [reflexivity|].
  rewrite QueryEscape_cons, no_slash_app, IH, andb_true_r.
  destruct c as [[] [] [] [] [] [] [] []]; reflexivity.
Qed.

Lemma QueryEscape_nonempty s : s <> EmptyString -> QueryEscape s <> EmptyString.
Proof.
  destruct s as [|c s]; [intros H; exfalso; apply H; reflexivity|].
  intros _. simpl. destruct (shouldEscape c); [destruct (Ascii.eqb c " ")|]; discriminate.
Qed.

Lemma all_digits_no_slash s : all_digits s = true -> no_slash s = true.
Proof.
  induction s as [|c s IH]; simpl; [reflexivity|].
  intros H. apply andb_prop in H. destruct H as [Hc Hs]. rewrite (IH Hs), andb_true_r.
  destruct (Ascii.eqb_spec c "/") as [->|]; [discriminate Hc|reflexivity].
Qed.

(** The round trip of the name of a specimen, where it holds: for a URI
    that is not empty and an admission whose microseconds are not zero, the
    generated name is the name of an entry, and [GetSpecimenInfo] gives back
    the URI and the time of the admission to the microsecond. *)
Lemma specimen_name_round_trip E uri w dir :
  uri <> EmptyString ->
  valid_time (clock E (ticks w)) ->
  1000 <= nanosecond (clock E (ticks w)) ->
  exists name,
    snd (generateSpecimenFilename E uri w) = Ok name /\
    valid_name name = true /\
    GetSpecimenInfo (dir ++ [name]) = Ok (uri, truncate_micro (clock E (ticks w))).
Proof.
  intros Huri Hvalid Hns. set (now := clock E (ticks w)) in *.
  set (pid := itoa (os_Getpid E)). set (enc := QueryEscape uri).
  exists (Format_specimen now +:+ "." +:+ pid +:+ "." +:+ enc).
  split; [reflexivity|].
  pose proof (Parse_specimen_Format_specimen now Hvalid Hns) as Hparse.
  pose proof Hvalid as (Hy & Hmo & Hd & Hh & Hmi & Hs & Hn).
  pose proof (daysIn_le_31 (month now) (year now)) as H31.
  destruct (formatNano6_shape (nanosecond now)) as (tz & Hfrac & Htz); [lia|].
  set (A := four_digits (year now) +:+ two_digits (month now) +:+ two_digits (day now)
            +:+ two_digits (hour now) +:+ two_digits (minute now)
            +:+ two_digits (second now)).
  assert (Hts : Format_specimen now = A +:+ String "." tz).
  { rewrite (Format_specimen_digits now Hvalid), Hfrac. unfold A.
    rewrite !string_app_assoc. reflexivity. }
  assert (HA : all_digits A = true).
  { unfold A. rewrite !all_digits_app, all_digits_four_digits by lia.
    rewrite !all_digits_two_digits by lia. reflexivity. }
  clearbody A. rewrite Hts in *. set (ts := A +:+ String "." tz) in *.
  set (name := ts +:+ "." +:+ pid +:+ "." +:+ enc).
  assert (Hname : name = A +:+ String "." (tz +:+ String "." (pid +:+ String "." enc))).
  { unfold name, ts. rewrite string_app_assoc. reflexivity. }
  assert (Hpre1 : name = ts +:+ String "." (pid +:+ String "." enc)) by reflexivity.
  assert (Hpre2 : name = (ts +:+ String "." (pid +:+ String "." EmptyString)) +:+ enc).
  { unfold name. rewrite string_app_assoc, !string_app_cons, string_app_assoc.
    reflexivity. }
  assert (Hlts : String.length ts = S (String.length A + String.length tz)).
  { unfold ts. rewrite string_length_app. simpl. lia. }
  split.
  - unfold valid_name.
    assert (Hslash : no_slash name = true).
    { rewrite Hname. rewrite no_slash_app. simpl. rewrite no_slash_app. simpl.
      rewrite no_slash_app. simpl. unfold pid, enc.
      rewrite (all_digits_no_slash _ HA), (all_digits_no_slash _ Htz),
        no_slash_itoa, no_slash_QueryEscape. reflexivity. }
    rewrite Hslash, andb_true_r.
    assert (Hlen : (2 < String.length name)%nat).
    { rewrite Hpre1, string_length_app, Hlts. simpl.
      rewrite string_length_app. simpl. lia. }
    destruct name as [|c1 [|c2 [|c3 r]]]; simpl in Hlen; try lia.
    unfold dot, dotdot. simpl.
    destruct (Ascii.eqb c1 "."); [|reflexivity].
    destruct (Ascii.eqb c2 "."); reflexivity.
  - unfold GetSpecimenInfo. rewrite filepath_Base_snoc. fold name.
    rewrite Hname at 1.
    rewrite (find_dots_three A tz pid enc (all_digits_no_dot _ HA)
               (all_digits_no_dot _ Htz) (no_dot_itoa _)).
    rewrite <- Hlts.
    assert (Htake : string_take (String.length ts) name = ts).
    { rewrite Hpre1. apply string_take_app_len. reflexivity. }
    assert (Hdrop : string_drop (S (String.length ts + String.length pid) + 1) name = enc).
    { rewrite Hpre2. apply string_drop_app_len.
      rewrite string_length_app. simpl. rewrite string_length_app. simpl. lia. }
    rewrite Htake, Hdrop.
    assert (Hl1 : (String.length ts =? 0)%nat = false) by (rewrite Hlts; reflexivity).
    assert (Hl2 : (String.length enc =? 0)%nat = false).
    { pose proof (QueryEscape_nonempty uri Huri) as He. fold enc in He.
      destruct enc; [exfalso; apply He; reflexivity|reflexivity]. }
    rewrite Hl1, Hl2. simpl orb. cbv iota.
    rewrite Hparse. unfold enc. rewrite QueryUnescape_QueryEscape. reflexivity.
Qed.

(** * The rest of the program: properties *)

(** ** The configuration *)

Lemma string_eqb_empty s : String.eqb s EmptyString = false <-> s <> EmptyString.
Proof.
  destruct (String.eqb_spec s EmptyString) as [->|H]; split; intros H'.
  - discriminate H'.
  - exfalso. apply H'. reflexivity.
  - exact H.
  - reflexivity.
Qed.

(** X1: [Validate] accepts a configuration exactly when the three buckets
    are named; otherwise its error is that of the first bucket that is
    missing, in the order usage, error, specimen. *)
Theorem Validate_accepts_iff_buckets_named (c : Config) :
  (Validate c = Ok tt <->
   UsageBucket (S3 c) <> EmptyString /\ ErrorBucket (S3 c) <> EmptyString
   /\ SpecimenBucket (S3 c) <> EmptyString)
  /\ (UsageBucket (S3 c) = EmptyString -> Validate c = Err ErrUsageBucketRequired)
  /\ (UsageBucket (S3 c) <> EmptyString -> ErrorBucket (S3 c) = EmptyString ->
      Validate c = Err ErrErrorBucketRequired)
  /\ (UsageBucket (S3 c) <> EmptyString -> ErrorBucket (S3 c) <> EmptyString ->
      SpecimenBucket (S3 c) = EmptyString -> Validate c = Err ErrSpecimenBucketRequired).
Proof.
  unfold Validate.
  destruct (String.eqb_spec (UsageBucket (S3 c)) EmptyString) as [Hu|Hu];
  destruct (String.eqb_spec (ErrorBucket (S3 c)) EmptyString) as [He|He];
  destruct (String.eqb_spec (SpecimenBucket (S3 c)) EmptyString) as [Hs|Hs];
  (split; [split; [intros H; try discriminate H; auto | intros (H1 & H2 & H3); try reflexivity; contradiction]|]);
  (split; [intros H; first [reflexivity | contradiction]|]);
  (split; [intros H1 H2; first [reflexivity | contradiction]|]);
  intros H1 H2 H3; first [reflexivity | contradiction].
Qed.

(** X2: [SetDefaults] fills the fields that are empty and no other: a cache
    directory, a region or an interval that is set stays as it is, the
    credentials, the endpoint and the buckets are never touched, none of the
    four fields is empty afterwards, a second call changes nothing, and
    [Validate] gives what it gave before, for no bucket has a default. *)
Theorem SetDefaults_fills_only_what_is_empty (c : Config) :
  let c' := SetDefaults c in
  (CacheDir c <> EmptyString -> CacheDir c' = CacheDir c)
  /\ (Region (AWS c) <> EmptyString -> Region (AWS c') = Region (AWS c))
  /\ (UsageInterval (Aggregation c) <> 0 ->
      UsageInterval (Aggregation c') = UsageInterval (Aggregation c))
  /\ (ErrorInterval (Aggregation c) <> 0 ->
      ErrorInterval (Aggregation c') = ErrorInterval (Aggregation c))
  /\ AccessKeyID (AWS c') = AccessKeyID (AWS c)
  /\ SecretAccessKey (AWS c') = SecretAccessKey (AWS c)
  /\ Endpoint (AWS c') = Endpoint (AWS c)
  /\ S3 c' = S3 c
  /\ CacheDir c' <> EmptyString /\ Region (AWS c') <> EmptyString
  /\ UsageInterval (Aggregation c') <> 0 /\ ErrorInterval (Aggregation c') <> 0
  /\ SetDefaults c' = c'
  /\ Validate c' = Validate c.
Proof.
  destruct c as [cd [rg ak sk ep] s3 [ui ei]].
  destruct cd as [|c0 cd]; destruct rg as [|c1 rg];
    destruct ui as [|ui|ui]; destruct ei as [|ei|ei];
    cbv -[Validate];
    repeat split; try reflexivity; try discriminate;
    intros H; exfalso; apply H; reflexivity.
Qed.

(** ** The shutdown manager *)

Lemma Shutdown_calls_done cleanups closed w :
  Shutdown_calls cleanups (mkGracefulShutdown true closed) w
  = Some (mkGracefulShutdown true closed, w).
Proof. induction cleanups as [|c cs IH]; simpl; [reflexivity|exact IH]. Qed.

(** X3: [Shutdown] runs once.  Of calls made one after the other on a new
    manager, the first runs its cleanup and closes the channel; every later
    call returns at once, whatever its cleanup: no cleanup runs twice and
    the channel is never closed a second time, which would panic. *)
Theorem Shutdown_runs_the_first_cleanup_only
    (cleanup : option (M unit)) (later : list (option (M unit))) (w : World) :
  Shutdown_calls (cleanup :: later) NewGracefulShutdown w
  = Some (mkGracefulShutdown true true,
          match cleanup with Some f => fst (f w) | None => w end).
Proof.
  simpl. unfold Shutdown, NewGracefulShutdown. simpl. apply Shutdown_calls_done.
Qed.

(** ** The routes of the API server *)


Lemma saveFile_puts p data w : puts (fst (saveFile p data w)) = puts w.
Proof.
  unfold saveFile, bind, wrap, os_Create, os_WriteFile, ret.
  destruct (is_dir (fs w !! p)); [reflexivity|].
  destruct (is_dir (fs w !! filepath_Dir p)); reflexivity.
Qed.


Lemma PUT_run E k req u w :
  USER_TOKEN req <> EmptyString ->
  PUT E k (mkContext req u) w
  = if match k with Specimen => String.eqb (QueryParam_uri req) EmptyString | _ => false end
    then (w, mkOutcome (HTTPError StatusBadRequest "uri parameter is required") [])
    else match Request_Body req with
         | Err _ => (w, mkOutcome (HTTPError StatusBadRequest "Invalid request body") [])
         | Ok data =>
             match Admit E k (owner_or_uri k req) data w with
             | (w', Err _) =>
                 (w', mkOutcome (HTTPError StatusInternalServerError "Failed to save data") [])
             | (w', Ok _) =>
                 (w', mkOutcome (NoContent StatusNoContent)
                        match k with
                        | Specimen => [(USER_TOKEN req, QueryParam_uri req)]
                        | _ => []
                        end)
             end
         end.
Proof.
  intros Ht. apply string_eqb_empty in Ht.
  unfold PUT, AuthMiddleware. simpl. rewrite Ht.
  destruct k; unfold handleUsage, handleError, handleSpecimen, readRequestBody; simpl;
    try reflexivity.
Qed.

(** X4: a record that a route accepts is on disk as it was sent.
    When [PUT /usage], [PUT /error] or [PUT /specimen] answers 204, the
    request bore a token and its body could be read, and the file of the
    generated name in the directory of the kind (named after the token for a
    report, after the URI for a specimen) holds the bytes of the body; a
    specimen has a URI that is not empty and one upload is started for it,
    for the user of the token; a report starts none. *)
Theorem accepted_request_is_stored
    (E : Env) (k : Kind) (req : Request) (u : option string) (w w' : World) (out : Outcome) :
  PUT E k (mkContext req u) w = (w', out) ->
  response out = NoContent StatusNoContent ->
  USER_TOKEN req <> EmptyString /\
  exists data name,
    Request_Body req = Ok data /\
    snd (generate E k (owner_or_uri k req) w) = Ok name /\
    ReadFile (filepath_Join (BaseDir E) [kind_dir k; name]) w' = (w', Ok data) /\
    started out = match k with
                  | Specimen => [(USER_TOKEN req, QueryParam_uri req)]
                  | _ => []
                  end /\
    (k = Specimen -> QueryParam_uri req <> EmptyString).
Proof.
  intros H Hr.
  destruct (String.eqb_spec (USER_TOKEN req) EmptyString) as [He|Hne].
  { unfold PUT, AuthMiddleware in H. simpl in H. rewrite He in H. simpl in H.
    injection H as <- <-. discriminate Hr. }
  split; [exact Hne|]. rewrite (PUT_run E k req u w Hne) in H.
  destruct (match k with Specimen => String.eqb (QueryParam_uri req) EmptyString | _ => false end)
    eqn:Huri.
  { injection H as <- <-. discriminate Hr. }
  destruct (Request_Body req) as [data|e].
  2:{ injection H as <- <-. discriminate Hr. }
  destruct (Admit E k (owner_or_uri k req) data w) as [w1 [[]|e]] eqn:Ha.
  2:{ injection H as <- <-. discriminate Hr. }
  injection H as <- <-.
  rewrite Admit_unfold in Ha.
  destruct (generate_run E k (owner_or_uri k req) w) as [name Hg].
  rewrite (bind_Ok _ _ _ _ _ Hg) in Ha.
  apply saveFile_Ok in Ha. destruct Ha as (_ & _ & ->).
  exists data, name. split; [reflexivity|]. split; [rewrite Hg; reflexivity|].
  split; [unfold ReadFile, os_ReadFile; simpl; rewrite lookup_insert_eq; reflexivity|].
  split; [reflexivity|].
  intros ->. apply string_eqb_empty. exact Huri.
Qed.

Lemma accepted_request_is_stored_witness :
  let req := mkRequest "alice" EmptyString (Ok Example.startup) in
  snd (PUT Example.calm Usage (mkContext req None) Example.fresh)
  = mkOutcome (NoContent StatusNoContent) [] /\
  exists data name,
    Request_Body req = Ok data /\
    snd (generate Example.calm Usage (owner_or_uri Usage req) Example.fresh) = Ok name /\
    ReadFile (filepath_Join (BaseDir Example.calm) [kind_dir Usage; name])
      (fst (PUT Example.calm Usage (mkContext req None) Example.fresh))
    = (fst (PUT Example.calm Usage (mkContext req None) Example.fresh), Ok data) /\
    started (snd (PUT Example.calm Usage (mkContext req None) Example.fresh)) = [] /\
    (Usage = Specimen -> QueryParam_uri req <> EmptyString).
Proof.
  intros req.
  assert (H : snd (PUT Example.calm Usage (mkContext req None) Example.fresh)
              = mkOutcome (NoContent StatusNoContent) []) by (vm_compute; reflexivity).
  split; [exact H|].
  refine (proj2 (accepted_request_is_stored Example.calm Usage req None Example.fresh
                   _ _ (surjective_pairing _) _)).
  rewrite H. reflexivity.
Defined.


(** ** The aggregation worker *)

(** X6: a worker keeps to the directory of its kind.  Whatever
    wake-ups the worker of usage or of error has seen, no entry of the store
    outside the directory of its kind has changed, and the log of the object
    store has only grown; the wake-ups after the context is done have no
    effect. *)
Theorem worker_keeps_to_its_directory
    (E : Env) (dataType : string) (wakeups later : list Wakeup) (w : World) :
  batched dataType ->
  outside (BaseDir E ++ [dataType]) w (runAggregationWorker E dataType wakeups w)
  /\ grows w (runAggregationWorker E dataType wakeups w)
  /\ runAggregationWorker E dataType (wakeups ++ ctx_Done :: later) w
     = runAggregationWorker E dataType wakeups w.
Proof.
  intros Hb. revert w. induction wakeups as [|[|] wakeups IH]; intros w; simpl.
  - split; [apply outside_refl|]. split; [apply grows_refl|reflexivity].
  - split; [apply outside_refl|]. split; [apply grows_refl|reflexivity].
  - destruct (IH (fst (AggregateAndUpload E dataType w))) as (H1 & H2 & H3).
    split; [|split; [|exact H3]].
    + eapply outside_trans; [|exact H1]. apply (spec_AggregateAndUpload E dataType Hb w).
    + eapply grows_trans; [|exact H2]. apply (AggregateAndUpload_grows E dataType w).
Qed.

Lemma worker_keeps_to_its_directory_witness :
  outside (BaseDir Example.calm ++ ["usage"%string]) (Example.one_record Example.startup)
    (runAggregationWorker Example.calm "usage" [ticker_C; ticker_C]
       (Example.one_record Example.startup))
  /\ grows (Example.one_record Example.startup)
       (runAggregationWorker Example.calm "usage" [ticker_C; ticker_C]
          (Example.one_record Example.startup))
  /\ runAggregationWorker Example.calm "usage" ([ticker_C; ticker_C] ++ ctx_Done :: [ticker_C])
       (Example.one_record Example.startup)
     = runAggregationWorker Example.calm "usage" [ticker_C; ticker_C]
         (Example.one_record Example.startup).
Proof.
  apply (worker_keeps_to_its_directory Example.calm "usage" [ticker_C; ticker_C] [ticker_C]).
  left. reflexivity.
Defined.

(** ** Names of records *)

Lemma find_dots_few base : forall i dots,
  (length dots + count_dots base < 3)%nat ->
  length (find_dots base i dots) = (length dots + count_dots base)%nat.
Proof.
  induction base as [|c base IH]; intros i dots H; simpl in *; [lia|].
  destruct (Ascii.eqb c ".").
  - destruct (length (dots ++ [i]) =? 3)%nat eqn:H3.
    + apply Nat.eqb_eq in H3. rewrite length_app in H3. simpl in H3. lia.
    + rewrite IH; rewrite length_app; simpl; lia.
  - apply IH. lia.
Qed.

(** X7: [GetSpecimenInfo] rejects a name with fewer than three
    dots: its error is that of an invalid format, and neither the time nor
    the URI is looked at. *)
Theorem GetSpecimenInfo_rejects_fewer_than_three_dots (filename : path) :
  (count_dots (filepath_Base filename) < 3)%nat ->
  GetSpecimenInfo filename = Err (ErrorNew "invalid specimen filename format").
Proof.
  intros H. unfold GetSpecimenInfo.
  pose proof (find_dots_few (filepath_Base filename) 0 [] H) as Hl. simpl in Hl.
  destruct (find_dots (filepath_Base filename) 0 []) as [|a [|b [|c [|d l]]]];
    try reflexivity; simpl in Hl; lia.
Qed.

Lemma GetSpecimenInfo_rejects_fewer_than_three_dots_witness :
  GetSpecimenInfo (Example.specimen_dir ++ ["20240101123045.12345.screenshot"%string])
  = Err (ErrorNew "invalid specimen filename format").
Proof.
  apply GetSpecimenInfo_rejects_fewer_than_three_dots. vm_compute. lia.
Defined.





(** ** The keys of the object store *)

Lemma strings_Split_pieces s : Forall (fun x => no_slash x = true) (strings_Split s "/").
Proof.
  induction s as [|c s IH]; simpl; [repeat constructor|].
  destruct (Ascii.eqb c "/") eqn:Hc; [constructor; [reflexivity|exact IH]|].
  destruct (strings_Split s "/") as [|x xs].
  - repeat constructor. simpl. rewrite Hc. reflexivity.
  - inversion IH as [|? ? Hx Hxs]; subst. constructor; [|exact Hxs].
    simpl. rewrite Hc, Hx. reflexivity.
Qed.

Lemma last_Forall {A} (P : A -> Prop) (l : list A) (d : A) :
  P d -> Forall P l -> P (List.last l d).
Proof.
  intros Hd H. induction H as [|x l Hx Hl IH]; [exact Hd|].
  destruct l as [|y l]; [exact Hx|exact IH].
Qed.

Lemma no_slash_last_element uri : no_slash (last_element uri) = true.
Proof.
  unfold last_element.
  apply (last_Forall (fun x => no_slash x = true)); [reflexivity|apply strings_Split_pieces].
Qed.

Lemma no_slash_substring s : forall n m,
  no_slash s = true -> no_slash (String.substring n m s) = true.
Proof.
  induction s as [|c s IH]; intros n m H.
  - destruct n, m; reflexivity.
  - simpl in H. apply andb_prop in H. destruct H as [Hc Hs].
    destruct n as [|n]; simpl.
    + destruct m as [|m]; [reflexivity|]. simpl. rewrite Hc. apply IH. exact Hs.
    + apply IH. exact Hs.
Qed.

Lemma all_chars_replaced s :
  no_slash s = true ->
  all_chars (fun c => negb (is_problematic c) && negb (Ascii.eqb c "/"))
            (map_string replace_problematic s) = true.
Proof.
  induction s as [|c s IH]; [reflexivity|]. simpl. intros H.
  apply andb_prop in H. destruct H as [Hc Hs]. rewrite (IH Hs), andb_true_r.
  unfold replace_problematic. fold (is_problematic c).
  destruct (is_problematic c) eqn:Hp; [reflexivity|]. rewrite Hp, Hc. reflexivity.
Qed.

(** X9: the name [cleanURIForFilename] gives holds no separator
    and none of the bytes the replacer replaces (space, colon, question
    mark, ampersand, equals sign, percent sign, number sign), whatever the
    URI. *)
Theorem cleanURIForFilename_has_no_problematic_byte (uri : string) :
  all_chars (fun c => negb (is_problematic c) && negb (Ascii.eqb c "/"))
            (cleanURIForFilename uri) = true.
Proof.
  unfold cleanURIForFilename. fold (last_element uri).
  apply all_chars_replaced.
  destruct (String.eqb (filepath_Ext (last_element uri)) EmptyString).
  - apply no_slash_last_element.
  - unfold strings_TrimSuffix, string_take. apply no_slash_substring.
    apply no_slash_last_element.
Qed.

(** [filepath.Ext] gives nothing for a name without dot; otherwise it
    gives the last dot of the name and what follows it. *)
Lemma filepath_Ext_shape name :
  (filepath_Ext name = EmptyString /\ no_dot name = true) \/
  exists stem r, name = stem +:+ String "." r /\ filepath_Ext name = String "." r
                 /\ no_dot r = true.
Proof.
  induction name as [|c name IH]; [left; split; reflexivity|].
  simpl. destruct IH as [[He Hn]|(stem & r & Hs & He & Hr)].
  - rewrite He. destruct (Ascii.eqb_spec c ".") as [->|Hc].
    + right. exists EmptyString, name. repeat split. exact Hn.
    + left. split; [reflexivity|]. rewrite Hn.
      destruct (Ascii.eqb_spec c "."); [contradiction|reflexivity].
  - rewrite He. right. exists (String c stem), r. rewrite string_app_cons, <- Hs.
    repeat split. exact Hr.
Qed.

Lemma no_slash_app_r a b : no_slash (a +:+ b) = true -> no_slash b = true.
Proof. rewrite no_slash_app. intros H. apply andb_prop in H. apply H. Qed.

(** X10: [cleanURIForFilename] and [extractExtension] cut the last
    element of a URI at its last dot.  When that element has a dot, it is a
    stem followed by the extension [extractExtension] gives, the extension
    is a dot and a rest without dot or separator, and the name
    [cleanURIForFilename] gives is the stem with the problematic bytes
    replaced.  When it has no dot, the name is the whole element with those
    bytes replaced, and the extension is empty, or [.png] for a URI that
    holds the word screenshot in any case of letters. *)
Theorem uri_is_cut_at_its_last_dot (uri : string) :
  (exists stem r,
     last_element uri = stem +:+ extractExtension uri /\
     extractExtension uri = String "." r /\ no_dot r = true /\ no_slash r = true /\
     cleanURIForFilename uri = map_string replace_problematic stem)
  \/ (no_dot (last_element uri) = true /\
      cleanURIForFilename uri = map_string replace_problematic (last_element uri) /\
      extractExtension uri
      = if strings_Contains (strings_ToLower uri) "screenshot" then ".png"%string
        else EmptyString).
Proof.
  unfold cleanURIForFilename, extractExtension. fold (last_element uri).
  destruct (filepath_Ext_shape (last_element uri)) as [[He Hn]|(stem & r & Hs & He & Hr)].
  - right. rewrite He. simpl. split; [exact Hn|]. split; reflexivity.
  - left. rewrite He. simpl. exists stem, r.
    split; [exact Hs|]. split; [reflexivity|]. split; [exact Hr|]. split.
    + pose proof (no_slash_last_element uri) as H. rewrite Hs in H.
      apply no_slash_app_r in H. simpl in H. exact H.
    + f_equal. unfold strings_TrimSuffix. rewrite Hs at 2.
      apply string_take_app_len. rewrite Hs, string_length_app. lia.
Qed.




Lemma no_dot_getHostname E : no_dot (getHostname E) = true.
Proof.
  unfold getHostname. destruct (os_Hostname E) as [h|]; [|reflexivity].
  induction h as [|c h IH]; [reflexivity|]. simpl. rewrite IH.
  destruct (Ascii.eqb_spec c ".") as [->|Hc]; [reflexivity|].
  destruct (Ascii.eqb_spec c "."); [contradiction|reflexivity].
Qed.

(** What [UploadAggregatedFile] does with a regular file of a batched kind:
    it reads the clock once and puts one object. *)
Lemma UploadAggregatedFile_key E p dataType w data :
  batched dataType ->
  fs w !! p = Some (File data) ->
  let now := clock E (ticks w) in
  let key := (if String.eqb dataType "usage" then UsagePrefix (config_S3 E)
              else ErrorPrefix (config_S3 E))
             +:+ appendInt (year now) 4 +:+ "/" +:+ appendInt (month now) 2 +:+ "/"
             +:+ appendInt (day now) 2 +:+ "/" +:+ appendInt (hour now) 2 +:+ "/"
             +:+ appendInt (year now) 4 +:+ appendInt (month now) 2
             +:+ appendInt (day now) 2 +:+ appendInt (hour now) 2
             +:+ "." +:+ getHostname E +:+ ".jsonl.gz" in
  UploadAggregatedFile E p dataType w
  = (mkWorld (fs w) (S (ticks w))
       (puts w ++ [(mkPut (bucket_of E dataType) key data "application/gzip" [],
                    put_ok E (length (puts w)))]),
     if put_ok E (length (puts w)) then Ok tt
     else Err (Errorf "failed to upload to S3" PutError)).
Proof.
  intros Hb Hp now key. unfold UploadAggregatedFile.
  rewrite (bind_Ok _ _ _ _ _ (wrap_Ok _ _ _ _ _ (os_ReadFile_file _ _ _ Hp))).
  unfold key, bucket_of.
  destruct Hb as [-> | ->]; simpl; unfold bind, ret, time_Now, wrap, PutObject; simpl;
    destruct (put_ok E (length (puts w))); reflexivity.
Qed.

(** X12: the key of an artifact tells its kind, its host and its
    hour, and no more.  Two uploads of artifacts of one kind by
    [UploadAggregatedFile] whose readings of the clock fall in the same hour
    of the same day each put one object, and the two objects have the same
    bucket and the same key, whatever their bodies. *)
Theorem artifacts_of_one_hour_share_their_key
    (E : Env) (dataType : string) (p1 p2 : path) (w1 w2 : World) (d1 d2 : bytes) :
  batched dataType ->
  fs w1 !! p1 = Some (File d1) ->
  fs w2 !! p2 = Some (File d2) ->
  year (clock E (ticks w1)) = year (clock E (ticks w2)) ->
  month (clock E (ticks w1)) = month (clock E (ticks w2)) ->
  day (clock E (ticks w1)) = day (clock E (ticks w2)) ->
  hour (clock E (ticks w1)) = hour (clock E (ticks w2)) ->
  exists key,
    puts (fst (UploadAggregatedFile E p1 dataType w1))
    = puts w1 ++ [(mkPut (bucket_of E dataType) key d1 "application/gzip" [],
                   put_ok E (length (puts w1)))] /\
    puts (fst (UploadAggregatedFile E p2 dataType w2))
    = puts w2 ++ [(mkPut (bucket_of E dataType) key d2 "application/gzip" [],
                   put_ok E (length (puts w2)))] /\
    no_dot (getHostname E) = true.
Proof.
  intros Hb H1 H2 Hy Hm Hd Hh.
  rewrite (UploadAggregatedFile_key E p1 dataType w1 d1 Hb H1).
  rewrite (UploadAggregatedFile_key E p2 dataType w2 d2 Hb H2).
  cbv zeta. rewrite Hy, Hm, Hd, Hh. eexists. split; [reflexivity|].
  split; [reflexivity|apply no_dot_getHostname].
Qed.

Lemma artifacts_of_one_hour_share_their_key_witness :
  exists key,
    puts (fst (UploadAggregatedFile Example.calm Example.alice "usage"
                 (Example.one_record Example.startup)))
    = puts (Example.one_record Example.startup)
      ++ [(mkPut (bucket_of Example.calm "usage") key Example.startup "application/gzip" [],
           put_ok Example.calm (length (puts (Example.one_record Example.startup))))] /\
    puts (fst (UploadAggregatedFile Example.calm Example.carol "usage" Example.two_records))
    = puts Example.two_records
      ++ [(mkPut (bucket_of Example.calm "usage") key [x63] "application/gzip" [],
           put_ok Example.calm (length (puts Example.two_records)))] /\
    no_dot (getHostname Example.calm) = true.
Proof.
  apply (artifacts_of_one_hour_share_their_key Example.calm "usage" Example.alice
           Example.carol (Example.one_record Example.startup) Example.two_records
           Example.startup [x63]);
    first [left; reflexivity | vm_compute; reflexivity].
Defined.

(** X13: [UploadAggregatedFile] reads, and puts at most
    once.  It never changes a file.  For a regular file and a batched kind
    it puts one object, to the bucket of the kind, with the bytes of the
    file as its body and the content type of gzip, and it returns no error
    exactly when the object store took the object.  For a path that is no
    regular file, or for another kind, it puts nothing and returns an
    error. *)
Theorem UploadAggregatedFile_puts_the_file_once
    (E : Env) (p : path) (dataType : string) (w : World) :
  let w' := fst (UploadAggregatedFile E p dataType w) in
  let r := snd (UploadAggregatedFile E p dataType w) in
  fs w' = fs w /\
  ((exists data key,
      fs w !! p = Some (File data) /\ batched dataType /\
      puts w' = puts w ++ [(mkPut (bucket_of E dataType) key data "application/gzip" [],
                            put_ok E (length (puts w)))] /\
      (r = Ok tt <-> put_ok E (length (puts w)) = true))
   \/ (puts w' = puts w /\ r <> Ok tt /\
       ((forall data, fs w !! p <> Some (File data)) \/ ~ batched dataType))).
Proof.
  cbv zeta.
  destruct (fs w !! p) as [[data|]|] eqn:Hp.
  - destruct (String.eqb_spec dataType "usage") as [Hu|Hu];
      [|destruct (String.eqb_spec dataType "error") as [He|He]].
    1,2: assert (Hb : batched dataType) by (unfold batched; auto);
         rewrite (UploadAggregatedFile_key E p dataType w data Hb Hp); cbv zeta; simpl;
         (split; [reflexivity|]); left; eexists data, _;
         (split; [reflexivity|]); (split; [exact Hb|]); (split; [reflexivity|]);
         destruct (put_ok E (length (puts w))); split; intros H;
         first [reflexivity | discriminate H].
    unfold UploadAggregatedFile.
    rewrite (bind_Ok _ _ _ _ _ (wrap_Ok _ _ _ _ _ (os_ReadFile_file _ _ _ Hp))).
    apply String.eqb_neq in Hu, He. rewrite Hu, He. simpl.
    split; [reflexivity|]. right. split; [reflexivity|]. split; [discriminate|].
    right. intros [Hb|Hb]; subst dataType; discriminate.
  - unfold UploadAggregatedFile, bind, wrap, ReadFile, os_ReadFile. rewrite Hp. simpl.
    split; [reflexivity|]. right. split; [reflexivity|]. split; [discriminate|].
    left. intros data H. discriminate H.
  - unfold UploadAggregatedFile, bind, wrap, ReadFile, os_ReadFile. rewrite Hp. simpl.
    split; [reflexivity|]. right. split; [reflexivity|]. split; [discriminate|].
    left. intros data H. discriminate H.
Qed.

(** ** The listing of a directory, in full *)

#[local] Instance name_le_trans : Transitive name_le.
Proof.
  intros a b c. unfold name_le. rewrite !string_leb_compare.
  apply string_compare_le_trans.
Qed.

#[local] Instance name_le_total : Total name_le.
Proof. intros a b. unfold name_le. apply String.leb_total. Qed.

(** The entries [os.ReadDir] sees: each name is valid and stands once. *)
Lemma children_names (dir : path) (f : gmap path node) :
  let es := map (fun '(q, n) => (filepath_Base q, is_dir (Some n))) (children dir f) in
  NoDup (map fst es) /\ Forall (fun e => valid_name (fst e) = true) es.
Proof.
  cbv zeta. split.
  - rewrite map_map.
    change (NoDup ((fun x : path * node => fst (let '(q, n) := x in
                      (filepath_Base q, is_dir (Some n)))) <$> children dir f)).
    apply NoDup_fmap_2_strong.
    + intros [q1 n1] [q2 n2] H1 H2 Heq. simpl in Heq.
      apply children_elem_of in H1, H2.
      destruct H1 as [Hq1 (m1 & -> & _)]. destruct H2 as [Hq2 (m2 & -> & _)].
      rewrite !filepath_Base_snoc in Heq. subst m2.
      rewrite Hq1 in Hq2. injection Hq2 as ->. reflexivity.
    + unfold children. apply NoDup_filter, NoDup_map_to_list.
  - apply Forall_forall. intros e He.
    apply list_elem_of_In, in_map_iff in He. destruct He as ([q n] & <- & Hq).
    apply list_elem_of_In, children_elem_of in Hq. destruct Hq as [_ (m & -> & Hv)].
    simpl. rewrite filepath_Base_snoc. exact Hv.
Qed.

Lemma files_of_entries_sorted (dir : path) (es : list (string * bool)) :
  Forall (fun e => valid_name (fst e) = true) es ->
  StronglySorted name_le es ->
  StronglySorted path_le
    (map (fun entry => filepath_Join dir [fst entry])
         (filter (fun entry => snd entry = false) es)).
Proof.
  intros Hv Hs. induction Hs as [|e es Hs IH Hall]; [constructor|].
  inversion Hv as [|? ? Hve Hves]; subst.
  rewrite filter_cons. destruct (decide (snd e = false)) as [He|He]; [|apply IH; exact Hves].
  simpl. constructor; [apply IH; exact Hves|].
  apply Forall_forall. intros p Hp.
  apply list_elem_of_In, in_map_iff in Hp. destruct Hp as (e' & <- & He').
  apply list_elem_of_In, list_elem_of_filter in He'. destruct He' as [_ He'].
  rewrite Forall_forall in Hall, Hves.
  rewrite (filepath_Join_valid _ _ Hve), (filepath_Join_valid _ _ (Hves e' He')).
  unfold path_le. apply string_leb_compare. rewrite path_string_compare.
  apply string_leb_compare. apply (Hall e' He').
Qed.

Lemma files_of_entries_NoDup (dir : path) (es : list (string * bool)) :
  Forall (fun e => valid_name (fst e) = true) es ->
  NoDup (map fst es) ->
  NoDup (map (fun entry => filepath_Join dir [fst entry])
             (filter (fun entry => snd entry = false) es)).
Proof.
  intros Hv Hn.
  change (NoDup ((fun entry : string * bool => filepath_Join dir [fst entry])
                   <$> filter (fun entry => snd entry = false) es)).
  rewrite Forall_forall in Hv. apply NoDup_fmap_2_strong.
  - intros [n1 b1] [n2 b2] H1 H2 Heq.
    apply list_elem_of_filter in H1, H2. destruct H1 as [Hb1 H1]. destruct H2 as [Hb2 H2].
    pose proof (Hv _ H1) as V1. pose proof (Hv _ H2) as V2.
    simpl in *. subst b1 b2.
    rewrite (filepath_Join_valid _ _ V1), (filepath_Join_valid _ _ V2) in Heq.
    apply app_inj_tail in Heq. destruct Heq as [_ ->]. reflexivity.
  - apply NoDup_filter. apply (NoDup_fmap_1 fst). exact Hn.
Qed.

(** The listing of a directory: its regular files, each once, in order. *)
Lemma getFiles_listing (dir : path) (w : World) :
  (fs w !! dir = Some Dir ->
   exists l,
     getFiles dir w = (w, Ok l) /\ NoDup l /\ StronglySorted path_le l /\
     forall f, f ∈ l <->
               exists n data, f = dir ++ [n] /\ valid_name n = true
                              /\ fs w !! f = Some (File data))
  /\ (fs w !! dir <> Some Dir ->
      exists e, getFiles dir w = (w, Err (Errorf "failed to read directory" e))).
Proof.
  split.
  - intros Hd.
    set (es := map (fun '(q, n) => (filepath_Base q, is_dir (Some n)))
                   (children dir (fs w))).
    assert (Hl : getFiles dir w
                 = (w, Ok (map (fun entry => filepath_Join dir [fst entry])
                             (filter (fun entry => snd entry = false)
                                (merge_sort name_le es))))).
    { unfold getFiles, bind, wrap, os_ReadDir, ret. rewrite Hd. reflexivity. }
    eexists. split; [exact Hl|].
    destruct (children_names dir (fs w)) as [Hn Hv]. fold es in Hn, Hv.
    assert (Hperm : merge_sort name_le es ≡ₚ es) by apply merge_sort_Permutation.
    split; [|split].
    + apply files_of_entries_NoDup.
      * rewrite Hperm. exact Hv.
      * change (NoDup (fst <$> merge_sort name_le es)). rewrite Hperm. exact Hn.
    + apply files_of_entries_sorted.
      * rewrite Hperm. exact Hv.
      * apply StronglySorted_merge_sort; apply _.
    + intros f. apply (getFiles_elem_of dir w _ f Hl).
  - intros Hd. unfold getFiles, bind, wrap, os_ReadDir.
    destruct (fs w !! dir) as [[data|]|]; [eexists; reflexivity| |eexists; reflexivity].
    exfalso. apply Hd. reflexivity.
Qed.

(** X14: what [getFiles] lists, and so [GetUsageFiles],
    [GetErrorFiles], [GetSpecimenFiles], [GetAggregationFiles] and
    [GetUploadingFiles].  For a path that is a directory it returns, without
    changing anything, the regular files that are entries of that directory
    and nothing else (the sub-directories are passed over), each once, as
    the directory joined with the name, in ascending order of the names.
    For a path that is no directory it returns an error. *)
Theorem getFiles_lists_the_regular_files (dir : path) (w : World) :
  (fs w !! dir = Some Dir ->
   exists l,
     getFiles dir w = (w, Ok l) /\ NoDup l /\ StronglySorted path_le l /\
     forall f, f ∈ l <->
               exists n data, f = dir ++ [n] /\ valid_name n = true
                              /\ fs w !! f = Some (File data))
  /\ (fs w !! dir <> Some Dir ->
      exists e, getFiles dir w = (w, Err (Errorf "failed to read directory" e))).
Proof. apply getFiles_listing. Qed.

(** ** The promotion of the incoming files *)

Lemma incoming_ne_staged (inc : path) (n m stage : string) :
  inc ++ [n] <> (inc ++ [stage]) ++ [m].
Proof.
  rewrite <- app_assoc. intros H. apply app_inv_head in H. discriminate H.
Qed.

(** A promotion that succeeds has renamed every file of its list, and
    nothing else. *)
Lemma MoveToAggregation_loop_Ok (inc : path) (files : list path) : forall w w1,
  NoDup files ->
  (forall f, f ∈ files -> exists n, f = inc ++ [n] /\ valid_name n = true) ->
  MoveToAggregation_loop (inc ++ ["aggregation"%string]) files w = (w1, Ok tt) ->
  (forall f, f ∈ files ->
     fs w1 !! f = None /\
     fs w1 !! ((inc ++ ["aggregation"%string]) ++ [filepath_Base f]) = fs w !! f /\
     exists data, fs w !! f = Some (File data))
  /\ (forall p : path, p ∉ files ->
        (forall f, f ∈ files -> p <> (inc ++ ["aggregation"%string]) ++ [filepath_Base f]) ->
        fs w1 !! p = fs w !! p).
Proof.
  set (agg := inc ++ ["aggregation"%string]).
  induction files as [|f files IH]; intros w w1 Hnd Hin H.
  - simpl in H. injection H as <-. split.
    + intros f Hf. apply elem_of_nil in Hf. contradiction.
    + intros p _ _. reflexivity.
  - apply NoDup_cons in Hnd. destruct Hnd as [Hf Hnd].
    destruct (Hin f (list_elem_of_here _ _)) as (n & -> & Hv).
    simpl in H. rewrite filepath_Base_snoc, (filepath_Join_valid _ _ Hv) in H.
    unfold bind, wrap in H.
    destruct (os_Rename (inc ++ [n]) (agg ++ [n]) w) as [w' [[]|e]] eqn:Hr;
      [|discriminate H].
    unfold os_Rename in Hr.
    destruct (fs w !! (inc ++ [n])) as [[data|]|] eqn:Hsrc; try discriminate Hr.
    destruct (is_dir (fs w !! (agg ++ [n]))); [discriminate Hr|].
    destruct (is_dir (fs w !! filepath_Dir (agg ++ [n]))); [|discriminate Hr].
    injection Hr as <-.
    assert (Hin' : forall g, g ∈ files -> exists m, g = inc ++ [m] /\ valid_name m = true).
    { intros g Hg. apply Hin. apply list_elem_of_further. exact Hg. }
    destruct (IH _ _ Hnd Hin' H) as [Hmoved Hframe]. clear IH.
    assert (Hsd : forall m k : string, inc ++ [m] <> agg ++ [k])
      by (intros m k; apply incoming_ne_staged).
    split.
    + intros g Hg. apply elem_of_cons in Hg. destruct Hg as [->|Hg].
      * rewrite filepath_Base_snoc.
        rewrite (Hframe (inc ++ [n]) Hf).
        2:{ intros g Hg. apply Hsd. }
        rewrite (Hframe (agg ++ [n])).
        2:{ intros Hc. destruct (Hin' _ Hc) as (m & Hm & _). symmetry in Hm.
            apply (Hsd _ _ Hm). }
        2:{ intros g Hg Heq. destruct (Hin' _ Hg) as (m & -> & _).
            rewrite filepath_Base_snoc in Heq. apply app_inj_tail in Heq.
            destruct Heq as [_ ->]. contradiction. }
        simpl. rewrite lookup_insert_ne by (apply not_eq_sym, Hsd).
        rewrite lookup_delete_eq, lookup_insert_eq.
        split; [reflexivity|]. split; [symmetry; exact Hsrc|]. exists data. exact Hsrc.
      * destruct (Hmoved g Hg) as (H1 & H2 & H3). destruct (Hin' _ Hg) as (m & -> & _).
        assert (Hne : inc ++ [m] <> inc ++ [n]) by (intros Heq; rewrite Heq in Hg; contradiction).
        simpl in H2, H3. rewrite lookup_insert_ne in H2, H3 by apply not_eq_sym, Hsd.
        rewrite lookup_delete_ne in H2, H3 by (apply not_eq_sym; exact Hne).
        split; [exact H1|]. split; [exact H2|exact H3].
    + intros p Hp Hd. apply not_elem_of_cons in Hp. destruct Hp as [Hpf Hp].
      rewrite (Hframe p Hp).
      2:{ intros g Hg. apply Hd. apply list_elem_of_further. exact Hg. }
      simpl. rewrite lookup_insert_ne.
      2:{ intros Heq. apply (Hd (inc ++ [n]) (list_elem_of_here _ _)).
          rewrite filepath_Base_snoc. symmetry. exact Heq. }
      apply lookup_delete_ne. apply not_eq_sym. exact Hpf.
Qed.

(** What a promotion that succeeds leaves. *)
Lemma promotion_run
    (E : Env) (dataType : string) (w w1 : World) (files : list path) :
  batched dataType ->
  getFiles (BaseDir E ++ [dataType]) w = (w, Ok files) ->
  MoveToAggregation E files dataType w = (w1, Ok tt) ->
  let staged f := BaseDir E ++ [dataType; "aggregation"%string; filepath_Base f] in
  (forall f, f ∈ files ->
     exists data, fs w !! f = Some (File data) /\ fs w1 !! f = None
                  /\ fs w1 !! staged f = Some (File data))
  /\ getFiles (BaseDir E ++ [dataType]) w1 = (w1, Ok [])
  /\ (forall p : path, p ∉ files -> (forall f, f ∈ files -> p <> staged f) ->
        fs w1 !! p = fs w !! p).
Proof.
  intros Hb Hl Hm staged.
  set (inc := BaseDir E ++ [dataType]).
  assert (Hagg : filepath_Join (BaseDir E) [dataType; "aggregation"%string]
                 = inc ++ ["aggregation"%string]).
  { rewrite filepath_Join_stage by (auto; left; reflexivity).
    unfold inc. rewrite <- app_assoc. reflexivity. }
  assert (Hst : forall f, staged f = (inc ++ ["aggregation"%string]) ++ [filepath_Base f]).
  { intros f. unfold staged, inc. rewrite <- !app_assoc. reflexivity. }
  destruct (getFiles_Ok_dir _ _ _ _ Hl) as [_ Hdir].
  destruct (proj1 (getFiles_listing inc w) Hdir) as (l & Hl' & Hnd & _ & Hel).
  fold inc in Hl. rewrite Hl in Hl'. injection Hl' as <-.
  unfold MoveToAggregation in Hm. rewrite Hagg in Hm.
  assert (Hin : forall f, f ∈ files -> exists n, f = inc ++ [n] /\ valid_name n = true).
  { intros f Hf. apply Hel in Hf. destruct Hf as (n & data & -> & Hv & _).
    exists n. split; [reflexivity|exact Hv]. }
  destruct (MoveToAggregation_loop_Ok inc files w w1 Hnd Hin Hm) as [Hmoved Hframe].
  assert (Hframe' : forall p : path, p ∉ files -> (forall f, f ∈ files -> p <> staged f) ->
                              fs w1 !! p = fs w !! p).
  { intros p Hp Hd. apply Hframe; [exact Hp|]. intros f Hf. rewrite <- Hst. apply Hd, Hf. }
  split; [|split; [|exact Hframe']].
  - intros f Hf. destruct (Hmoved f Hf) as (H1 & H2 & data & H3).
    exists data. split; [exact H3|]. split; [exact H1|]. rewrite Hst, H2. exact H3.
  - assert (Hdir1 : fs w1 !! inc = Some Dir).
    { rewrite Hframe'; [exact Hdir| |].
      - intros Hc. destruct (Hin _ Hc) as (n & Hn & _). symmetry in Hn.
        apply (snoc_ne_dir _ _ Hn).
      - intros f Hf Heq. rewrite Hst, <- app_assoc in Heq.
        symmetry in Heq. apply (list_ne_app_cons _ _ _ Heq). }
    destruct (proj1 (getFiles_listing inc w1) Hdir1) as (l1 & Hl1 & _ & _ & Hel1).
    rewrite Hl1. f_equal. f_equal. destruct l1 as [|f l1]; [reflexivity|]. exfalso.
    destruct (proj1 (Hel1 f) (list_elem_of_here _ _)) as (n & data & -> & Hv & Hf1).
    destruct (decide ((inc ++ [n]) ∈ files)) as [Hf|Hf].
    + destruct (Hmoved _ Hf) as (Hnone & _). rewrite Hnone in Hf1. discriminate Hf1.
    + rewrite Hframe' in Hf1; [| exact Hf |].
      * apply Hf. apply Hel. exists n, data. repeat split; assumption.
      * intros g Hg. rewrite Hst. apply incoming_ne_staged.
Qed.

(** X15: a promotion that succeeds empties the incoming directory
    and keeps every record.  When [MoveToAggregation] is given the listing
    of the incoming directory of a batched kind and returns no error, every
    listed file is gone from the incoming directory and stands, with the
    same bytes, under the same name in the aggregation directory; the
    incoming directory then lists no file; and every path that is neither a
    listed file nor the new place of one is as it was. *)
Theorem promotion_moves_every_listed_record
    (E : Env) (dataType : string) (w w1 : World) (files : list path) :
  batched dataType ->
  getFiles (BaseDir E ++ [dataType]) w = (w, Ok files) ->
  MoveToAggregation E files dataType w = (w1, Ok tt) ->
  let staged f := BaseDir E ++ [dataType; "aggregation"%string; filepath_Base f] in
  (forall f, f ∈ files ->
     exists data, fs w !! f = Some (File data) /\ fs w1 !! f = None
                  /\ fs w1 !! staged f = Some (File data))
  /\ getFiles (BaseDir E ++ [dataType]) w1 = (w1, Ok [])
  /\ (forall p : path, p ∉ files -> (forall f, f ∈ files -> p <> staged f) ->
        fs w1 !! p = fs w !! p).
Proof. apply promotion_run. Qed.

Lemma promotion_moves_every_listed_record_witness :
  let staged f := BaseDir Example.calm
                  ++ ["usage"%string; "aggregation"%string; filepath_Base f] in
  let w := Example.two_records in
  let w1 := fst (MoveToAggregation Example.calm [Example.alice; Example.carol] "usage" w) in
  (forall f, f ∈ [Example.alice; Example.carol] ->
     exists data, fs w !! f = Some (File data) /\ fs w1 !! f = None
                  /\ fs w1 !! staged f = Some (File data))
  /\ getFiles (BaseDir Example.calm ++ ["usage"%string]) w1 = (w1, Ok [])
  /\ (forall p : path, p ∉ [Example.alice; Example.carol] ->
        (forall f, f ∈ [Example.alice; Example.carol] -> p <> staged f) ->
        fs w1 !! p = fs w !! p).
Proof.
  intros staged w w1.
  apply (promotion_moves_every_listed_record Example.calm "usage" w w1
           [Example.alice; Example.carol]).
  - left. reflexivity.
  - apply getFiles_run. vm_compute. reflexivity.
  - apply run_pair. vm_compute. reflexivity.
Defined.

(** ** The directories of the cache *)

Lemma with_fs_id w : with_fs (fs w) w = w.
Proof. destruct w. reflexivity. Qed.

Lemma keeps_refl w : keeps w w.
Proof. repeat split; auto. Qed.

Lemma keeps_trans a b c : keeps a b -> keeps b c -> keeps a c.
Proof.
  intros (P1 & T1 & K1 & N1) (P2 & T2 & K2 & N2).
  split; [rewrite P2; exact P1|]. split; [rewrite T2; exact T1|]. split.
  - intros p n Hp H. apply K2; [exact Hp|]. apply K1; assumption.
  - intros p. destruct (N2 p) as [H|H]; [|right; exact H].
    rewrite H. apply N1.
Qed.

Lemma os_MkdirAll_from_keeps rest : forall done w,
  let w' := fst (os_MkdirAll_from done rest w) in
  puts w' = puts w /\ ticks w' = ticks w
  /\ (forall p n, fs w !! p = Some n -> fs w' !! p = Some n)
  /\ (forall p, fs w' !! p = fs w !! p \/ fs w' !! p = Some Dir).
Proof.
  induction rest as [|e rest IH]; intros done w; simpl.
  - repeat split; auto.
  - destruct (fs w !! (done ++ [e])) as [[data|]|] eqn:Hd.
    + simpl. repeat split; auto.
    + apply IH.
    + destruct (IH (done ++ [e]) (with_fs (<[done ++ [e] := Dir]> (fs w)) w))
        as (P & T & K & N).
      split; [exact P|]. split; [exact T|]. split.
      * intros p n Hp. apply K. simpl.
        rewrite lookup_insert_ne; [exact Hp|]. intros <-. rewrite Hd in Hp. discriminate Hp.
      * intros p. destruct (N p) as [H|H]; [|right; exact H].
        rewrite H. simpl. destruct (decide (done ++ [e] = p)) as [<-|Hne].
        -- right. apply lookup_insert_eq.
        -- left. apply lookup_insert_ne. exact Hne.
Qed.

Lemma os_MkdirAll_keeps p w : keeps w (fst (os_MkdirAll p w)).
Proof.
  unfold os_MkdirAll.
  destruct (os_MkdirAll_from_keeps p [] (with_fs (<[[] := Dir]> (fs w)) w))
    as (P & T & K & N).
  split; [exact P|]. split; [exact T|]. split.
  - intros q n Hq H. apply K. simpl. rewrite lookup_insert_ne; [exact H|].
    apply not_eq_sym. exact Hq.
  - intros q. destruct (N q) as [H|H]; [|right; exact H].
    rewrite H. simpl. destruct (decide ([] = q)) as [<-|Hne].
    + right. apply lookup_insert_eq.
    + left. apply lookup_insert_ne. exact Hne.
Qed.

Lemma os_MkdirAll_from_Ok rest : forall done w w',
  os_MkdirAll_from done rest w = (w', Ok tt) ->
  fs w !! done = Some Dir ->
  forall q, done `prefix_of` q -> q `prefix_of` done ++ rest -> fs w' !! q = Some Dir.
Proof.
  induction rest as [|e rest IH]; intros done w w' H Hd q H1 H2.
  - simpl in H. injection H as <-. rewrite app_nil_r in H2.
    rewrite (anti_symm prefix _ _ H2 H1). exact Hd.
  - pose proof (os_MkdirAll_from_keeps (e :: rest) done w) as Kp.
    cbv zeta in Kp. rewrite H in Kp. destruct Kp as (_ & _ & K & _).
    simpl in H.
    destruct (decide (q = done)) as [->|Hne]; [apply K; exact Hd|].
    assert (Hq : (done ++ [e]) `prefix_of` q).
    { destruct H1 as [k ->]. destruct H2 as [k' Hk'].
      rewrite <- app_assoc in Hk'. apply app_inv_head in Hk'.
      destruct k as [|x k]; [exfalso; apply Hne; rewrite app_nil_r; reflexivity|].
      simpl in Hk'. injection Hk' as <- _. exists k. rewrite <- app_assoc. reflexivity. }
    assert (Hq2 : q `prefix_of` (done ++ [e]) ++ rest) by (rewrite <- app_assoc; exact H2).
    destruct (fs w !! (done ++ [e])) as [[data|]|] eqn:He; [discriminate H| |].
    + apply (IH _ _ _ H He q Hq Hq2).
    + apply (IH _ _ _ H (lookup_insert_eq _ _ _) q Hq Hq2).
Qed.

Lemma os_MkdirAll_Ok p w w' :
  os_MkdirAll p w = (w', Ok tt) -> forall q, q `prefix_of` p -> fs w' !! q = Some Dir.
Proof.
  unfold os_MkdirAll. intros H q Hq.
  apply (os_MkdirAll_from_Ok p [] _ _ H (lookup_insert_eq _ _ _) q); [|exact Hq].
  apply prefix_nil.
Qed.

Lemma os_MkdirAll_from_id rest : forall done w,
  (forall q, done `prefix_of` q -> q `prefix_of` done ++ rest -> fs w !! q = Some Dir) ->
  os_MkdirAll_from done rest w = (w, Ok tt).
Proof.
  induction rest as [|e rest IH]; intros done w H; [reflexivity|]. simpl.
  rewrite (H (done ++ [e])).
  - apply IH. intros q H1 H2. apply H.
    + etransitivity; [|exact H1]. apply prefix_app_r. reflexivity.
    + rewrite <- app_assoc in H2. exact H2.
  - apply prefix_app_r. reflexivity.
  - apply prefix_app. exists rest. reflexivity.
Qed.

Lemma os_MkdirAll_id p w :
  (forall q, q `prefix_of` p -> fs w !! q = Some Dir) -> os_MkdirAll p w = (w, Ok tt).
Proof.
  intros H. unfold os_MkdirAll.
  rewrite (insert_id (fs w) [] Dir) by (apply H, prefix_nil).
  rewrite with_fs_id. apply os_MkdirAll_from_id. intros q _ Hq. apply H. exact Hq.
Qed.

Lemma mkdirs_Ok dirs : forall w w',
  mkdirs dirs w = (w', Ok tt) ->
  keeps w w' /\ forall d, d ∈ dirs -> forall q, q `prefix_of` d -> fs w' !! q = Some Dir.
Proof.
  induction dirs as [|d dirs IH]; intros w w' H.
  - simpl in H. injection H as <-. split; [apply keeps_refl|].
    intros d Hd. apply elem_of_nil in Hd. contradiction.
  - simpl in H. unfold bind, wrap in H.
    pose proof (os_MkdirAll_keeps d w) as Hk.
    destruct (os_MkdirAll d w) as [w1 [[]|e]] eqn:Hm; [|discriminate H].
    simpl in Hk. destruct (IH _ _ H) as [Hk1 Hall].
    split; [apply (keeps_trans _ _ _ Hk Hk1)|].
    intros d' Hd' q Hq. apply elem_of_cons in Hd'. destruct Hd' as [->|Hd'].
    + destruct Hk1 as (_ & _ & K & N).
      pose proof (os_MkdirAll_Ok _ _ _ Hm q Hq) as Hq1.
      destruct (N q) as [Hn|Hn]; [rewrite Hn; exact Hq1|exact Hn].
    + apply (Hall d' Hd' q Hq).
Qed.

Lemma mkdirs_id dirs : forall w,
  (forall d, d ∈ dirs -> forall q, q `prefix_of` d -> fs w !! q = Some Dir) ->
  mkdirs dirs w = (w, Ok tt).
Proof.
  induction dirs as [|d dirs IH]; intros w H; [reflexivity|].
  simpl. unfold bind, wrap.
  rewrite (os_MkdirAll_id d w) by (apply H, list_elem_of_here).
  apply IH. intros d' Hd'. apply H. apply list_elem_of_further. exact Hd'.
Qed.

Lemma Init_mkdirs E : Init E = mkdirs (stage_dirs E).
Proof.
  unfold Init, mkdirs, stage_dirs, filepath_Join. simpl. unfold clean_step. simpl.
  rewrite <- !app_assoc. reflexivity.
Qed.

(** X16: what [Init] leaves.  When [Init] returns no error, each of
    its eight directories is a directory; every entry that was there below
    the root is still there, a file with its bytes; no file is new; the log
    of the object store is the same; and to run [Init] again changes
    nothing. *)
Theorem Init_makes_the_directories_and_keeps_the_files (E : Env) (w w' : World) :
  Init E w = (w', Ok tt) ->
  (forall d, d ∈ stage_dirs E -> fs w' !! d = Some Dir)
  /\ (forall p n, p <> [] -> fs w !! p = Some n -> fs w' !! p = Some n)
  /\ (forall p data, fs w' !! p = Some (File data) -> fs w !! p = Some (File data))
  /\ puts w' = puts w
  /\ Init E w' = (w', Ok tt).
Proof.
  rewrite Init_mkdirs. intros H. destruct (mkdirs_Ok _ _ _ H) as [(P & T & K & N) Hall].
  split; [intros d Hd; apply (Hall d Hd d); reflexivity|].
  split; [exact K|]. split; [|split; [exact P|apply mkdirs_id; exact Hall]].
  intros p data Hp. destruct (N p) as [Hn|Hn]; [rewrite <- Hn; exact Hp|].
  rewrite Hn in Hp. discriminate Hp.
Qed.

Lemma Init_makes_the_directories_and_keeps_the_files_witness :
  let w := mkWorld {[ ["var"%string; "x"%string] := File [x61] ]} 0 [] in
  let w' := fst (Init Example.calm w) in
  (forall d, d ∈ stage_dirs Example.calm -> fs w' !! d = Some Dir)
  /\ (forall p n, p <> [] -> fs w !! p = Some n -> fs w' !! p = Some n)
  /\ (forall p data, fs w' !! p = Some (File data) -> fs w !! p = Some (File data))
  /\ puts w' = puts w
  /\ Init Example.calm w' = (w', Ok tt).
Proof.
  intros w w'.
  assert (H : snd (Init Example.calm w) = Ok tt) by (vm_compute; reflexivity).
  exact (Init_makes_the_directories_and_keeps_the_files Example.calm w
           (fst (Init Example.calm w)) (run_pair _ _ _ H)).
Defined.

(** ** The names of the records, as entries *)

Lemma itoa_nonempty z : itoa z <> EmptyString.
Proof.
  unfold itoa. intros H.
  assert (Hnn : Z.to_int z <> Decimal.Pos Decimal.Nil /\ Z.to_int z <> Decimal.Neg Decimal.Nil).
  { destruct z as [|p|p]; simpl; split; try discriminate; intros Hp; injection Hp as Hp;
      apply (DecimalPos.Unsigned.to_uint_nonnil p Hp). }
  pose proof (NilZero.isi _ (proj1 Hnn) (proj2 Hnn)) as Hi.
  rewrite H in Hi. discriminate Hi.
Qed.

(** A text that starts with a byte that is no dot and holds no separator is
    a name an entry can bear. *)
Lemma valid_name_by_first c rest :
  Ascii.eqb c "." = false -> no_slash (String c rest) = true ->
  valid_name (String c rest) = true.
Proof.
  intros Hc Hs. unfold valid_name, dot, dotdot. rewrite Hs. simpl. rewrite Hc. reflexivity.
Qed.

Lemma valid_name_app a b :
  (exists c rest, a = String c rest /\ Ascii.eqb c "." = false) ->
  no_slash (a +:+ b) = true -> valid_name (a +:+ b) = true.
Proof.
  intros (c & rest & -> & Hc) Hs. rewrite string_app_cons in *.
  apply valid_name_by_first; assumption.
Qed.

Lemma itoa_first z : exists c rest, itoa z = String c rest /\ Ascii.eqb c "." = false.
Proof.
  pose proof (itoa_nonempty z) as Hn. pose proof (no_dot_itoa z) as Hd.
  destruct (itoa z) as [|c rest]; [contradiction|].
  exists c, rest. split; [reflexivity|].
  simpl in Hd. apply andb_prop in Hd. apply negb_true_iff, Hd.
Qed.

Lemma no_slash_zeros n : no_slash (zeros n) = true.
Proof. induction n as [|n IH]; [reflexivity|exact IH]. Qed.

Lemma no_slash_appendInt x width : no_slash (appendInt x width) = true.
Proof.
  unfold appendInt. rewrite !no_slash_app, no_slash_zeros, no_slash_itoa.
  destruct (x <? 0); reflexivity.
Qed.

Lemma appendInt_first x width :
  exists c rest, appendInt x width = String c rest /\ Ascii.eqb c "." = false.
Proof.
  unfold appendInt. destruct (x <? 0); [eexists _, _; split; reflexivity|].
  change (EmptyString +:+ ?s) with s.
  destruct (width - String.length (itoa (Z.abs x)))%nat as [|n].
  - apply itoa_first.
  - eexists _, _. split; reflexivity.
Qed.

Lemma no_slash_digits width : forall u acc,
  no_slash (digits width u acc) = no_slash acc.
Proof.
  induction width as [|width IH]; intros u acc; [reflexivity|].
  simpl. rewrite IH. simpl.
  assert (Hd : 0 <= u mod 10 <= 9) by (pose proof (Z.mod_pos_bound u 10); lia).
  pose proof (is_digit_digit_char _ Hd) as Hc.
  destruct (Ascii.eqb_spec (digit_char (u mod 10)) "/") as [He|_]; [|reflexivity].
  rewrite He in Hc. discriminate Hc.
Qed.

Lemma no_slash_trim_zeros s : no_slash s = true -> no_slash (trim_zeros s) = true.
Proof.
  induction s as [|c s IH]; [reflexivity|]. simpl. intros H.
  apply andb_prop in H. destruct H as [Hc Hs]. specialize (IH Hs).
  destruct (trim_zeros s) as [|d t].
  - destruct (Ascii.eqb c "0"); [reflexivity|]. simpl. rewrite Hc. reflexivity.
  - simpl. rewrite Hc. exact IH.
Qed.

Lemma no_slash_formatNano6 ns : no_slash (formatNano6 ns) = true.
Proof.
  unfold formatNano6.
  assert (H : no_slash (trim_zeros (string_take 6 (digits 9 ns EmptyString))) = true).
  { apply no_slash_trim_zeros. unfold string_take. apply no_slash_substring.
    rewrite no_slash_digits. reflexivity. }
  destruct (trim_zeros _); [reflexivity|]. exact H.
Qed.

Lemma no_slash_Format_specimen t : no_slash (Format_specimen t) = true.
Proof.
  unfold Format_specimen.
  rewrite !no_slash_app, !no_slash_appendInt, no_slash_formatNano6. reflexivity.
Qed.

(** The name generated for a record is a name an entry can bear: always
    for a specimen, and for a report when its owner holds no separator. *)
Lemma generated_name_valid E k owner w name :
  snd (generate E k owner w) = Ok name ->
  k = Specimen \/ no_slash owner = true ->
  valid_name name = true.
Proof.
  intros Hg Hk.
  assert (Hu : k <> Specimen -> no_slash owner = true).
  { intros Hne. destruct Hk as [->|H]; [contradiction|exact H]. }
  destruct k; simpl in Hg; unfold generateFilename, generateSpecimenFilename, bind,
    time_Now, ret in Hg; simpl in Hg; injection Hg as <-.
  1,2: apply valid_name_app; [apply itoa_first|];
       rewrite !no_slash_app, !no_slash_itoa, Hu by discriminate; reflexivity.
  unfold Format_specimen. rewrite !string_app_assoc.
  apply valid_name_app; [apply appendInt_first|].
  rewrite !no_slash_app, !no_slash_appendInt, no_slash_formatNano6, no_slash_itoa,
    no_slash_QueryEscape. reflexivity.
Qed.

Lemma valid_kind_dir k : valid_name (kind_dir k) = true.
Proof. destruct k; reflexivity. Qed.

Lemma valid_name_no_slash n : valid_name n = true -> no_slash n = true.
Proof. unfold valid_name. intros H. apply andb_prop in H. apply H. Qed.

Lemma clean_step_valid (p : path) n : valid_name n = true -> clean_step p n = p ++ [n].
Proof.
  intros H. pose proof (filepath_Join_valid p n H) as Hj.
  unfold filepath_Join in Hj. simpl in Hj.
  rewrite (strings_Split_no_slash _ (valid_name_no_slash _ H)) in Hj. exact Hj.
Qed.

Lemma filepath_Join_two dir a b :
  valid_name a = true -> valid_name b = true -> filepath_Join dir [a; b] = dir ++ [a; b].
Proof.
  intros Ha Hb. unfold filepath_Join. simpl.
  rewrite (strings_Split_no_slash _ (valid_name_no_slash _ Ha)),
    (strings_Split_no_slash _ (valid_name_no_slash _ Hb)). simpl.
  rewrite (clean_step_valid _ _ Ha), (clean_step_valid _ _ Hb), <- app_assoc. reflexivity.
Qed.

(** X17: a record that is admitted is an entry of the
    directory of its kind.  When [SaveUsage], [SaveError] or [SaveSpecimen]
    returns no error (for a report, with an owner that holds no separator),
    the generated name is a name an entry can bear, the file of that name in
    the directory of the kind holds the payload, and the listing of that
    directory, which the next cycle or the next upload takes, succeeds and
    holds that file. *)
Theorem admitted_record_is_listed
    (E : Env) (k : Kind) (owner : string) (data : bytes) (w w1 : World) :
  Admit E k owner data w = (w1, Ok tt) ->
  k = Specimen \/ no_slash owner = true ->
  exists name l,
    snd (generate E k owner w) = Ok name /\ valid_name name = true /\
    fs w1 !! (BaseDir E ++ [kind_dir k; name]) = Some (File data) /\
    getFiles (BaseDir E ++ [kind_dir k]) w1 = (w1, Ok l) /\
    (BaseDir E ++ [kind_dir k; name]) ∈ l.
Proof.
  intros H Hk. rewrite Admit_unfold in H.
  destruct (generate_run E k owner w) as [name Hg].
  assert (Hn : snd (generate E k owner w) = Ok name) by (rewrite Hg; reflexivity).
  pose proof (generated_name_valid E k owner w name Hn Hk) as Hv.
  rewrite (bind_Ok _ _ _ _ _ Hg) in H.
  rewrite (filepath_Join_two _ _ _ (valid_kind_dir k) Hv) in H.
  apply saveFile_Ok in H. destruct H as (_ & Hd & ->).
  replace (filepath_Dir (BaseDir E ++ [kind_dir k; name])) with (BaseDir E ++ [kind_dir k]) in Hd
    by (change [kind_dir k; name] with ([kind_dir k] ++ [name]);
        rewrite app_assoc, filepath_Dir_snoc; reflexivity).
  simpl in Hd. apply is_dir_true in Hd.
  set (p := BaseDir E ++ [kind_dir k; name]).
  set (w1 := with_fs _ _).
  assert (Hp : fs w1 !! p = Some (File data)) by (simpl; apply lookup_insert_eq).
  assert (Hdir : fs w1 !! (BaseDir E ++ [kind_dir k]) = Some Dir).
  { simpl. rewrite lookup_insert_ne; [exact Hd|]. unfold p.
    change [kind_dir k; name] with ([kind_dir k] ++ [name]). rewrite app_assoc.
    apply snoc_ne_dir. }
  destruct (getFiles_of_dir _ _ Hdir) as [l Hl].
  exists name, l. split; [exact Hn|]. split; [exact Hv|]. split; [exact Hp|].
  split; [exact Hl|].
  apply (getFiles_elem_of _ _ _ _ Hl). exists name, data.
  split; [unfold p; rewrite <- app_assoc; reflexivity|]. split; [exact Hv|exact Hp].
Qed.

Lemma admitted_record_is_listed_witness :
  let w1 := fst (Admit Example.calm Usage "alice" [x61] Example.fresh) in
  exists name l,
    snd (generate Example.calm Usage "alice" Example.fresh) = Ok name /\
    valid_name name = true /\
    fs w1 !! (BaseDir Example.calm ++ [kind_dir Usage; name]) = Some (File [x61]) /\
    getFiles (BaseDir Example.calm ++ [kind_dir Usage]) w1 = (w1, Ok l) /\
    (BaseDir Example.calm ++ [kind_dir Usage; name]) ∈ l.
Proof.
  intros w1.
  assert (H : snd (Admit Example.calm Usage "alice" [x61] Example.fresh) = Ok tt)
    by (vm_compute; reflexivity).
  exact (admitted_record_is_listed Example.calm Usage "alice" [x61] Example.fresh
           (fst (Admit Example.calm Usage "alice" [x61] Example.fresh))
           (run_pair _ _ _ H) (or_intror eq_refl)).
Defined.

(** ** An owner that holds separators *)

Lemma strings_Split_app a b :
  no_slash a = true ->
  strings_Split (a +:+ String "/" b) "/" = a :: strings_Split b "/".
Proof.
  induction a as [|c a IH]; intros H; [reflexivity|].
  simpl in H. apply andb_prop in H. destruct H as [Hc Hs].
  apply negb_true_iff in Hc. rewrite string_app_cons. simpl. rewrite Hc, (IH Hs).
  reflexivity.
Qed.

(** X18: the owner of a report is joined into the path as it
    is.  For an owner that is [/../] followed by a name, the path
    [filepath.Join] gives is that name in the directory of the kind: the
    generated part is cancelled by the [..], and [SaveUsage] and
    [SaveError] create or overwrite the file of that name, whatever it
    holds, instead of a file named after the time and the process. *)
Theorem owner_with_dotdot_names_the_file
    (E : Env) (k : Kind) (n : string) (data : bytes) (w : World) :
  k <> Specimen ->
  valid_name n = true ->
  fs w !! (BaseDir E ++ [kind_dir k]) = Some Dir ->
  fs w !! (BaseDir E ++ [kind_dir k; n]) <> Some Dir ->
  Admit E k ("/../" +:+ n) data w
  = (mkWorld (<[BaseDir E ++ [kind_dir k; n] := File data]> (fs w)) (S (ticks w)) (puts w),
     Ok tt).
Proof.
  intros Hk Hv Hd Hp. rewrite Admit_unfold.
  assert (Hg : generate E k ("/../" +:+ n) w
               = (mkWorld (fs w) (S (ticks w)) (puts w),
                  Ok ((itoa (UnixNano (clock E (ticks w))) +:+ "." +:+ itoa (os_Getpid E)
                       +:+ ".") +:+ String "/" (".." +:+ String "/" n)))).
  { destruct k; try contradiction; simpl;
      unfold generateFilename, bind, time_Now, ret; simpl;
      rewrite !string_app_assoc; reflexivity. }
  rewrite (bind_Ok _ _ _ _ _ Hg).
  set (pre := itoa (UnixNano (clock E (ticks w))) +:+ "." +:+ itoa (os_Getpid E) +:+ ".").
  assert (Hpre : valid_name pre = true).
  { unfold pre. apply valid_name_app; [apply itoa_first|].
    rewrite !no_slash_app, !no_slash_itoa. reflexivity. }
  assert (Hns : no_slash n = true) by (apply valid_name_no_slash; exact Hv).
  assert (Hj : filepath_Join (BaseDir E) [kind_dir k; pre +:+ String "/" (".." +:+ String "/" n)]
               = BaseDir E ++ [kind_dir k; n]).
  { unfold filepath_Join. simpl.
    rewrite (strings_Split_no_slash _ (valid_name_no_slash _ (valid_kind_dir k))).
    rewrite (strings_Split_app pre _ (valid_name_no_slash _ Hpre)).
    rewrite (strings_Split_app ".." n eq_refl), (strings_Split_no_slash n Hns). simpl.
    rewrite (clean_step_valid _ _ (valid_kind_dir k)), (clean_step_valid _ _ Hpre).
    unfold clean_step at 2. simpl.
    rewrite removelast_last, (clean_step_valid _ _ Hv), <- app_assoc. reflexivity. }
  rewrite Hj. unfold saveFile, bind, wrap, os_Create, os_WriteFile, ret. simpl.
  replace (filepath_Dir (BaseDir E ++ [kind_dir k; n])) with (BaseDir E ++ [kind_dir k])
    by (change [kind_dir k; n] with ([kind_dir k] ++ [n]);
        rewrite app_assoc, filepath_Dir_snoc; reflexivity).
  rewrite Hd. simpl.
  destruct (fs w !! (BaseDir E ++ [kind_dir k; n])) as [[d|]|] eqn:Hf; simpl;
    try (unfold with_fs; simpl; rewrite insert_insert_eq; reflexivity).
  exfalso. apply Hp. reflexivity.
Qed.

Lemma owner_with_dotdot_names_the_file_witness :
  Admit Example.calm Usage ("/../" +:+ "x") [x62] Example.fresh
  = (mkWorld (<[BaseDir Example.calm ++ [kind_dir Usage; "x"%string] := File [x62]]>
                (fs Example.fresh))
       (S (ticks Example.fresh)) (puts Example.fresh),
     Ok tt).
Proof.
  apply (owner_with_dotdot_names_the_file Example.calm Usage "x" [x62] Example.fresh).
  - discriminate.
  - reflexivity.
  - vm_compute. reflexivity.
  - vm_compute. discriminate.
Defined.

(** ** The upload of a specimen *)

Lemma find_targetFile_Some uri files target :
  find_targetFile uri files = Some target ->
  target ∈ files /\ exists ts, GetSpecimenInfo target = Ok (uri, ts).
Proof.
  induction files as [|f files IH]; simpl; [discriminate|].
  destruct (GetSpecimenInfo f) as [[u ts]|e] eqn:Hf.
  - destruct (String.eqb_spec u uri) as [->|Hne].
    + intros H. injection H as <-. split; [apply list_elem_of_here|]. exists ts. exact Hf.
    + intros H. destruct (IH H) as [H1 H2]. split; [apply list_elem_of_further, H1|exact H2].
  - intros H. destruct (IH H) as [H1 H2]. split; [apply list_elem_of_further, H1|exact H2].
Qed.

Lemma find_targetFile_None uri files :
  find_targetFile uri files = None <->
  forall f, f ∈ files -> forall ts, GetSpecimenInfo f <> Ok (uri, ts).
Proof.
  induction files as [|f files IH]; simpl.
  - split; [|reflexivity]. intros _ f Hf. apply elem_of_nil in Hf. contradiction.
  - destruct (GetSpecimenInfo f) as [[u ts]|e] eqn:Hf.
    + destruct (String.eqb_spec u uri) as [->|Hne].
      * split; [discriminate|]. intros H. exfalso.
        apply (H f (list_elem_of_here _ _) ts). exact Hf.
      * rewrite IH. split.
        -- intros H g Hg ts' Hc. apply elem_of_cons in Hg. destruct Hg as [->|Hg].
           ++ rewrite Hf in Hc. injection Hc as Hu _. contradiction.
           ++ apply (H g Hg ts' Hc).
        -- intros H g Hg. apply H. apply list_elem_of_further. exact Hg.
    + rewrite IH. split.
      * intros H g Hg ts' Hc. apply elem_of_cons in Hg. destruct Hg as [->|Hg].
        -- rewrite Hf in Hc. discriminate Hc.
        -- apply (H g Hg ts' Hc).
      * intros H g Hg. apply H. apply list_elem_of_further. exact Hg.
Qed.


Lemma GetSpecimenFiles_eq E : GetSpecimenFiles E = getFiles (BaseDir E ++ ["specimen"%string]).
Proof. unfold GetSpecimenFiles. rewrite filepath_Join_valid by reflexivity. reflexivity. Qed.




(** X20: [UploadSpecimen] finds nothing exactly when no
    listed file decodes to the URI.  It returns the error of a specimen that
    is not found, and leaves the world as it was, if and only if the
    specimen directory can be listed and no file of the listing has a name
    that [GetSpecimenInfo] decodes to the URI. *)
Theorem UploadSpecimen_not_found_iff (E : Env) (user uri : string) (w : World) :
  UploadSpecimen E user uri w = (w, Err (ErrorNew "specimen file not found for URI")) <->
  exists files,
    getFiles (BaseDir E ++ ["specimen"%string]) w = (w, Ok files) /\
    forall f, f ∈ files -> forall ts, GetSpecimenInfo f <> Ok (uri, ts).
Proof.
  unfold UploadSpecimen. rewrite GetSpecimenFiles_eq. split.
  - intros H. unfold bind at 1 in H. unfold wrap at 1 in H.
    pose proof (getFiles_world (BaseDir E ++ ["specimen"%string]) w) as Hw.
    destruct (getFiles (BaseDir E ++ ["specimen"%string]) w) as [w0 [files|e]];
      simpl in Hw; subst w0; [|discriminate H].
    exists files. split; [reflexivity|]. apply find_targetFile_None.
    destruct (find_targetFile uri files) as [target|]; [|reflexivity].
    exfalso. unfold bind, wrap in H.
    destruct (MoveToUploading E target "specimen" w) as [w1 [upl|e]]; [|discriminate H].
    destruct (uploadSpecimenFile E upl user uri w1) as [w2 [[]|e]] eqn:Hu.
    + unfold try, ret in H. destruct (RemoveFile upl w2). discriminate H.
    + injection H as _ He. subst e. unfold uploadSpecimenFile, bind, wrap in Hu.
      destruct (ReadFile upl w1) as [w3 [d|e]]; [|discriminate Hu].
      destruct (GetSpecimenInfo upl) as [[u t]|e]; [|discriminate Hu].
      destruct (PutObject E _ w3) as [w4 [[]|e]]; discriminate Hu.
  - intros (files & Hl & Hnone). rewrite (bind_Ok _ _ _ _ _ (wrap_Ok _ _ _ _ _ Hl)).
    rewrite (proj2 (find_targetFile_None uri files) Hnone). reflexivity.
Qed.

(** ** A cycle that succeeds *)








(** ** The reconciliation pass *)

Lemma outside_weaken (d0 d : path) w w' :
  d0 `prefix_of` d -> outside d w w' -> outside d0 w w'.
Proof.
  intros Hd H p Hp. apply H. intros Hc. apply Hp. etransitivity; eassumption.
Qed.

Lemma spec_weaken {A} (d0 d : path) (Q : A -> Prop) (m : M A) :
  d0 `prefix_of` d -> spec (outside d) Q m -> spec (outside d0) Q m.
Proof.
  intros Hd Hm w. destruct (Hm w) as [H1 H2]. split; [|exact H2].
  apply (outside_weaken d0 d); assumption.
Qed.

Lemma uploadSpecimenFile_fs E filePath user uri w :
  fs (fst (uploadSpecimenFile E filePath user uri w)) = fs w.
Proof.
  unfold uploadSpecimenFile, bind, wrap, ReadFile, os_ReadFile.
  destruct (fs w !! filePath) as [[d|]|]; try reflexivity.
  destruct (GetSpecimenInfo filePath) as [[u t]|e]; [|reflexivity].
  unfold PutObject. simpl. destruct (put_ok E (length (puts w))); reflexivity.
Qed.

(** [UploadSpecimen] changes nothing outside the specimen directory. *)
Lemma spec_UploadSpecimen E user uri :
  spec (outside (BaseDir E ++ ["specimen"%string])) (fun _ => True)
       (UploadSpecimen E user uri).
Proof.
  set (d := BaseDir E ++ ["specimen"%string]).
  unfold UploadSpecimen. rewrite GetSpecimenFiles_eq. fold d.
  apply (spec_bind _ (outside_trans d) (Forall (entry_under d))).
  { apply spec_wrap. apply spec_getFiles. reflexivity. }
  intros files Hfiles.
  destruct (find_targetFile uri files) as [target|] eqn:Hfind;
    [|apply spec_fail; apply outside_refl].
  destruct (find_targetFile_Some _ _ _ Hfind) as [Hin _].
  rewrite Forall_forall in Hfiles. pose proof (Hfiles _ Hin) as Ht.
  pose proof (entry_under_prefix _ _ Ht) as Hpre.
  destruct Ht as (dir & n & -> & Hv & Hdir).
  assert (Hup : d `prefix_of` BaseDir E ++ ["specimen"%string; "uploading"%string]).
  { exists ["uploading"%string]. unfold d. rewrite <- app_assoc. reflexivity. }
  apply (spec_bind _ (outside_trans d) (fun p => d `prefix_of` p)).
  { apply spec_wrap. unfold MoveToUploading.
    rewrite filepath_Join_two by reflexivity.
    rewrite filepath_Base_snoc, (filepath_Join_valid _ _ Hv).
    apply (spec_bind _ (outside_trans d) (fun _ => True)).
    - apply spec_wrap. intros w. split; [|intros; exact I].
      apply os_Rename_outside; [exact Hpre|]. apply prefix_app_r. exact Hup.
    - intros _ _. apply spec_ret; [apply outside_refl|]. apply prefix_app_r. exact Hup. }
  intros upl Hupl. apply (spec_bind _ (outside_trans d) (fun _ => True)).
  { intros w. split; [|intros; exact I].
    apply outside_same_fs. apply uploadSpecimenFile_fs. }
  intros _ _. apply (spec_bind _ (outside_trans d) (fun _ => True)).
  { apply (spec_post _ (fun r => forall a, r = Ok a -> True)); [intros; exact I|].
    apply spec_try. apply spec_os_Remove; [intros; exact I|exact Hupl]. }
  intros _ _. apply spec_ret; [apply outside_refl|exact I].
Qed.

Lemma spec_upload_specimens E files :
  spec (outside (BaseDir E ++ ["specimen"%string])) (fun _ => True)
       (upload_specimens E files).
Proof.
  induction files as [|f files IH]; simpl.
  - apply spec_ret; [apply outside_refl|exact I].
  - destruct (GetSpecimenInfo f) as [[uri t]|e]; [|exact IH].
    apply (spec_bind _ (outside_trans _) (fun _ => True)); [|intros _ _; exact IH].
    apply (spec_post _ (fun r => forall a, r = Ok a -> True)); [intros; exact I|].
    apply spec_try. apply spec_UploadSpecimen.
Qed.

Lemma upload_specimens_Ok E files : forall w, snd (upload_specimens E files w) = Ok tt.
Proof.
  induction files as [|f files IH]; intros w; simpl; [reflexivity|].
  destruct (GetSpecimenInfo f) as [[uri t]|e]; [|apply IH].
  unfold bind, try. destruct (UploadSpecimen E "unknown" uri w) as [w1 r]. apply IH.
Qed.

Lemma BaseDir_prefix_kind E (k : string) : BaseDir E `prefix_of` BaseDir E ++ [k].
Proof. exists [k]. reflexivity. Qed.

(** X22: [ProcessRemaining] keeps to the cache directory.
    Whatever the cache holds and whatever the object store answers, no
    entry of the store outside the cache directory is created, changed or
    removed, and the log of the object store only grows. *)
Theorem ProcessRemaining_keeps_to_the_cache (E : Env) (w : World) :
  outside (BaseDir E) w (fst (ProcessRemaining E w))
  /\ grows w (fst (ProcessRemaining E w)).
Proof.
  split.
  - assert (Hs : spec (outside (BaseDir E)) (fun _ => True) (ProcessRemaining E)).
    { unfold ProcessRemaining.
      apply (spec_bind _ (outside_trans _) (fun _ => True)).
      { apply (spec_weaken _ _ _ _ (BaseDir_prefix_kind E "usage")).
        apply spec_process_dataType. left. reflexivity. }
      intros _ _. apply (spec_bind _ (outside_trans _) (fun _ => True)).
      { apply (spec_weaken _ _ _ _ (BaseDir_prefix_kind E "error")).
        apply spec_process_dataType. right. reflexivity. }
      intros _ _. apply (spec_bind _ (outside_trans _) (fun _ => True)).
      { rewrite GetSpecimenFiles_eq. intros w0. split; [|intros; exact I].
        rewrite getFiles_world. apply outside_refl. }
      intros files _. apply (spec_bind _ (outside_trans _) (fun _ => True)).
      { apply (spec_weaken _ _ _ _ (BaseDir_prefix_kind E "specimen")).
        apply spec_upload_specimens. }
      intros _ _. apply spec_ret; [apply outside_refl|exact I]. }
    apply (Hs w).
  - eapply grows_trans; [|apply ProcessRemaining_grows_from].
    eapply grows_trans; [apply (process_dataType_grows E "usage" w)|].
    apply (process_dataType_grows E "error").
Qed.

Lemma kind_not_prefix_of_specimen E (k : string) :
  k <> "specimen"%string ->
  ~ (BaseDir E ++ [k]) `prefix_of` (BaseDir E ++ ["specimen"%string]).
Proof.
  intros Hk H. apply prefix_app_inv in H. apply prefix_cons_inv_1 in H. contradiction.
Qed.

(** X23: [ProcessRemaining] reports one failure only.  It
    returns no error exactly when the specimen directory is a directory, and
    the error of its listing otherwise: a cycle that fails, an upload the
    object store refuses and a specimen that is not found are logged, never
    returned. *)
Theorem ProcessRemaining_fails_only_on_the_specimen_listing (E : Env) (w : World) :
  (fs w !! (BaseDir E ++ ["specimen"%string]) = Some Dir ->
   snd (ProcessRemaining E w) = Ok tt)
  /\ (fs w !! (BaseDir E ++ ["specimen"%string]) <> Some Dir ->
      exists e, snd (ProcessRemaining E w) = Err (Errorf "failed to read directory" e)).
Proof.
  set (spec_dir := BaseDir E ++ ["specimen"%string]).
  assert (Hkeep : fs (fst (process_dataType E "error" (fst (process_dataType E "usage" w))))
                    !! spec_dir = fs w !! spec_dir).
  { rewrite (proj1 (spec_process_dataType E "error" (or_intror eq_refl) _))
      by (apply kind_not_prefix_of_specimen; discriminate).
    apply (proj1 (spec_process_dataType E "usage" (or_introl eq_refl) _)).
    apply kind_not_prefix_of_specimen. discriminate. }
  unfold ProcessRemaining, bind.
  pose proof (process_dataType_Ok E "usage" w) as H1.
  destruct (process_dataType E "usage" w) as [w1 r1]. simpl in H1, Hkeep. subst r1.
  pose proof (process_dataType_Ok E "error" w1) as H2.
  destruct (process_dataType E "error" w1) as [w2 r2]. simpl in H2, Hkeep. subst r2.
  rewrite GetSpecimenFiles_eq. fold spec_dir. rewrite <- Hkeep. split.
  - intros Hd. destruct (getFiles_of_dir _ _ Hd) as [l Hl]. rewrite Hl.
    pose proof (upload_specimens_Ok E l w2) as Hu.
    destruct (upload_specimens E l w2) as [w3 r3]. simpl in Hu. subst r3. reflexivity.
  - intros Hd. unfold getFiles, bind, wrap, os_ReadDir.
    destruct (fs w2 !! spec_dir) as [[d|]|]; [eexists; reflexivity| |eexists; reflexivity].
    exfalso. apply Hd. reflexivity.
Qed.

(** ** The name of a specimen, off the full second *)

(** X24: the name of a specimen decodes to its URI and its time,
    off the full second.  For a URI that is not empty and a reading of the
    clock that is a valid time whose microseconds are not zero, the name
    [generateSpecimenFilename] gives is a name an entry can bear, and
    [GetSpecimenInfo] of a file of that name, in whatever directory, returns
    the URI, byte for byte, and the time of the reading to the microsecond. *)
Theorem specimen_name_decodes_off_the_full_second
    (E : Env) (uri : string) (w : World) (dir : path) :
  uri <> EmptyString ->
  valid_time (clock E (ticks w)) ->
  1000 <= nanosecond (clock E (ticks w)) ->
  exists name,
    snd (generateSpecimenFilename E uri w) = Ok name /\
    valid_name name = true /\
    GetSpecimenInfo (dir ++ [name]) = Ok (uri, truncate_micro (clock E (ticks w))).
Proof. apply specimen_name_round_trip. Qed.

Lemma specimen_name_decodes_off_the_full_second_witness :
  exists name,
    snd (generateSpecimenFilename Scenario.flaky "a b:c?d" Example.fresh) = Ok name /\
    valid_name name = true /\
    GetSpecimenInfo (Example.specimen_dir ++ [name])
    = Ok ("a b:c?d"%string, truncate_micro (clock Scenario.flaky (ticks Example.fresh))).
Proof.
  apply (specimen_name_decodes_off_the_full_second Scenario.flaky "a b:c?d" Example.fresh
           Example.specimen_dir).
  - discriminate.
  - vm_compute. repeat split; discriminate.
  - vm_compute. discriminate.
Defined.

(** ** The artifacts left in the uploading directory *)

Lemma upload_remaining_other E l dataType : forall w (p : path),
  p ∉ l -> fs (fst (upload_remaining E l dataType w)) !! p = fs w !! p.
Proof.
  induction l as [|f l IH]; intros w p Hp; [reflexivity|].
  apply not_elem_of_cons in Hp. destruct Hp as [Hpf Hp].
  rewrite upload_remaining_cons, (IH _ p Hp).
  destruct (UploadAggregatedFile_puts E f dataType w) as [Hfs _].
  destruct (snd (UploadAggregatedFile E f dataType w)).
  - rewrite os_Remove_other by exact Hpf. rewrite Hfs. reflexivity.
  - rewrite Hfs. reflexivity.
Qed.

(** X25: the loop over the uploading directory removes an
    artifact only when the object store has taken it.  For a regular file
    of the list that [ProcessRemaining] goes through, of a batched kind:
    when the loop is over, either the file is still there with its bytes, or
    the log of the object store holds, after what it held before, an object
    with those bytes that the store took. *)
Theorem retry_removes_only_what_the_store_took
    (E : Env) (dataType : string) (l : list path) (w : World) (f : path) (data : bytes) :
  batched dataType ->
  f ∈ l ->
  fs w !! f = Some (File data) ->
  let w' := fst (upload_remaining E l dataType w) in
  fs w' !! f = Some (File data)
  \/ exists input pre post,
       puts w' = puts w ++ pre ++ (input, true) :: post /\ Body input = data.
Proof.
  intros Hb. revert w. induction l as [|f0 l IH]; intros w Hin Hf; cbv zeta.
  - apply elem_of_nil in Hin. destruct Hin.
  - rewrite upload_remaining_cons.
    destruct (decide (f0 = f)) as [->|Hne].
    + destruct (UploadAggregatedFile_run E f dataType w data Hb Hf) as (input & Hbody & Hup).
      rewrite Hup. simpl fst. simpl snd.
      destruct (put_ok E (length (puts w))) eqn:Hok.
      * right.
        match goal with
        | |- context [upload_remaining E l dataType ?w1] =>
            destruct (upload_remaining_puts E l dataType w1) as [post Hp]
        end.
        exists input, [], post. split; [|exact Hbody].
        rewrite Hp, os_Remove_puts. simpl. rewrite <- app_assoc. reflexivity.
      * destruct (decide (f ∈ l)) as [Hfl|Hfl].
        -- specialize (IH (mkWorld (fs w) (S (ticks w)) (puts w ++ [(input, false)])) Hfl Hf).
           cbv zeta in IH. destruct IH as [IH|(i & pre & post & Hp & Hbd)]; [left; exact IH|].
           right. exists i, ((input, false) :: pre), post. split; [|exact Hbd].
           rewrite Hp. simpl. rewrite <- app_assoc. reflexivity.
        -- left. rewrite upload_remaining_other by exact Hfl. exact Hf.
    + apply elem_of_cons in Hin. destruct Hin as [Heq|Hin]; [exfalso; apply Hne; symmetry; exact Heq|].
      destruct (UploadAggregatedFile_puts E f0 dataType w) as [Hfs [post1 Hp1]].
      destruct (snd (UploadAggregatedFile E f0 dataType w)).
      * specialize (IH (fst (os_Remove f0 (fst (UploadAggregatedFile E f0 dataType w)))) Hin).
        cbv zeta in IH. destruct IH as [IH|(i & pre & post & Hp & Hbd)].
        { rewrite os_Remove_other by (apply not_eq_sym; exact Hne). rewrite Hfs. exact Hf. }
        { left. exact IH. }
        right. exists i, (post1 ++ pre), post. split; [|exact Hbd].
        rewrite Hp, os_Remove_puts, Hp1, <- !app_assoc. reflexivity.
      * specialize (IH (fst (UploadAggregatedFile E f0 dataType w)) Hin).
        cbv zeta in IH. destruct IH as [IH|(i & pre & post & Hp & Hbd)].
        { rewrite Hfs. exact Hf. }
        { left. exact IH. }
        right. exists i, (post1 ++ pre), post. split; [|exact Hbd].
        rewrite Hp, Hp1, <- !app_assoc. reflexivity.
Qed.

Lemma retry_removes_only_what_the_store_took_witness :
  let w := Example.one_record Example.startup in
  let w' := fst (upload_remaining Example.calm [Example.alice] "usage" w) in
  fs w' !! Example.alice = Some (File Example.startup)
  \/ exists input pre post,
       puts w' = puts w ++ pre ++ (input, true) :: post /\ Body input = Example.startup.
Proof.
  apply (retry_removes_only_what_the_store_took Example.calm "usage" [Example.alice]
           (Example.one_record Example.startup) Example.alice Example.startup).
  - left. reflexivity.
  - apply list_elem_of_here.
  - vm_compute. reflexivity.
Defined.
